(** * Owner-scoped task service of the Todo backend: a shallow embedding

    The development follows the Python sources:
    - [models/database.py]       -> modules [User], [Task], [Store]
    - [schemas/task.py]          -> modules [TaskCreate], [TaskUpdate],
                                    [UserCreate], [Schema]
    - [services/task_service.py] -> module [TaskService]
    - [core/security.py]         -> module [Security]
    - [api/v1/tasks.py], [api/v1/auth.py] -> module [Api]
    - [middleware/auth_middleware.py] -> [Api.JWTBearer]
    - [create_test_user.py]      -> module [CreateTestUser]

    Conventions.
    - A [uuid.UUID] is its 128-bit integer; a [DateTime] is a number of
      microseconds since the epoch, a [timedelta] a number of microseconds.
    - A Python [str] is a [string], one [ascii] per code point: text whose
      code points are below 256 is represented exactly, other text is not
      represented.
    - A table is the list of its rows in the order in which a scan without
      ORDER BY meets them: an INSERT puts the row last, a DELETE leaves the
      others in their order, and where an UPDATE leaves the row depends on the
      storage engine (module [Engine]).
    - The values that the program obtains from its environment
      ([uuid.uuid4()], the clocks behind [func.now()], [datetime.utcnow()] and
      the verification of a token, the salt drawn by the password hasher) are
      explicit arguments of the operations.
    - Requests are served one at a time, each with a database session of its
      own. *)

From Stdlib Require Import Ascii.
From stdpp Require Import base decidable option strings numbers list.

Local Open Scope string_scope.
Local Open Scope Z_scope.
Local Open Scope list_scope.

Definition UUID := Z.
Definition DateTime := Z.

(** ** models/database.py *)

Module User.
Record t := mk {
  id : UUID;
  email : string;
  name : option string;
  hashed_password : string;
  created_at : DateTime;
  updated_at : DateTime
}.

(** [email = Column(String(255))], [name = Column(String(255))] *)
Definition fits (u : t) : Prop :=
  (String.length (email u) ≤ 255)%nat
  ∧ from_option (λ s, String.length s ≤ 255)%nat True (name u).
End User.

Module Task.
(** The mapped attributes of an instance of the ORM class.  [title] is
    declared [nullable=False]: Python code may set the attribute to [None];
    the engine refuses to store it (see [Store.update_row]). *)
Record t := mk {
  id : UUID;
  user_id : UUID;
  title : option string;
  description : option string;
  completed : option bool;
  priority : option string;
  created_at : DateTime;
  updated_at : DateTime
}.

Definition set_title (v : option string) (r : t) : t :=
  mk (id r) (user_id r) v (description r) (completed r) (priority r)
     (created_at r) (updated_at r).
Definition set_description (v : option string) (r : t) : t :=
  mk (id r) (user_id r) (title r) v (completed r) (priority r)
     (created_at r) (updated_at r).
Definition set_completed (v : option bool) (r : t) : t :=
  mk (id r) (user_id r) (title r) (description r) v (priority r)
     (created_at r) (updated_at r).
Definition set_priority (v : option string) (r : t) : t :=
  mk (id r) (user_id r) (title r) (description r) (completed r) v
     (created_at r) (updated_at r).
Definition set_updated_at (v : DateTime) (r : t) : t :=
  mk (id r) (user_id r) (title r) (description r) (completed r) (priority r)
     (created_at r) v.

(** [title = Column(String(255))], [priority = Column(String(20))] *)
Definition fits (r : t) : Prop :=
  from_option (λ s, String.length s ≤ 255)%nat True (title r)
  ∧ from_option (λ s, String.length s ≤ 20)%nat True (priority r).

(** [title = Column(..., nullable=False)] *)
Definition not_null (r : t) : Prop := is_Some (title r).
End Task.

#[global] Instance user_eq_dec : EqDecision User.t.
Proof. solve_decision. Defined.

#[global] Instance task_eq_dec : EqDecision Task.t.
Proof. solve_decision. Defined.

#[global] Instance user_fits_dec (u : User.t) : Decision (User.fits u).
Proof. unfold User.fits. destruct (User.name u); simpl; apply _. Defined.

#[global] Instance task_fits_dec (r : Task.t) : Decision (Task.fits r).
Proof.
  unfold Task.fits. destruct (Task.title r), (Task.priority r); simpl; apply _.
Defined.

#[global] Instance task_not_null_dec (r : Task.t) : Decision (Task.not_null r).
Proof. unfold Task.not_null. apply _. Defined.

(** A loaded ORM instance: the mapped attributes and the one plain Python
    attribute that [update_task] can attach with [setattr], [tags], which no
    column backs ([None]: the attribute is absent). *)
Module TaskObj.
Record t := mk {
  row : Task.t;
  tags : option (option (list string))
}.
Definition loaded (r : Task.t) : t := mk r None.
End TaskObj.

(** The outcome of a unit of work against the storage engine: committed, or
    an exception, in which case nothing is stored.  [IntegrityError]: a
    primary key, unique, foreign key or NOT NULL constraint; [DataError]: a
    value longer than its [String(n)] column; [InvalidRequestError]: a refresh
    that finds no row. *)
Inductive dberror := IntegrityError | DataError | InvalidRequestError.

Inductive dbresult (A : Type) : Type :=
  | Committed (a : A)
  | Rejected (e : dberror).
Arguments Committed {A} a.
Arguments Rejected {A} e.

(** The storage engine behind [settings.DATABASE_URL] ([core/config.py]: the
    default is a SQLite file; [core/database.py] prepares for PostgreSQL).
    Engines differ in three ways that the program can observe: whether a
    FOREIGN KEY is checked, whether a value longer than its [String(n)] column
    is refused, and where an UPDATE leaves the row in the order of a scan
    without ORDER BY.  PRIMARY KEY, UNIQUE and NOT NULL are checked by every
    engine. *)
Module Engine.
Record t := mk {
  foreign_keys : bool;
  string_lengths : bool;
  update_in_place : bool
}.

(** SQLite as the program opens it: no [PRAGMA foreign_keys], the length of
    a [VARCHAR(n)] is not checked, rows are scanned in rowid order. *)
Definition sqlite : t := mk false false true.

(** PostgreSQL: both are checked; an UPDATE writes a new version of the row,
    which a scan meets after the rows that were not touched. *)
Definition postgresql : t := mk true true false.
End Engine.

Module Store.
Record t := mk {
  engine : Engine.t;
  users : list User.t;
  tasks : list Task.t
}.

Definition empty (engine : Engine.t) : t := mk engine [] [].

(** The constraints that the two table declarations put on stored rows:
    the primary keys, [unique=True] on [users.email], the lengths of the
    [String(n)] columns, [nullable=False] on [tasks.title] and the foreign key
    [tasks.user_id -> users.id].  Which of them the engine checks is told by
    [engine]. *)
Definition users_pk (db : t) : Prop := NoDup (User.id <$> users db).
Definition email_unique (db : t) : Prop := NoDup (User.email <$> users db).
Definition users_fit (db : t) : Prop := Forall User.fits (users db).
Definition tasks_pk (db : t) : Prop := NoDup (Task.id <$> tasks db).
Definition tasks_fit (db : t) : Prop := Forall Task.fits (tasks db).
Definition title_not_null (db : t) : Prop := Forall Task.not_null (tasks db).
Definition owner_fk (db : t) : Prop :=
  Forall (λ r, Task.user_id r ∈ (User.id <$> users db)) (tasks db).

Definition wf (db : t) : Prop :=
  users_pk db ∧ email_unique db ∧ users_fit db
  ∧ tasks_pk db ∧ tasks_fit db ∧ title_not_null db ∧ owner_fk db.

(** INSERT INTO users; the row goes to the end of the table. *)
Definition insert_user (db : t) (u : User.t) : dbresult t :=
  if decide (Engine.string_lengths (engine db) = true ∧ ¬ User.fits u)
  then Rejected DataError
  else if decide (User.id u ∈ (User.id <$> users db)) then Rejected IntegrityError
  else if decide (User.email u ∈ (User.email <$> users db)) then Rejected IntegrityError
  else Committed (mk (engine db) (users db ++ [u]) (tasks db)).

(** INSERT INTO tasks; the row goes to the end of the table. *)
Definition insert_task (db : t) (r : Task.t) : dbresult t :=
  if decide (Engine.string_lengths (engine db) = true ∧ ¬ Task.fits r)
  then Rejected DataError
  else if decide (¬ Task.not_null r) then Rejected IntegrityError
  else if decide (Task.id r ∈ (Task.id <$> tasks db)) then Rejected IntegrityError
  else if decide (Engine.foreign_keys (engine db) = true
                  ∧ Task.user_id r ∉ (User.id <$> users db))
  then Rejected IntegrityError
  else Committed (mk (engine db) (users db) (tasks db ++ [r])).

(** The table after an UPDATE has written [new] over the row with the
    primary key of [old]: at the place of that row, or after the rows that
    were not touched. *)
Definition written (eng : Engine.t) (old new : Task.t) (tasks : list Task.t)
    : list Task.t :=
  if Engine.update_in_place eng
  then (λ r, if decide (Task.id r = Task.id old) then new else r) <$> tasks
  else filter (λ r, Task.id r ≠ Task.id old) tasks
       ++ ((λ _, new) <$> filter (λ r, Task.id r = Task.id old) tasks).

(** The flush of a modified instance, [old] being the state it was loaded
    with.  The unit of work compares every mapped attribute with its loaded
    value; when none differs, no UPDATE is emitted, so [onupdate=func.now()]
    does not fire.  Otherwise the UPDATE sets the changed columns and
    [updated_at = now] on the row with that primary key. *)
Definition update_row (db : t) (now : DateTime) (old new : Task.t) : dbresult t :=
  if decide (new = old) then Committed db
  else if decide (Engine.string_lengths (engine db) = true ∧ ¬ Task.fits new)
  then Rejected DataError
  else if decide (¬ Task.not_null new) then Rejected IntegrityError
  else Committed (mk (engine db) (users db)
         (written (engine db) old (Task.set_updated_at now new) (tasks db))).

(** DELETE FROM tasks WHERE id = pk. *)
Definition delete_row (db : t) (old : Task.t) : t :=
  mk (engine db) (users db) (filter (λ r, Task.id r ≠ Task.id old) (tasks db)).

(** [session.refresh(obj)]: the mapped attributes as stored now. *)
Definition refresh (db : t) (old : Task.t) : option Task.t :=
  head (filter (λ r, Task.id r = Task.id old) (tasks db)).
End Store.

(** ** schemas/task.py: request bodies *)

Module TaskCreate.
Record t := mk {
  title : string;
  description : option string;
  completed : bool;
  priority : option string;
  tags : option (list string)
}.

Definition set_tags (v : option (list string)) (d : t) : t :=
  mk (title d) (description d) (completed d) (priority d) v.

(** [title: Field(min_length=1, max_length=255)],
    [priority: Field(pattern="^(low|medium|high)$")] *)
Definition valid (d : t) : Prop :=
  (1 ≤ String.length (title d) ≤ 255)%nat
  ∧ from_option (λ p, p = "low" ∨ p = "medium" ∨ p = "high") True (priority d).
End TaskCreate.

Module TaskUpdate.
(** Every field is optional; the outer [option] tells whether the request
    body set the field at all ([exclude_unset]), the inner one is the value,
    which may be an explicit null. *)
Record t := mk {
  title : option (option string);
  description : option (option string);
  completed : option (option bool);
  priority : option (option string);
  tags : option (option (list string))
}.

Inductive item :=
  | Title (v : option string)
  | Description (v : option string)
  | Completed (v : option bool)
  | Priority (v : option string)
  | Tags (v : option (list string)).

Definition set_tags (v : option (option (list string))) (d : t) : t :=
  mk (title d) (description d) (completed d) (priority d) v.

(** The same constraints as in [TaskCreate], on the values that are strings;
    a null passes. *)
Definition valid (d : t) : Prop :=
  match title d with
  | Some (Some s) => (1 ≤ String.length s ≤ 255)%nat
  | _ => True
  end
  ∧ match priority d with
    | Some (Some p) => p = "low" ∨ p = "medium" ∨ p = "high"
    | _ => True
    end.

(** [task_data.dict(exclude_unset=True).items()], in field order. *)
Definition dict_exclude_unset (d : t) : list item :=
  option_list (Title <$> title d) ++
  option_list (Description <$> description d) ++
  option_list (Completed <$> completed d) ++
  option_list (Priority <$> priority d) ++
  option_list (Tags <$> tags d).
End TaskUpdate.

(** ** services/task_service.py *)

Module TaskService.

Definition create_task (db : Store.t) (new_id : UUID) (now : DateTime)
    (user_id : UUID) (task_data : TaskCreate.t)
    : dbresult (Store.t * TaskObj.t) :=
  let task := Task.mk new_id user_id
                (Some (TaskCreate.title task_data))
                (TaskCreate.description task_data)
                (Some (TaskCreate.completed task_data))
                (* a [None] is left out of the INSERT, so the column
                   default applies *)
                (Some (default "medium" (TaskCreate.priority task_data)))
                now now in
  match Store.insert_task db task with
  | Rejected e => Rejected e
  | Committed db' => Committed (db', TaskObj.loaded task)
  end.

Definition get_task_by_id (db : Store.t) (user_id task_id : UUID)
    : option Task.t :=
  head (filter (λ r, Task.user_id r = user_id ∧ Task.id r = task_id)
               (Store.tasks db)).

(** Python truthiness of an [Optional[str]]. *)
Definition truthy (s : option string) : bool :=
  match s with
  | None => false
  | Some s => negb (bool_decide (s = ""))
  end.

Definition get_tasks_by_user (db : Store.t) (user_id : UUID)
    (status priority : option string) : list Task.t :=
  let query := filter (λ r, Task.user_id r = user_id) (Store.tasks db) in
  let query :=
    if truthy status then
      if decide (status = Some "completed") then
        filter (λ r, Task.completed r = Some true) query
      else if decide (status = Some "incomplete") then
        filter (λ r, Task.completed r = Some false) query
      else query
    else query in
  let query :=
    if truthy priority then filter (λ r, Task.priority r = priority) query
    else query in
  query.

Definition setattr (task : TaskObj.t) (it : TaskUpdate.item) : TaskObj.t :=
  match it with
  | TaskUpdate.Title v =>
      TaskObj.mk (Task.set_title v (TaskObj.row task)) (TaskObj.tags task)
  | TaskUpdate.Description v =>
      TaskObj.mk (Task.set_description v (TaskObj.row task)) (TaskObj.tags task)
  | TaskUpdate.Completed v =>
      TaskObj.mk (Task.set_completed v (TaskObj.row task)) (TaskObj.tags task)
  | TaskUpdate.Priority v =>
      TaskObj.mk (Task.set_priority v (TaskObj.row task)) (TaskObj.tags task)
  | TaskUpdate.Tags v => TaskObj.mk (TaskObj.row task) (Some v)
  end.

(** add, commit and refresh of a loaded instance that was modified. *)
Definition commit_refresh (db : Store.t) (now : DateTime)
    (old : Task.t) (task : TaskObj.t) : dbresult (Store.t * option TaskObj.t) :=
  match Store.update_row db now old (TaskObj.row task) with
  | Rejected e => Rejected e
  | Committed db' =>
      match Store.refresh db' old with
      | Some r => Committed (db', Some (TaskObj.mk r (TaskObj.tags task)))
      | None => Rejected InvalidRequestError
      end
  end.

Definition update_task (db : Store.t) (now : DateTime)
    (user_id task_id : UUID) (task_data : TaskUpdate.t)
    : dbresult (Store.t * option TaskObj.t) :=
  match get_task_by_id db user_id task_id with
  | None => Committed (db, None)
  | Some old =>
      let update_data := TaskUpdate.dict_exclude_unset task_data in
      let task := foldl setattr (TaskObj.loaded old) update_data in
      commit_refresh db now old task
  end.

Definition delete_task (db : Store.t) (user_id task_id : UUID)
    : Store.t * bool :=
  match get_task_by_id db user_id task_id with
  | None => (db, false)
  | Some old => (Store.delete_row db old, true)
  end.

Definition toggle_task_completion (db : Store.t) (now : DateTime)
    (user_id task_id : UUID) (completed : bool)
    : dbresult (Store.t * option TaskObj.t) :=
  match get_task_by_id db user_id task_id with
  | None => Committed (db, None)
  | Some old =>
      let task := TaskObj.mk (Task.set_completed (Some completed) old) None in
      commit_refresh db now old task
  end.

End TaskService.

(** ** schemas/task.py: response models *)

Module UserCreate.
Record t := mk {
  email : string;
  name : option string;
  password : string
}.

(** [password: str = Field(min_length=6)] *)
Definition valid (d : t) : Prop := (6 ≤ String.length (password d))%nat.
End UserCreate.

Module Schema.
Module User.
Record t := mk {
  email : string;
  name : option string;
  id : UUID;
  created_at : DateTime;
  updated_at : DateTime
}.
End User.

Module Task.
Record t := mk {
  title : string;
  description : option string;
  completed : bool;
  priority : option string;
  tags : option (list string);
  id : UUID;
  user_id : UUID;
  created_at : DateTime;
  updated_at : DateTime
}.
End Task.

Module TaskResponse.
Record t := mk { success : bool; data : Task.t }.
End TaskResponse.

Module TasksResponse.
Record t := mk { success : bool; data : list Task.t }.
End TasksResponse.

Module MessageResponse.
Record t := mk { success : bool; message : string }.
End MessageResponse.

(** [Field(min_length=1, max_length=255)] *)
Definition title_ok (s : string) : bool :=
  bool_decide (1 ≤ String.length s ≤ 255)%nat.

(** [pattern="^(low|medium|high)$"] *)
Definition priority_ok (s : string) : bool :=
  bool_decide (s = "low" ∨ s = "medium" ∨ s = "high").
End Schema.

(** Validation of a response model from the attributes of an ORM instance
    ([from_attributes = True]); [None] stands for the validation error.  An
    attribute that the instance does not have takes the field's default. *)
Definition task_from_attributes (o : TaskObj.t) : option Schema.Task.t :=
  let r := TaskObj.row o in
  match Task.title r, Task.completed r with
  | Some title, Some completed =>
      if Schema.title_ok title
         && from_option Schema.priority_ok true (Task.priority r)
      then Some (Schema.Task.mk title (Task.description r) completed
                   (Task.priority r)
                   (default (Some []) (TaskObj.tags o))
                   (Task.id r) (Task.user_id r)
                   (Task.created_at r) (Task.updated_at r))
      else None
  | _, _ => None
  end.

Definition user_from_attributes (u : User.t) : Schema.User.t :=
  Schema.User.mk (User.email u) (User.name u) (User.id u)
                 (User.created_at u) (User.updated_at u).

(** ** uuid.UUID(hex), on text with code points below 256 *)

Module Uuid.
Local Open Scope nat_scope.

(** [s.replace(pat, '')] for a pattern that is not empty. *)
Fixpoint remove_sub (pat : string) (skip : nat) (s : string) : string :=
  match s with
  | EmptyString => EmptyString
  | String c s' =>
      match skip with
      | S k => remove_sub pat k s'
      | O => if String.prefix pat s
             then remove_sub pat (String.length pat - 1) s'
             else String c (remove_sub pat 0 s')
      end
  end.

Fixpoint lstrip (p : ascii → bool) (s : string) : string :=
  match s with
  | EmptyString => EmptyString
  | String c s' => if p c then lstrip p s' else s
  end.

Fixpoint rstrip (p : ascii → bool) (s : string) : string :=
  match s with
  | EmptyString => EmptyString
  | String c s' =>
      match rstrip p s' with
      | EmptyString => if p c then EmptyString else String c EmptyString
      | r => String c r
      end
  end.

Definition strip (p : ascii → bool) (s : string) : string := rstrip p (lstrip p s).

Definition is_brace (c : ascii) : bool :=
  bool_decide (c = "{"%char ∨ c = "}"%char).

Fixpoint remove_char (x : ascii) (s : string) : string :=
  match s with
  | EmptyString => EmptyString
  | String c s' => if decide (c = x) then remove_char x s'
                   else String c (remove_char x s')
  end.

(** Whitespace as [int()] sees it, on text with code points below 256: the
    blanks of the C locale and, of the characters from 127 on, those that
    Unicode counts as white space, U+0085 and U+00A0.  (Every other character
    from 127 on is no digit either, and a character below 127 that is a blank
    only for Unicode, U+001C to U+001F, is left as it is.) *)
Definition is_space (c : ascii) : bool :=
  let n := nat_of_ascii c in
  bool_decide ((9 ≤ n ∧ n ≤ 13) ∨ n = 32 ∨ n = 133 ∨ n = 160).

Definition hex_digit (c : ascii) : option Z :=
  let n := nat_of_ascii c in
  if bool_decide (48 ≤ n ∧ n ≤ 57) then Some (Z.of_nat (n - 48))
  else if bool_decide (97 ≤ n ∧ n ≤ 102) then Some (Z.of_nat (n - 87))
  else if bool_decide (65 ≤ n ∧ n ≤ 70) then Some (Z.of_nat (n - 55))
  else None.

(** The run of digits, single underscores allowed between two digits;
    returns the value and the rest of the text. *)
Fixpoint digits16 (acc : Z) (prev_underscore : bool) (s : string)
    : option (Z * string) :=
  match s with
  | EmptyString => if prev_underscore then None else Some (acc, EmptyString)
  | String c r =>
      match hex_digit c with
      | Some d => digits16 (16 * acc + d)%Z false r
      | None =>
          if decide (c = "_"%char) then
            if prev_underscore then None else digits16 acc true r
          else if prev_underscore then None else Some (acc, s)
      end
  end.

(** [int(s, 16)]: optional blanks, sign, [0x] prefix, [None] on ValueError. *)
Definition int16 (s : string) : option Z :=
  let s := lstrip is_space s in
  let '(negative, s) :=
    match s with
    | String "+"%char r => (false, r)
    | String "-"%char r => (true, r)
    | _ => (false, s)
    end in
  let s :=
    match s with
    | String "0"%char (String x r) =>
        if bool_decide (x = "x"%char ∨ x = "X"%char) then
          match r with String "_"%char r' => r' | _ => r end
        else s
    | _ => s
    end in
  match s with
  | String c _ =>
      match hex_digit c, digits16 0%Z false s with
      | Some _, Some (v, rest) =>
          match lstrip is_space rest with
          | EmptyString => Some (if negative : bool then (- v)%Z else v)
          | _ => None
          end
      | _, _ => None
      end
  | EmptyString => None
  end.

(** [uuid.UUID(hex)]; [None] stands for the ValueError. *)
Definition UUID (hex : string) : option Z :=
  let hex := remove_sub "uuid:" 0 (remove_sub "urn:" 0 hex) in
  let hex := remove_char "-"%char (strip is_brace hex) in
  if decide (String.length hex = 32) then
    match int16 hex with
    | Some i => if decide (0 ≤ i < 2 ^ 128)%Z then Some i else None
    | None => None
    end
  else None.

(** The canonical textual form, 8-4-4-4-12 hexadecimal digits. *)
Definition canonical (s : string) : bool :=
  bool_decide (String.length s = 36) &&
  forallb (λ '(i, c),
             if bool_decide (i ∈ [8; 13; 18; 23]) then bool_decide (c = "-"%char)
             else bool_decide (is_Some (hex_digit c)))
          (imap (λ i c, (i, c)) (String.list_ascii_of_string s)).

(** The digit characters of ['%x']. *)
Definition hex_char (d : Z) : ascii :=
  if bool_decide (d < 10)%Z then ascii_of_nat (48 + Z.to_nat d)
  else ascii_of_nat (87 + Z.to_nat d).

(** ['%0<width>x' % i] for [0 <= i < 16 ^ width], in front of [acc]. *)
Fixpoint format_hex (width : nat) (i : Z) (acc : string) : string :=
  match width with
  | O => acc
  | S w => format_hex w (i `div` 16)%Z (String (hex_char (i `mod` 16)%Z) acc)
  end.

(** [str(uuid)]: the 32 digits of the integer, sliced 8-4-4-4-12. *)
Definition str (i : Z) : string :=
  let hex := format_hex 32 i EmptyString in
  String.substring 0 8 hex +:+ "-" +:+ String.substring 8 4 hex +:+ "-"
  +:+ String.substring 12 4 hex +:+ "-" +:+ String.substring 16 4 hex +:+ "-"
  +:+ String.substring 20 12 hex.
End Uuid.

(** ** core/security.py *)

Module Security.
(** The payload of a token, with the keys this program writes and reads:
    the identity claims and the expiration, in whole seconds since the
    epoch. *)
Module Claims.
Record t := mk {
  sub : option string;
  email : option string;
  exp : option Z
}.
Definition set_exp (e : Z) (c : t) : t := mk (sub c) (email c) (Some e).
End Claims.

(** A bearer token is either text that does not parse as a compact JWS, or
    a header algorithm, a payload and a signature; the JSON and base64url
    layers of the serialisation are not represented. *)
Inductive token :=
  | Opaque (text : string)
  | Compact (alg : string) (payload : Claims.t) (signature : string).

Inductive PyJWTError :=
  | DecodeError
  | InvalidAlgorithmError
  | InvalidSignatureError
  | ExpiredSignatureError.

Definition microseconds : Z := 1000000.
(** [timedelta(days=7)] *)
Definition seven_days : Z := 7 * 86400 * microseconds.

Section Keyed.
(** HMAC-SHA256 of the signing input of a payload, under a key. *)
Variable hs256 : string → Claims.t → string.
(** [settings.BETTER_AUTH_SECRET] *)
Variable BETTER_AUTH_SECRET : string.
(** [pwd_context.hash] with the salt it draws, and [pwd_context.verify]. *)
Variable pwd_context_hash : string → string → string.
Variable pwd_context_verify : string → string → bool.

Definition jwt_encode (payload : Claims.t) (key : string) : token :=
  Compact "HS256" payload (hs256 key payload).

(** [jwt.decode(token, key, algorithms=["HS256"])] at clock reading [now]. *)
Definition jwt_decode (tok : token) (key : string) (now : DateTime)
    : PyJWTError + Claims.t :=
  match tok with
  | Opaque _ => inl DecodeError
  | Compact alg payload signature =>
      if decide (alg ≠ "HS256") then inl InvalidAlgorithmError
      else if decide (signature ≠ hs256 key payload) then inl InvalidSignatureError
      else match Claims.exp payload with
           | Some exp =>
               if decide (exp * microseconds ≤ now)%Z then inl ExpiredSignatureError
               else inr payload
           | None => inr payload
           end
  end.

Definition create_access_token (utcnow : DateTime) (data : Claims.t)
    (expires_delta : option Z) : token :=
  let to_encode := data in
  let expire :=
    match expires_delta with
    | Some delta =>
        (* a zero [timedelta] is falsy *)
        if decide (delta ≠ 0) then (utcnow + delta)%Z else (utcnow + seven_days)%Z
    | None => (utcnow + seven_days)%Z
    end in
  (* the encoder writes a datetime as whole seconds *)
  let to_encode := Claims.set_exp (expire `div` microseconds)%Z to_encode in
  jwt_encode to_encode BETTER_AUTH_SECRET.

Definition verify_token (now : DateTime) (tok : token) : option Claims.t :=
  match jwt_decode tok BETTER_AUTH_SECRET now with
  | inr payload => Some payload
  | inl _ => None
  end.

Definition get_password_hash (salt password : string) : string :=
  pwd_context_hash salt password.

Definition verify_password (plain_password hashed_password : string) : bool :=
  pwd_context_verify plain_password hashed_password.
End Keyed.
End Security.

(** ** api/v1/tasks.py and api/v1/auth.py *)

Module Api.
Import Security.

Inductive exn :=
  | HTTPException (status_code : Z) (detail : string)
  | ValidationError
  | SQLAlchemyError.

Inductive outcome (A : Type) : Type :=
  | Return (a : A)
  | Raise (e : exn).
Arguments Return {A} a.
Arguments Raise {A} e.

(** What a request did with its database session, in order. *)
Inductive access :=
  | create_task_call (user_id : UUID)
  | get_task_by_id_call (user_id task_id : UUID)
  | get_tasks_by_user_call (user_id : UUID)
  | update_task_call (user_id task_id : UUID)
  | delete_task_call (user_id task_id : UUID)
  | toggle_task_completion_call (user_id task_id : UUID)
  | users_query
  | users_insert.

Record session := mkSession {
  db : Store.t;
  accesses : list access
}.

Definition open_session (d : Store.t) : session := mkSession d [].

Definition M (A : Type) : Type := session → outcome A * session.

#[export] Instance M_ret : MRet M := λ A a s, (Return a, s).
#[export] Instance M_bind : MBind M := λ A B f m s,
  match m s with
  | (Return a, s') => f a s'
  | (Raise e, s') => (Raise e, s')
  end.

#[export] Instance M_fmap : FMap M := λ A B f m s,
  match m s with
  | (Return a, s') => (Return (f a), s')
  | (Raise e, s') => (Raise e, s')
  end.

Definition raise {A} (e : exn) : M A := λ s, (Raise e, s).

(** The only way a handler reaches the store; every use is recorded. *)
Definition storage {A} (a : access) (f : Store.t → dbresult (Store.t * A)) : M A :=
  λ s, match f (db s) with
       | Committed (d, x) => (Return x, mkSession d (accesses s ++ [a]))
       | Rejected _ => (Raise SQLAlchemyError, mkSession (db s) (accesses s ++ [a]))
       end.

(** The values a request draws from its environment. *)
Record env := mkEnv {
  now : DateTime;
  uuid4 : UUID
}.

(** [if token_data.get("sub") != user_id: raise HTTPException(401, ...)] *)
Definition check_subject (token_data : Claims.t) (user_id detail : string) : M () :=
  if decide (Claims.sub token_data ≠ Some user_id)
  then raise (HTTPException 401 detail)
  else mret ().

Definition parse_user (user_id : string) : M UUID :=
  match Uuid.UUID user_id with
  | Some user_uuid => mret user_uuid
  | None => raise (HTTPException 400 "Invalid user ID format")
  end.

Definition parse_user_task (user_id task_id : string) : M (UUID * UUID) :=
  match Uuid.UUID user_id, Uuid.UUID task_id with
  | Some user_uuid, Some task_uuid => mret (user_uuid, task_uuid)
  | _, _ => raise (HTTPException 400 "Invalid user or task ID format")
  end.

(** [TaskResponse(success=True, data=task)] *)
Definition task_response (task : TaskObj.t) : M Schema.TaskResponse.t :=
  match task_from_attributes task with
  | Some data => mret (Schema.TaskResponse.mk true data)
  | None => raise ValidationError
  end.

(** [TasksResponse(success=True, data=tasks)] *)
Definition tasks_response (tasks : list Task.t) : M Schema.TasksResponse.t :=
  match mapM (λ r, task_from_attributes (TaskObj.loaded r)) tasks with
  | Some data => mret (Schema.TasksResponse.mk true data)
  | None => raise ValidationError
  end.

Definition not_found {A} : M A := raise (HTTPException 404 "Task not found").

Definition get_tasks (user_id : string) (status priority : option string)
    (token_data : Claims.t) : M Schema.TasksResponse.t :=
  check_subject token_data user_id "Unauthorized access to these tasks";;
  user_uuid ← parse_user user_id;
  tasks ← storage (get_tasks_by_user_call user_uuid)
            (λ d, Committed (d, TaskService.get_tasks_by_user d user_uuid status priority));
  tasks_response tasks.

Definition create_task (e : env) (user_id : string) (task_data : TaskCreate.t)
    (token_data : Claims.t) : M Schema.TaskResponse.t :=
  check_subject token_data user_id "Unauthorized to create tasks for this user";;
  user_uuid ← parse_user user_id;
  task ← storage (create_task_call user_uuid)
           (λ d, TaskService.create_task d (uuid4 e) (now e) user_uuid task_data);
  task_response task.

Definition get_task (user_id task_id : string) (token_data : Claims.t)
    : M Schema.TaskResponse.t :=
  check_subject token_data user_id "Unauthorized access to this task";;
  '(user_uuid, task_uuid) ← parse_user_task user_id task_id;
  task ← storage (get_task_by_id_call user_uuid task_uuid)
           (λ d, Committed (d, TaskService.get_task_by_id d user_uuid task_uuid));
  match task with
  | None => not_found
  | Some task => task_response (TaskObj.loaded task)
  end.

Definition update_task (e : env) (user_id task_id : string)
    (task_data : TaskUpdate.t) (token_data : Claims.t) : M Schema.TaskResponse.t :=
  check_subject token_data user_id "Unauthorized to update this task";;
  '(user_uuid, task_uuid) ← parse_user_task user_id task_id;
  task ← storage (update_task_call user_uuid task_uuid)
           (λ d, TaskService.update_task d (now e) user_uuid task_uuid task_data);
  match task with
  | None => not_found
  | Some task => task_response task
  end.

Definition delete_task (user_id task_id : string) (token_data : Claims.t)
    : M Schema.MessageResponse.t :=
  check_subject token_data user_id "Unauthorized to delete this task";;
  '(user_uuid, task_uuid) ← parse_user_task user_id task_id;
  success ← storage (delete_task_call user_uuid task_uuid)
              (λ d, Committed (TaskService.delete_task d user_uuid task_uuid));
  if success : bool
  then mret (Schema.MessageResponse.mk true "Task deleted successfully")
  else not_found.

Definition toggle_task_completion (e : env) (user_id task_id : string)
    (completed : bool) (token_data : Claims.t) : M Schema.TaskResponse.t :=
  check_subject token_data user_id "Unauthorized to update this task";;
  '(user_uuid, task_uuid) ← parse_user_task user_id task_id;
  task ← storage (toggle_task_completion_call user_uuid task_uuid)
           (λ d, TaskService.toggle_task_completion d (now e) user_uuid task_uuid completed);
  match task with
  | None => not_found
  | Some task => task_response task
  end.

(** The six routes of the task router. *)
Inductive request :=
  | GET_tasks (user_id : string) (status priority : option string)
  | POST_tasks (user_id : string) (task_data : TaskCreate.t)
  | GET_task (user_id task_id : string)
  | PUT_task (user_id task_id : string) (task_data : TaskUpdate.t)
  | DELETE_task (user_id task_id : string)
  | PATCH_complete (user_id task_id : string) (completed : bool).

Inductive response :=
  | Tasks (r : Schema.TasksResponse.t)
  | OneTask (r : Schema.TaskResponse.t)
  | Message (r : Schema.MessageResponse.t).

Definition path_user_id (req : request) : string :=
  match req with
  | GET_tasks u _ _ | POST_tasks u _ | GET_task u _ | PUT_task u _ _
  | DELETE_task u _ | PATCH_complete u _ _ => u
  end.

Definition path_task_id (req : request) : option string :=
  match req with
  | GET_tasks _ _ _ | POST_tasks _ _ => None
  | GET_task _ t | PUT_task _ t _ | DELETE_task _ t | PATCH_complete _ t _ => Some t
  end.

Definition route (e : env) (req : request) (token_data : Claims.t) : M response :=
  match req with
  | GET_tasks u status priority => Tasks <$> get_tasks u status priority token_data
  | POST_tasks u task_data => OneTask <$> create_task e u task_data token_data
  | GET_task u t => OneTask <$> get_task u t token_data
  | PUT_task u t task_data => OneTask <$> update_task e u t task_data token_data
  | DELETE_task u t => Message <$> delete_task u t token_data
  | PATCH_complete u t completed =>
      OneTask <$> toggle_task_completion e u t completed token_data
  end.

(** The status code a client sees. *)
Definition status_code {A} (o : outcome A) : Z :=
  match o with
  | Return _ => 200
  | Raise (HTTPException code _) => code
  | Raise ValidationError | Raise SQLAlchemyError => 500
  end.

Section Auth.
Variable pwd_context_hash : string → string → string.

Definition register_user (e : env) (salt : string) (user_data : UserCreate.t)
    : M Schema.User.t :=
  existing_user ← storage users_query
    (λ d, Committed (d, head (filter (λ u, User.email u = UserCreate.email user_data)
                                     (Store.users d))));
  match existing_user with
  | Some _ => raise (HTTPException 400 "A user with this email already exists")
  | None =>
      let hashed_password :=
        get_password_hash pwd_context_hash salt (UserCreate.password user_data) in
      let db_user := User.mk (uuid4 e) (UserCreate.email user_data)
                       (UserCreate.name user_data) hashed_password (now e) (now e) in
      storage users_insert
        (λ d, match Store.insert_user d db_user with
              | Committed d' => Committed (d', ())
              | Rejected e => Rejected e
              end);;
      mret (user_from_attributes db_user)
  end.
End Auth.

(** *** middleware/auth_middleware.py, and the rest of api/v1/auth.py *)

(** What [JWTBearer] leaves on [request.state]. *)
Module RequestState.
Record t := mk {
  user_id : option string;
  user_email : option string
}.
End RequestState.

(** The body of the answer of the login endpoint. *)
Module LoginResponse.
Record t := mk {
  access_token : token;
  token_type : string
}.
End LoginResponse.

Section Identity.
Variable hs256 : string → Claims.t → string.
Variable BETTER_AUTH_SECRET : string.
Variable pwd_context_verify : string → string → bool.

(** [JWTBearer.__call__], given what the parent class extracted from the
    Authorization header (scheme and credentials) and the clock reading at
    which the token is verified. *)
Definition JWTBearer (clock : DateTime) (credentials : option (string * token))
    : M (Claims.t * RequestState.t) :=
  match credentials with
  | Some (scheme, tok) =>
      if decide (scheme ≠ "Bearer")
      then raise (HTTPException 401 "Invalid authentication scheme.")
      else
        match verify_token hs256 BETTER_AUTH_SECRET clock tok with
        | None => raise (HTTPException 401 "Invalid token or expired token.")
        | Some token_data =>
            mret (token_data,
                  RequestState.mk (Claims.sub token_data) (Claims.email token_data))
        end
  | None => raise (HTTPException 401 "Invalid authorization code.")
  end.

(** A request to the task router: the dependency [Depends(JWTBearer())] is
    resolved, then the handler runs with its result. *)
Definition authenticated_route (clock : DateTime)
    (credentials : option (string * token)) (e : env) (req : request)
    : M response :=
  '(token_data, _) ← JWTBearer clock credentials;
  route e req token_data.

Definition login_user (utcnow : DateTime) (email password : string)
    : M LoginResponse.t :=
  user ← storage users_query
    (λ d, Committed (d, head (filter (λ u, User.email u = email) (Store.users d))));
  match user with
  | Some user =>
      if verify_password pwd_context_verify password (User.hashed_password user)
      then
        let access_token_expires := seven_days in
        let access_token :=
          create_access_token hs256 BETTER_AUTH_SECRET utcnow
            (Claims.mk (Some (Uuid.str (User.id user))) (Some (User.email user)) None)
            (Some access_token_expires) in
        mret (LoginResponse.mk access_token "bearer")
      else raise (HTTPException 401 "Incorrect email or password")
  | None => raise (HTTPException 401 "Incorrect email or password")
  end.

(** [uuid.UUID(token_data.get("sub"))] raises TypeError when the key is
    missing and ValueError when the text does not parse; both are caught. *)
Definition get_current_user (token_data : Claims.t) : M Schema.User.t :=
  match Claims.sub token_data ≫= Uuid.UUID with
  | None => raise (HTTPException 400 "Invalid user ID format")
  | Some user_id =>
      user ← storage users_query
        (λ d, Committed (d, head (filter (λ u, User.id u = user_id) (Store.users d))));
      match user with
      | None => raise (HTTPException 404 "User not found")
      | Some user => mret (user_from_attributes user)
      end
  end.
End Identity.
End Api.

(** ** create_test_user.py *)

Module CreateTestUser.

(** The script, on the store it is run against; the result carries the line
    it prints.  An exception of the engine ends the run with nothing
    stored. *)
Definition create_test_user (pwd_context_hash : string → string → string)
    (e : Api.env) (salt : string) (db : Store.t) : dbresult (Store.t * string) :=
  match head (filter (λ u, User.email u = "test@example.com") (Store.users db)) with
  | Some _ => Committed (db, "Test user 'test@example.com' already exists.")
  | None =>
      let hashed_password :=
        Security.get_password_hash pwd_context_hash salt "testpass" in
      let db_user := User.mk (Api.uuid4 e) "test@example.com" (Some "Test User")
                       hashed_password (Api.now e) (Api.now e) in
      match Store.insert_user db db_user with
      | Rejected err => Rejected err
      | Committed db' =>
          Committed (db', "Successfully created user 'test@example.com' with ID: "
                          +:+ Uuid.str (User.id db_user))
      end
  end.
End CreateTestUser.

(** * Vocabulary of the statements *)

(** Sample data. *)
Module Sample.
Definition alice : UUID := 0x11111111111111111111111111111111.
Definition bob : UUID := 0x22222222222222222222222222222222.
Definition alice_id : string := "11111111-1111-1111-1111-111111111111".
Definition bob_id : string := "22222222-2222-2222-2222-222222222222".
Definition u_alice := User.mk alice "alice@example.com" None "h1" 10 10.
Definition u_bob := User.mk bob "bob@example.com" (Some "Bob") "h2" 11 11.
Definition t1 :=
  Task.mk 101 alice (Some "buy milk") None (Some false) (Some "low") 20 20.
Definition t2 :=
  Task.mk 102 alice (Some "pay rent") (Some "monthly") (Some true) (Some "high") 21 21.
Definition t3 :=
  Task.mk 103 bob (Some "walk dog") None (Some true) (Some "low") 22 22.
(** The sample store, on the default engine of [core/config.py]. *)
Definition db := Store.mk Engine.sqlite [u_alice; u_bob] [t1; t2; t3].
(** The same rows on PostgreSQL. *)
Definition pg := Store.mk Engine.postgresql [u_alice; u_bob] [t1; t2; t3].
(** The path form of the identifier of [t1]. *)
Definition t1_id : string := "00000000-0000-0000-0000-000000000065".
Definition env : Api.env := Api.mkEnv 1000 555.
Definition claims_of (sub : string) : Security.Claims.t :=
  Security.Claims.mk (Some sub) (Some "alice@example.com") (Some 2000).
End Sample.

(** What each filter argument of the listing asks of a row. *)
Module Listing.
Definition status_filter (status : option string) (r : Task.t) : Prop :=
  if TaskService.truthy status then
    if decide (status = Some "completed") then Task.completed r = Some true
    else if decide (status = Some "incomplete") then Task.completed r = Some false
    else True
  else True.

Definition priority_filter (priority : option string) (r : Task.t) : Prop :=
  if TaskService.truthy priority then Task.priority r = priority else True.
End Listing.

#[global] Instance status_filter_dec status r : Decision (Listing.status_filter status r).
Proof. unfold Listing.status_filter. repeat case_match; apply _. Defined.

#[global] Instance priority_filter_dec priority r :
  Decision (Listing.priority_filter priority r).
Proof. unfold Listing.priority_filter. repeat case_match; apply _. Defined.

Module Updates.
(** The mapped attributes after every item of the payload has been set. *)
Definition merged (d : TaskUpdate.t) (r : Task.t) : Task.t :=
  Task.mk (Task.id r) (Task.user_id r)
    (default (Task.title r) (TaskUpdate.title d))
    (default (Task.description r) (TaskUpdate.description d))
    (default (Task.completed r) (TaskUpdate.completed d))
    (default (Task.priority r) (TaskUpdate.priority d))
    (Task.created_at r) (Task.updated_at r).

(** The table after the UPDATE of the row of [old]. *)
Definition replaced (old new : Task.t) (tasks : list Task.t) : list Task.t :=
  (λ r, if decide (Task.id r = Task.id old) then new else r) <$> tasks.

(** The part of C6 that the code does not satisfy: whenever the update
    succeeds, [updated_at] is later than before. *)
Definition updated_at_advances (db : Store.t) (now : DateTime) (owner : UUID)
    (T : Task.t) (d : TaskUpdate.t) : Prop :=
  ∀ db' task,
    TaskService.update_task db now owner (Task.id T) d = Committed (db', Some task) →
    Task.updated_at T < Task.updated_at (TaskObj.row task).

Definition no_fields : TaskUpdate.t := TaskUpdate.mk None None None None None.

(** What an operation leaves in the store and in the mapped attributes of
    the instance it returns, the plain attributes of the instance dropped. *)
Definition persisted (r : dbresult (Store.t * option TaskObj.t))
    : dbresult (Store.t * option Task.t) :=
  match r with
  | Committed (db, task) => Committed (db, TaskObj.row <$> task)
  | Rejected e => Rejected e
  end.
End Updates.

Module Routes.


End Routes.

Module Tokens.
(** A stand-in for the MAC in closed examples: the key next to the subject
    it covers. *)
Definition toy_mac (key : string) (payload : Security.Claims.t) : string :=
  key +:+ default "" (Security.Claims.sub payload).
End Tokens.

Module Registration.
(** One registration request: the body and what the request draws. *)
Record request := mk {
  env : Api.env;
  salt : string;
  data : UserCreate.t
}.

Definition email (r : request) : string := UserCreate.email (data r).
Definition uuid4 (r : request) : UUID := Api.uuid4 (env r).

(** The body fits the columns of the users table. *)
Definition fits (d : UserCreate.t) : Prop :=
  (String.length (UserCreate.email d) ≤ 255)%nat
  ∧ from_option (λ s, String.length s ≤ 255)%nat True (UserCreate.name d).

(** The body is one that the engine stores: it fits the columns when the
    engine checks the lengths. *)
Definition accepted (engine : Engine.t) (d : UserCreate.t) : Prop :=
  Engine.string_lengths engine = true → fits d.

Definition emails (db : Store.t) : list string := User.email <$> Store.users db.
Definition ids (db : Store.t) : list UUID := User.id <$> Store.users db.

(** The requests served one after the other, each in a session of its own
    on the store the previous one left. *)
Fixpoint register_all (pwd_context_hash : string → string → string)
    (regs : list request) (db : Store.t)
    : list (Api.outcome Schema.User.t) * Store.t :=
  match regs with
  | [] => ([], db)
  | r :: regs' =>
      let result :=
        Api.register_user pwd_context_hash (env r) (salt r) (data r)
          (Api.open_session db) in
      let rest := register_all pwd_context_hash regs' (Api.db result.2) in
      (result.1 :: rest.1, rest.2)
  end.

(** The user row a registration builds. *)
Definition new_user (pwd_context_hash : string → string → string)
    (e : Api.env) (salt : string) (d : UserCreate.t) : User.t :=
  User.mk (Api.uuid4 e) (UserCreate.email d) (UserCreate.name d)
    (Security.get_password_hash pwd_context_hash salt (UserCreate.password d))
    (Api.now e) (Api.now e).


Definition conflict : Api.exn :=
  Api.HTTPException 400 "A user with this email already exists".

Definition toy_hash (salt password : string) : string := salt +:+ "$" +:+ password.

Definition carol : request :=
  mk (Api.mkEnv 30 0x33333333333333333333333333333333) "s1"
     (UserCreate.mk "carol@example.com" None "secret1").
Definition dave : request :=
  mk (Api.mkEnv 31 0x44444444444444444444444444444444) "s2"
     (UserCreate.mk "dave@example.com" (Some "Dave") "secret2").


Fixpoint replicate (n : nat) (c : ascii) : string :=
  match n with
  | O => EmptyString
  | S n' => String c (replicate n' c)
  end.

(** A body that the request schema accepts, with a name of 256 characters. *)
Definition erin : request :=
  mk (Api.mkEnv 32 0x66666666666666666666666666666666) "s4"
     (UserCreate.mk "erin@example.com" (Some (replicate 256 "n")) "secret4").
End Registration.

(** Text all of whose characters satisfy [P]. *)
Fixpoint all_chars (P : ascii → Prop) (s : string) : Prop :=
  match s with
  | EmptyString => True
  | String c s' => P c ∧ all_chars P s'
  end.

(** A digit character that [str(uuid)] writes. *)
Definition lower_hex (c : ascii) : Prop :=
  ∃ d, (0 ≤ d < 16)%Z ∧ c = Uuid.hex_char d.


Module Calls.

(** The repository call that the handler of a request makes, for the parsed
    identifiers of its path. *)
Definition of_request (req : Api.request) (u t : UUID) : Api.access :=
  match req with
  | Api.GET_tasks _ _ _ => Api.get_tasks_by_user_call u
  | Api.POST_tasks _ _ => Api.create_task_call u
  | Api.GET_task _ _ => Api.get_task_by_id_call u t
  | Api.PUT_task _ _ _ => Api.update_task_call u t
  | Api.DELETE_task _ _ => Api.delete_task_call u t
  | Api.PATCH_complete _ _ _ => Api.toggle_task_completion_call u t
  end.
End Calls.

Module Views.
(** What user [B] can read is the same in [db'] as in [db]: every listing
    and every lookup made for [B]; and the users table is the same. *)
Definition same_for (B : UUID) (db db' : Store.t) : Prop :=
  Store.users db' = Store.users db
  ∧ (∀ status priority,
       TaskService.get_tasks_by_user db' B status priority
       = TaskService.get_tasks_by_user db B status priority)
  ∧ (∀ task_id,
       TaskService.get_task_by_id db' B task_id
       = TaskService.get_task_by_id db B task_id).
End Views.

Module Identity.
(** Stand-ins for the password hasher in closed examples. *)
Definition toy_hash (salt plain : string) : string := "h" +:+ plain.
Definition toy_verify (plain hashed : string) : bool :=
  bool_decide (hashed = "h" +:+ plain).

(** The claims that the login endpoint signs for a user at [utcnow]. *)
Definition login_claims (utcnow : DateTime) (u : User.t) : Security.Claims.t :=
  Security.Claims.mk (Some (Uuid.str (User.id u))) (Some (User.email u))
    (Some ((utcnow + Security.seven_days) `div` Security.microseconds)).
End Identity.

Module Flush.
(** The row that a committed flush of [new], loaded as [T], reads back. *)
Definition row (now : DateTime) (T new : Task.t) : Task.t :=
  if decide (new = T) then T else Task.set_updated_at now new.

(** What such a flush leaves of the store [db]: the constraints hold, the
    engine and the users are the same, and in the tasks table the row read
    back stands for [T]: nothing is written when no column changes; every
    other row is as before and the others keep their order; on an engine that
    updates in place the row is where [T] was. *)
Definition leaves (db : Store.t) (now : DateTime) (T new : Task.t)
    (db' : Store.t) : Prop :=
  Store.wf db'
  ∧ Store.engine db' = Store.engine db
  ∧ Store.users db' = Store.users db
  ∧ Store.tasks db'
    = (if decide (new = T) then Store.tasks db
       else Store.written (Store.engine db) T (row now T new) (Store.tasks db))
  ∧ Store.tasks db' ≡ₚ Updates.replaced T (row now T new) (Store.tasks db)
  ∧ (Engine.update_in_place (Store.engine db) = true →
     Store.tasks db' = Updates.replaced T (row now T new) (Store.tasks db))
  ∧ filter (λ r, Task.id r ≠ Task.id T) (Store.tasks db')
    = filter (λ r, Task.id r ≠ Task.id T) (Store.tasks db)
  ∧ row now T new ∈ Store.tasks db'.
End Flush.
(** * Properties *)

(** ** The parser of identifiers on examples *)

Example uuid_accepted_forms :
  Uuid.UUID "12345678-1234-5678-1234-567812345678"
  = Some 0x12345678123456781234567812345678
  ∧ Uuid.UUID "{12345678-1234-5678-1234-567812345678}"
    = Some 0x12345678123456781234567812345678
  ∧ Uuid.UUID "urn:uuid:12345678-1234-5678-1234-567812345678"
    = Some 0x12345678123456781234567812345678
  ∧ Uuid.UUID "12345678123456781234567812345678"
    = Some 0x12345678123456781234567812345678
  ∧ Uuid.UUID "ABCDEFAB-1234-5678-1234-567812345678"
    = Some 0xabcdefab123456781234567812345678
  ∧ Uuid.UUID "123456781234567812345678123456_8"
    = Some 0x1234567812345678123456781234568
  ∧ Uuid.UUID " 1234567812345678123456781234567"
    = Some 0x1234567812345678123456781234567
  ∧ Uuid.UUID "0x12345678-1234-5678-1234-5678123456"
    = Some 0x123456781234567812345678123456.
Proof. vm_compute. repeat split; reflexivity. Qed.

Example uuid_refused_forms :
  Uuid.UUID "not-a-uuid" = None
  ∧ Uuid.UUID "" = None
  ∧ Uuid.UUID "12345678-1234-5678-1234-56781234567" = None
  ∧ Uuid.UUID "12345678-1234-5678-1234-56781234567g" = None
  ∧ Uuid.UUID "12345678123456781234567812345__8" = None
  ∧ Uuid.UUID "1234567812345678123456781234567_" = None.
Proof. vm_compute. repeat split; reflexivity. Qed.

Example uuid_canonical_forms :
  Uuid.canonical "12345678-1234-5678-1234-567812345678" = true
  ∧ Uuid.canonical "12345678123456781234567812345678" = false
  ∧ Uuid.canonical "not-a-uuid" = false.
Proof. vm_compute. repeat split; reflexivity. Qed.

(** ** Lists of rows *)

Section filters.
Context {A : Type}.
Implicit Types (P Q : A → Prop) (l : list A).

Lemma filter_ext_elem_of P Q `{!∀ x, Decision (P x), !∀ x, Decision (Q x)} l :
  (∀ x, x ∈ l → (P x ↔ Q x)) → filter P l = filter Q l.
Proof.
  induction l as [|a l IH]; intros HPQ; [done|].
  rewrite !filter_cons.
  assert (P a ↔ Q a) by (apply HPQ; left).
  rewrite IH by (intros x Hx; apply HPQ; by right).
  destruct (decide (P a)), (decide (Q a)); tauto.
Qed.

Lemma filter_True l : filter (λ _ : A, True) l = l.
Proof.
  induction l as [|a l IH]; [done|]. by rewrite filter_cons_True, IH.
Qed.

Lemma list_intersection_filter `{!EqDecision A} l k :
  list_intersection l k = filter (.∈ k) l.
Proof.
  induction l as [|a l IH]; [done|]. simpl. rewrite filter_cons, IH.
  unfold decide_rel, decide. by destruct (list_elem_of_dec a k).
Qed.

Lemma filter_filter_intersection `{!EqDecision A}
    P Q `{!∀ x, Decision (P x), !∀ x, Decision (Q x)} l :
  filter Q (filter P l) = list_intersection (filter P l) (filter Q l).
Proof.
  rewrite list_intersection_filter. apply filter_ext_elem_of.
  intros x [_ Hx]%list_elem_of_filter. rewrite list_elem_of_filter. tauto.
Qed.

Lemma head_filter_None P `{!∀ x, Decision (P x)} l :
  head (filter P l) = None ↔ ∀ x, x ∈ l → ¬ P x.
Proof.
  rewrite head_None. split.
  - intros Hnil x Hx HP. by eapply filter_nil_not_elem_of.
  - intros Hno. induction l as [|a l IH]; [done|].
    rewrite filter_cons_False by (apply Hno; left).
    apply IH. intros x Hx. apply Hno. by right.
Qed.

Lemma head_filter_elem_of P `{!∀ x, Decision (P x)} l x :
  head (filter P l) = Some x → x ∈ l ∧ P x.
Proof.
  intros Hx%head_Some_elem_of%list_elem_of_filter. tauto.
Qed.
End filters.

(** ** The listing of an owner's tasks *)

Lemma filter_priority priority (l : list Task.t) :
  filter (Listing.priority_filter priority) l
  = if TaskService.truthy priority then filter (λ r, Task.priority r = priority) l else l.
Proof.
  destruct (TaskService.truthy priority) eqn:E.
  - apply list_filter_iff. intros r. unfold Listing.priority_filter. by rewrite E.
  - rewrite <- (filter_True l) at 2. apply list_filter_iff.
    intros r. unfold Listing.priority_filter. by rewrite E.
Qed.

Lemma filter_status status (l : list Task.t) :
  filter (Listing.status_filter status) l
  = if TaskService.truthy status then
      if decide (status = Some "completed") then
        filter (λ r, Task.completed r = Some true) l
      else if decide (status = Some "incomplete") then
        filter (λ r, Task.completed r = Some false) l
      else l
    else l.
Proof.
  destruct (TaskService.truthy status) eqn:E; repeat case_decide;
    first [ apply list_filter_iff
          | rewrite <- (filter_True l) at 2; apply list_filter_iff ];
    intros r; unfold Listing.status_filter; rewrite E; repeat case_decide; done.
Qed.

Lemma get_tasks_by_user_filters db user_id status priority :
  TaskService.get_tasks_by_user db user_id status priority
  = filter (Listing.priority_filter priority)
      (filter (Listing.status_filter status)
         (filter (λ r, Task.user_id r = user_id) (Store.tasks db))).
Proof. by rewrite filter_priority, filter_status. Qed.

Lemma get_tasks_by_user_unfiltered db user_id :
  TaskService.get_tasks_by_user db user_id None None
  = filter (λ r, Task.user_id r = user_id) (Store.tasks db).
Proof. done. Qed.
(** C7: the status filter ["completed"] selects exactly the owner's rows
    that are completed, in table order; the result under both filters is the
    intersection of the results under each filter alone; and an omitted filter
    changes nothing: without any filter all rows of the owner are returned,
    and with one filter omitted the result is that of the other filter applied
    to the owner's rows. *)
Theorem list_filters_select_and_intersect
    (db : Store.t) (owner : UUID) (status priority : option string) :
  TaskService.get_tasks_by_user db owner (Some "completed") None
    = filter (λ r, Task.user_id r = owner ∧ Task.completed r = Some true)
             (Store.tasks db)
  ∧ (∀ r, r ∈ TaskService.get_tasks_by_user db owner (Some "completed") None
          ↔ r ∈ Store.tasks db ∧ Task.user_id r = owner
            ∧ Task.completed r = Some true)
  ∧ TaskService.get_tasks_by_user db owner status priority
    = list_intersection
        (TaskService.get_tasks_by_user db owner status None)
        (TaskService.get_tasks_by_user db owner None priority)
  ∧ (∀ r, r ∈ TaskService.get_tasks_by_user db owner status priority
          ↔ r ∈ TaskService.get_tasks_by_user db owner status None
            ∧ r ∈ TaskService.get_tasks_by_user db owner None priority)
  ∧ TaskService.get_tasks_by_user db owner None None
    = filter (λ r, Task.user_id r = owner) (Store.tasks db)
  ∧ TaskService.get_tasks_by_user db owner status None
    = filter (Listing.status_filter status)
        (TaskService.get_tasks_by_user db owner None None)
  ∧ TaskService.get_tasks_by_user db owner None priority
    = filter (Listing.priority_filter priority)
        (TaskService.get_tasks_by_user db owner None None).
Proof.
  assert (Hcompleted :
    TaskService.get_tasks_by_user db owner (Some "completed") None
    = filter (λ r, Task.user_id r = owner ∧ Task.completed r = Some true)
             (Store.tasks db)).
  { unfold TaskService.get_tasks_by_user. simpl.
    rewrite list_filter_filter. apply list_filter_iff. tauto. }
  assert (Hboth :
    TaskService.get_tasks_by_user db owner status priority
    = list_intersection
        (TaskService.get_tasks_by_user db owner status None)
        (TaskService.get_tasks_by_user db owner None priority)).
  { rewrite (get_tasks_by_user_filters db owner status priority).
    rewrite (filter_filter_intersection (Listing.status_filter status)
               (Listing.priority_filter priority)).
    f_equal.
    - by rewrite filter_status.
    - by rewrite filter_priority. }
  split_and!.
  - exact Hcompleted.
  - intros r. rewrite Hcompleted, list_elem_of_filter. tauto.
  - exact Hboth.
  - intros r. rewrite Hboth. apply list_elem_of_intersection.
  - done.
  - by rewrite filter_status.
  - by rewrite filter_priority.
Qed.

(** C10: a status argument other than ["completed"] and ["incomplete"],
    the empty string included, is ignored: the result is the one obtained
    without a status filter, that is, the stored tasks of the owner, in table
    order, that pass the priority filter, whatever their completion. *)
Theorem unrecognised_status_is_ignored
    (db : Store.t) (owner : UUID) (status : string) (priority : option string) :
  status ≠ "completed" → status ≠ "incomplete" →
  TaskService.get_tasks_by_user db owner (Some status) priority
  = TaskService.get_tasks_by_user db owner None priority
  ∧ TaskService.get_tasks_by_user db owner (Some status) priority
    = filter (λ r, Task.user_id r = owner ∧ Listing.priority_filter priority r)
        (Store.tasks db)
  ∧ (∀ r, r ∈ TaskService.get_tasks_by_user db owner (Some status) priority
          ↔ r ∈ Store.tasks db ∧ Task.user_id r = owner
            ∧ (TaskService.truthy priority = true → Task.priority r = priority)).
Proof.
  intros Hc Hi.
  assert (TaskService.get_tasks_by_user db owner (Some status) priority
          = TaskService.get_tasks_by_user db owner None priority) as Hsame.
  { unfold TaskService.get_tasks_by_user.
    rewrite (decide_False (P := Some status = Some "completed")) by congruence.
    rewrite (decide_False (P := Some status = Some "incomplete")) by congruence.
    by destruct (TaskService.truthy (Some status)). }
  assert (TaskService.get_tasks_by_user db owner None priority
          = filter (λ r, Task.user_id r = owner
                         ∧ Listing.priority_filter priority r)
              (Store.tasks db)) as Hfilter.
  { rewrite get_tasks_by_user_filters, filter_status. cbn [TaskService.truthy].
    rewrite list_filter_filter. apply list_filter_iff. intros r. tauto. }
  split_and!; [done|by rewrite Hsame| ].
  intros r. rewrite Hsame, Hfilter, list_elem_of_filter.
  unfold Listing.priority_filter.
  destruct (TaskService.truthy priority); intuition congruence.
Qed.

Lemma unrecognised_status_is_ignored_witness :
  TaskService.get_tasks_by_user Sample.db Sample.alice (Some "all") (Some "low")
  = TaskService.get_tasks_by_user Sample.db Sample.alice None (Some "low")
  ∧ TaskService.get_tasks_by_user Sample.db Sample.alice (Some "all") (Some "low")
    = [Sample.t1]
  ∧ TaskService.get_tasks_by_user Sample.db Sample.alice (Some "") None
    = TaskService.get_tasks_by_user Sample.db Sample.alice None None
  ∧ TaskService.get_tasks_by_user Sample.db Sample.alice (Some "") None
    = [Sample.t1; Sample.t2].
Proof.
  destruct (unrecognised_status_is_ignored Sample.db Sample.alice "all" (Some "low"))
    as (H1 & H2 & _); [discriminate..|].
  destruct (unrecognised_status_is_ignored Sample.db Sample.alice "" None)
    as (H3 & H4 & _); [discriminate..|].
  split_and!; [exact H1| |exact H3| ].
  - rewrite H2. vm_compute. reflexivity.
  - rewrite H4. vm_compute. reflexivity.
Defined.

(** ** Lookups scoped by owner *)

Lemma NoDup_fmap_elem_of_eq {A B} (f : A → B) (l : list A) (x y : A) :
  NoDup (f <$> l) → x ∈ l → y ∈ l → f x = f y → x = y.
Proof.
  induction l as [|a l IH]; intros Hnd Hx Hy Hf; [by apply elem_of_nil in Hx|].
  rewrite fmap_cons in Hnd. apply NoDup_cons in Hnd as [Ha Hnd].
  apply elem_of_cons in Hx as [->|Hx]; apply elem_of_cons in Hy as [->|Hy].
  - done.
  - destruct Ha. rewrite Hf. apply list_elem_of_fmap. eauto.
  - destruct Ha. rewrite <- Hf. apply list_elem_of_fmap. eauto.
  - by apply IH.
Qed.

Lemma get_task_by_id_Some db user_id task_id r :
  TaskService.get_task_by_id db user_id task_id = Some r →
  r ∈ Store.tasks db ∧ Task.user_id r = user_id ∧ Task.id r = task_id.
Proof.
  unfold TaskService.get_task_by_id. intros H%head_filter_elem_of. tauto.
Qed.

Lemma get_task_by_id_absent db user_id task_id :
  task_id ∉ (Task.id <$> Store.tasks db) →
  TaskService.get_task_by_id db user_id task_id = None.
Proof.
  intros Habs. apply head_filter_None. intros r Hr [_ Hid].
  apply Habs, list_elem_of_fmap. eauto.
Qed.

Lemma get_task_by_id_foreign db (A B : UUID) T :
  Store.tasks_pk db → T ∈ Store.tasks db → Task.user_id T = A → A ≠ B →
  TaskService.get_task_by_id db B (Task.id T) = None.
Proof.
  intros Hpk HT HA HAB. apply head_filter_None. intros r Hr [Hu Hid].
  assert (r = T) as -> by (by eapply NoDup_fmap_elem_of_eq).
  congruence.
Qed.

Lemma get_task_by_id_own db T :
  Store.tasks_pk db → T ∈ Store.tasks db →
  TaskService.get_task_by_id db (Task.user_id T) (Task.id T) = Some T.
Proof.
  intros Hpk HT.
  destruct (TaskService.get_task_by_id db (Task.user_id T) (Task.id T)) as [r|] eqn:E.
  - apply get_task_by_id_Some in E as (Hr & _ & Hid).
    f_equal. by eapply NoDup_fmap_elem_of_eq.
  - unfold TaskService.get_task_by_id in E.
    by destruct (proj1 (head_filter_None _ _) E T HT).
Qed.

(** The four operations on a lookup that finds nothing. *)
Lemma not_found_leaves_store db now user_id task_id fields c :
  TaskService.get_task_by_id db user_id task_id = None →
  TaskService.update_task db now user_id task_id fields = Committed (db, None)
  ∧ TaskService.delete_task db user_id task_id = (db, false)
  ∧ TaskService.toggle_task_completion db now user_id task_id c = Committed (db, None).
Proof.
  intros H.
  unfold TaskService.update_task, TaskService.delete_task,
    TaskService.toggle_task_completion.
  by rewrite H.
Qed.

(** C1: a task of owner [A] asked for under another owner [B] is answered
    exactly like a task id that no row has: [get_task_by_id] gives [None],
    [update_task] and [toggle_task_completion] give [None], [delete_task]
    gives [false], and the store that comes back is the store that went in. *)
Theorem foreign_task_is_not_found
    (db : Store.t) (A B : UUID) (T : Task.t) (absent : UUID)
    (now : DateTime) (fields : TaskUpdate.t) (c : bool) :
  Store.tasks_pk db →
  T ∈ Store.tasks db →
  Task.user_id T = A →
  A ≠ B →
  absent ∉ (Task.id <$> Store.tasks db) →
  (TaskService.get_task_by_id db B (Task.id T) = None
   ∧ TaskService.get_task_by_id db B absent = None)
  ∧ (TaskService.update_task db now B (Task.id T) fields = Committed (db, None)
     ∧ TaskService.update_task db now B absent fields = Committed (db, None))
  ∧ (TaskService.delete_task db B (Task.id T) = (db, false)
     ∧ TaskService.delete_task db B absent = (db, false))
  ∧ (TaskService.toggle_task_completion db now B (Task.id T) c = Committed (db, None)
     ∧ TaskService.toggle_task_completion db now B absent c = Committed (db, None)).
Proof.
  intros Hpk HT HA HAB Habs.
  pose proof (get_task_by_id_foreign db A B T Hpk HT HA HAB) as Hforeign.
  pose proof (get_task_by_id_absent db B absent Habs) as Habsent.
  destruct (not_found_leaves_store db now B (Task.id T) fields c Hforeign)
    as (? & ? & ?).
  destruct (not_found_leaves_store db now B absent fields c Habsent)
    as (? & ? & ?).
  done.
Qed.

Lemma foreign_task_is_not_found_witness :
  (TaskService.get_task_by_id Sample.db Sample.bob 101 = None
   ∧ TaskService.get_task_by_id Sample.db Sample.bob 999 = None)
  ∧ (TaskService.update_task Sample.db 50 Sample.bob 101
       (TaskUpdate.mk (Some (Some "mine now")) None None None None)
     = Committed (Sample.db, None)
     ∧ TaskService.update_task Sample.db 50 Sample.bob 999
         (TaskUpdate.mk (Some (Some "mine now")) None None None None)
       = Committed (Sample.db, None))
  ∧ (TaskService.delete_task Sample.db Sample.bob 101 = (Sample.db, false)
     ∧ TaskService.delete_task Sample.db Sample.bob 999 = (Sample.db, false))
  ∧ (TaskService.toggle_task_completion Sample.db 50 Sample.bob 101 true
     = Committed (Sample.db, None)
     ∧ TaskService.toggle_task_completion Sample.db 50 Sample.bob 999 true
       = Committed (Sample.db, None)).
Proof.
  apply (foreign_task_is_not_found Sample.db Sample.alice Sample.bob Sample.t1 999
           50 (TaskUpdate.mk (Some (Some "mine now")) None None None None) true).
  - unfold Store.tasks_pk. compute_done.
  - compute_done.
  - reflexivity.
  - discriminate.
  - compute_done.
Defined.

(** ** Partial updates *)

Lemma foldl_setattr d r :
  foldl TaskService.setattr (TaskObj.loaded r) (TaskUpdate.dict_exclude_unset d)
  = TaskObj.mk (Updates.merged d r) (TaskUpdate.tags d).
Proof.
  destruct d as [[?|] [?|] [?|] [?|] [?|]], r; reflexivity.
Qed.

Lemma merged_fits d r :
  TaskUpdate.valid d → Task.fits r → Task.fits (Updates.merged d r).
Proof.
  intros [Htitle Hpriority] [Hrt Hrp]. split; simpl.
  - destruct (TaskUpdate.title d) as [[s|]|]; simpl; [lia|done..].
  - destruct (TaskUpdate.priority d) as [[p|]|]; simpl; [|done..].
    destruct Hpriority as [->|[->| ->]]; simpl; lia.
Qed.

Lemma merged_not_null d r :
  TaskUpdate.title d ≠ Some None → Task.not_null r →
  Task.not_null (Updates.merged d r).
Proof.
  unfold Task.not_null. simpl. intros Hd Hr.
  by destruct (TaskUpdate.title d) as [[s|]|].
Qed.

Lemma replaced_same old tasks :
  NoDup (Task.id <$> tasks) → old ∈ tasks → Updates.replaced old old tasks = tasks.
Proof.
  intros Hpk Hold. unfold Updates.replaced.
  rewrite <- (list_fmap_id tasks) at 2. apply list_fmap_ext.
  intros i r Hr. case_decide; [|done]. simpl.
  symmetry. eapply NoDup_fmap_elem_of_eq; eauto.
  apply list_elem_of_lookup; eauto.
Qed.

Lemma replaced_ids old new tasks :
  Task.id new = Task.id old →
  Task.id <$> Updates.replaced old new tasks = Task.id <$> tasks.
Proof.
  intros Hid. unfold Updates.replaced. rewrite <- list_fmap_compose.
  apply list_fmap_ext. intros i r _. simpl. case_decide; congruence.
Qed.

Lemma replaced_Forall (P : Task.t → Prop) old new tasks :
  P new → Forall P tasks → Forall P (Updates.replaced old new tasks).
Proof.
  intros Hnew Hall. unfold Updates.replaced. apply Forall_fmap.
  eapply Forall_impl; [exact Hall|]. intros r Hr. simpl. by case_decide.
Qed.

Lemma filter_id_replaced old new tasks :
  Task.id new = Task.id old →
  filter (λ r, Task.id r = Task.id old) (Updates.replaced old new tasks)
  = (λ _, new) <$> filter (λ r, Task.id r = Task.id old) tasks.
Proof.
  intros Hid. unfold Updates.replaced.
  induction tasks as [|a l IH]; [done|].
  rewrite fmap_cons, !filter_cons, IH.
  destruct (decide (Task.id a = Task.id old)) as [Ha|Ha].
  - by rewrite decide_True by done.
  - by rewrite decide_False by done.
Qed.

(** The table after an UPDATE, on either kind of engine. *)
Lemma written_in_place eng old new tasks :
  Engine.update_in_place eng = true →
  Store.written eng old new tasks = Updates.replaced old new tasks.
Proof. unfold Store.written. by intros ->. Qed.

Lemma written_Permutation eng old new tasks :
  Store.written eng old new tasks ≡ₚ Updates.replaced old new tasks.
Proof.
  unfold Store.written, Updates.replaced.
  destruct (Engine.update_in_place eng); [done|].
  induction tasks as [|a l IH]; [done|].
  rewrite fmap_cons, !filter_cons.
  destruct (decide (Task.id a = Task.id old)) as [Ha|Ha].
  - rewrite decide_False by (by intros []). rewrite fmap_cons.
    by rewrite <- Permutation_middle, IH.
  - rewrite decide_True by done. by rewrite <- app_comm_cons, IH.
Qed.

Lemma written_ids eng old new tasks :
  Task.id new = Task.id old →
  Task.id <$> Store.written eng old new tasks ≡ₚ Task.id <$> tasks.
Proof.
  intros Hid. by rewrite written_Permutation, replaced_ids.
Qed.

Lemma written_Forall (P : Task.t → Prop) eng old new tasks :
  P new → Forall P tasks → Forall P (Store.written eng old new tasks).
Proof.
  intros Hnew Hall. rewrite written_Permutation. by apply replaced_Forall.
Qed.

Lemma elem_of_written eng old new tasks :
  old ∈ tasks → new ∈ Store.written eng old new tasks.
Proof.
  intros Hold. rewrite written_Permutation.
  apply list_elem_of_fmap. exists old. by rewrite decide_True.
Qed.

Lemma filter_id_written eng old new tasks :
  Task.id new = Task.id old →
  filter (λ r, Task.id r = Task.id old) (Store.written eng old new tasks)
  = (λ _, new) <$> filter (λ r, Task.id r = Task.id old) tasks.
Proof.
  intros Hid. unfold Store.written.
  destruct (Engine.update_in_place eng); [by apply filter_id_replaced|].
  rewrite filter_app.
  assert (filter (λ r, Task.id r = Task.id old)
            (filter (λ r, Task.id r ≠ Task.id old) tasks) = []) as ->.
  { apply head_None, head_filter_None.
    intros r [Hne _]%list_elem_of_filter. done. }
  cbn [app].
  induction (filter (λ r, Task.id r = Task.id old) tasks) as [|a l IH]; [done|].
  by rewrite fmap_cons, filter_cons_True, IH.
Qed.

(** Every row but the written one is as before, in the order it had. *)
Lemma filter_other_written eng old new tasks :
  Task.id new = Task.id old →
  filter (λ r, Task.id r ≠ Task.id old) (Store.written eng old new tasks)
  = filter (λ r, Task.id r ≠ Task.id old) tasks.
Proof.
  intros Hid. unfold Store.written.
  destruct (Engine.update_in_place eng).
  - induction tasks as [|a l IH]; [done|].
    rewrite fmap_cons, !filter_cons, IH.
    destruct (decide (Task.id a = Task.id old)) as [Ha|Ha].
    + rewrite !decide_False; [done|intros Hn; by apply Hn..].
    + by rewrite !decide_True.
  - rewrite filter_app.
    assert (filter (λ r, Task.id r ≠ Task.id old)
              ((λ _, new) <$> filter (λ r, Task.id r = Task.id old) tasks) = [])
      as ->.
    { apply head_None, head_filter_None.
      intros r (x & -> & _)%list_elem_of_fmap Hne. done. }
    rewrite app_nil_r, list_filter_filter.
    apply list_filter_iff. intros r. tauto.
Qed.

Lemma refresh_written db old new :
  old ∈ Store.tasks db → Task.id new = Task.id old →
  Store.refresh
    (Store.mk (Store.engine db) (Store.users db)
       (Store.written (Store.engine db) old new (Store.tasks db))) old
  = Some new.
Proof.
  intros Hold Hid. unfold Store.refresh. simpl.
  rewrite filter_id_written by done.
  destruct (filter (λ r, Task.id r = Task.id old) (Store.tasks db)) as [|a l] eqn:E.
  - exfalso. revert Hold. by apply (filter_nil_not_elem_of _ _ _ E).
  - done.
Qed.

Lemma refresh_unchanged db old :
  Store.tasks_pk db → old ∈ Store.tasks db → Store.refresh db old = Some old.
Proof.
  intros Hpk Hold. unfold Store.refresh.
  destruct (head (filter (λ r, Task.id r = Task.id old) (Store.tasks db)))
    as [r|] eqn:E.
  - apply head_filter_elem_of in E as [Hr Hid].
    f_equal. by eapply NoDup_fmap_elem_of_eq.
  - by destruct (proj1 (head_filter_None _ _) E old Hold).
Qed.

(** The flush and the refresh of a loaded row, in closed form. *)
Lemma commit_refresh_loaded db now old task :
  Store.tasks_pk db → old ∈ Store.tasks db →
  Task.id (TaskObj.row task) = Task.id old →
  TaskService.commit_refresh db now old task
  = if decide (TaskObj.row task = old) then
      Committed (db, Some (TaskObj.mk old (TaskObj.tags task)))
    else if decide (Engine.string_lengths (Store.engine db) = true
                    ∧ ¬ Task.fits (TaskObj.row task))
    then Rejected DataError
    else if decide (¬ Task.not_null (TaskObj.row task)) then Rejected IntegrityError
    else
      Committed
        (Store.mk (Store.engine db) (Store.users db)
           (Store.written (Store.engine db) old
              (Task.set_updated_at now (TaskObj.row task)) (Store.tasks db)),
         Some (TaskObj.mk (Task.set_updated_at now (TaskObj.row task))
                 (TaskObj.tags task))).
Proof.
  intros Hpk Hold Hid. unfold TaskService.commit_refresh, Store.update_row.
  repeat case_decide; try done.
  - by rewrite refresh_unchanged.
  - by rewrite refresh_written.
Qed.

Lemma wf_row db r :
  Store.wf db → r ∈ Store.tasks db →
  Store.tasks_pk db ∧ Task.fits r ∧ Task.not_null r.
Proof.
  intros (_ & _ & _ & Hpk & Hfit & Hnn & _) Hr.
  split_and!; [done| |].
  - by eapply Forall_forall in Hfit.
  - by eapply Forall_forall in Hnn.
Qed.

(** C6 (amended): for a stored task of the owner and a payload of the
    request schema that does not set [title] to null, [update_task] succeeds;
    each of [title], [description], [completed] and [priority] takes the value
    the payload provides and keeps its prior value when the payload does not
    provide it; [id], [user_id] and [created_at] never change; a provided
    [tags] lands on the returned instance only; [updated_at] becomes the clock
    reading when the value of some stored column changes and keeps its prior
    value otherwise; in the store the row is replaced by the returned one and
    no other row changes: the table is the one before when no column changes,
    and otherwise the one that the engine leaves after writing the row, which
    on an engine that updates in place has the row at its old place. *)
Theorem update_task_sets_provided_fields
    (db : Store.t) (now : DateTime) (owner : UUID) (T : Task.t) (d : TaskUpdate.t) :
  Store.wf db →
  T ∈ Store.tasks db →
  Task.user_id T = owner →
  TaskUpdate.valid d →
  TaskUpdate.title d ≠ Some None →
  ∃ db' task,
    TaskService.update_task db now owner (Task.id T) d = Committed (db', Some task)
    ∧ Task.title (TaskObj.row task) = default (Task.title T) (TaskUpdate.title d)
    ∧ Task.description (TaskObj.row task)
      = default (Task.description T) (TaskUpdate.description d)
    ∧ Task.completed (TaskObj.row task)
      = default (Task.completed T) (TaskUpdate.completed d)
    ∧ Task.priority (TaskObj.row task)
      = default (Task.priority T) (TaskUpdate.priority d)
    ∧ Task.id (TaskObj.row task) = Task.id T
    ∧ Task.user_id (TaskObj.row task) = Task.user_id T
    ∧ Task.created_at (TaskObj.row task) = Task.created_at T
    ∧ Task.updated_at (TaskObj.row task)
      = (if decide (Updates.merged d T = T) then Task.updated_at T else now)
    ∧ TaskObj.tags task = TaskUpdate.tags d
    ∧ Store.engine db' = Store.engine db
    ∧ Store.users db' = Store.users db
    ∧ Store.tasks db'
      = (if decide (Updates.merged d T = T) then Store.tasks db
         else Store.written (Store.engine db) T (TaskObj.row task) (Store.tasks db))
    ∧ Store.tasks db' ≡ₚ Updates.replaced T (TaskObj.row task) (Store.tasks db)
    ∧ (Engine.update_in_place (Store.engine db) = true
       ∨ Updates.merged d T = T →
       Store.tasks db' = Updates.replaced T (TaskObj.row task) (Store.tasks db)).
Proof.
  intros Hwf HT <- Hvalid Htitle.
  destruct (wf_row db T Hwf HT) as (Hpk & Hfits & Hnn).
  unfold TaskService.update_task.
  rewrite get_task_by_id_own, foldl_setattr by done.
  rewrite commit_refresh_loaded by done. simpl.
  destruct (decide (Updates.merged d T = T)) as [Hsame|Hdiff].
  - eexists _, _. split; [done|]. simpl.
    rewrite replaced_same by done.
    split_and!; try done.
    + by rewrite <- Hsame at 1.
    + by rewrite <- Hsame at 1.
    + by rewrite <- Hsame at 1.
    + by rewrite <- Hsame at 1.
  - rewrite decide_False by (intros [_ Hn]; by apply Hn, merged_fits).
    rewrite decide_False by (intros Hn; by apply Hn, merged_not_null).
    eexists _, _. split; [done|]. simpl. split_and!; try done.
    + apply written_Permutation.
    + intros [Hip|Hsame]; [by apply written_in_place|done].
Qed.

Lemma sample_db_wf : Store.wf Sample.db.
Proof.
  unfold Store.wf, Store.users_pk, Store.email_unique, Store.users_fit,
    Store.tasks_pk, Store.tasks_fit, Store.title_not_null, Store.owner_fk.
  split_and!; compute_done.
Qed.

Lemma update_task_sets_provided_fields_witness :
  ∃ db' task,
    TaskService.update_task Sample.db 1000 Sample.alice 101
      (TaskUpdate.mk (Some (Some "buy oat milk")) None None None None)
    = Committed (db', Some task)
    ∧ Task.title (TaskObj.row task) = Some "buy oat milk"
    ∧ Task.description (TaskObj.row task) = None
    ∧ Task.completed (TaskObj.row task) = Some false
    ∧ Task.priority (TaskObj.row task) = Some "low"
    ∧ Task.id (TaskObj.row task) = 101
    ∧ Task.user_id (TaskObj.row task) = Sample.alice
    ∧ Task.created_at (TaskObj.row task) = 20
    ∧ Task.updated_at (TaskObj.row task) = 1000
    ∧ TaskObj.tags task = None
    ∧ Store.users db' = Store.users Sample.db
    ∧ Store.tasks db'
      = Updates.replaced Sample.t1 (TaskObj.row task) (Store.tasks Sample.db).
Proof.
  destruct (update_task_sets_provided_fields Sample.db 1000 Sample.alice Sample.t1
              (TaskUpdate.mk (Some (Some "buy oat milk")) None None None None))
    as (db' & task & Hupd & Ht & Hd & Hc & Hp & Hid & Hu & Hcr & Hup & Htags
        & _ & Husers & _ & _ & Hplace).
  - exact sample_db_wf.
  - compute_done.
  - reflexivity.
  - unfold TaskUpdate.valid. simpl. lia.
  - discriminate.
  - exists db', task. split_and!; try done. apply Hplace. by left.
Defined.

(** C6 as stated fails: an update that provides no field succeeds and
    leaves [updated_at] at its prior value, however late the clock is. *)
Lemma update_without_change_keeps_updated_at :
  ¬ Updates.updated_at_advances Sample.db 1000 Sample.alice Sample.t1
      Updates.no_fields.
Proof.
  intros H.
  specialize (H Sample.db (TaskObj.mk Sample.t1 None) eq_refl).
  simpl in H. lia.
Qed.

(** The same happens when the payload repeats the stored value, or carries
    only [tags]. *)
Example update_same_title_keeps_updated_at :
  TaskService.update_task Sample.db 1000 Sample.alice 101
    (TaskUpdate.mk (Some (Some "buy milk")) None None None None)
  = Committed (Sample.db, Some (TaskObj.mk Sample.t1 None)).
Proof. reflexivity. Qed.

Example update_tags_only_keeps_updated_at :
  TaskService.update_task Sample.db 1000 Sample.alice 101
    (TaskUpdate.mk None None None None (Some (Some ["home"])))
  = Committed (Sample.db, Some (TaskObj.mk Sample.t1 (Some (Some ["home"])))).
Proof. reflexivity. Qed.

(** A payload with an explicit null title passes the request schema and is
    refused by the column. *)
Example update_null_title_is_refused :
  TaskUpdate.valid (TaskUpdate.mk (Some None) None None None None)
  ∧ TaskService.update_task Sample.db 1000 Sample.alice 101
      (TaskUpdate.mk (Some None) None None None None)
    = Rejected IntegrityError.
Proof. split; [done|reflexivity]. Qed.

(** [toggle_task_completion] obeys the same rule. *)
Example toggle_same_value_keeps_updated_at :
  TaskService.toggle_task_completion Sample.db 1000 Sample.alice 101 false
  = Committed (Sample.db, Some (TaskObj.mk Sample.t1 None))
  ∧ TaskService.toggle_task_completion Sample.db 1000 Sample.alice 101 true
    = Committed
        (Store.mk Engine.sqlite [Sample.u_alice; Sample.u_bob]
           [Task.mk 101 Sample.alice (Some "buy milk") None (Some true) (Some "low")
              20 1000; Sample.t2; Sample.t3],
         Some (TaskObj.mk
                 (Task.mk 101 Sample.alice (Some "buy milk") None (Some true)
                    (Some "low") 20 1000) None)).
Proof. split; reflexivity. Qed.


(** On PostgreSQL the same call leaves the row after the rows that were not
    touched. *)
Example toggle_on_postgresql_moves_the_row :
  TaskService.toggle_task_completion Sample.pg 1000 Sample.alice 101 true
  = Committed
      (Store.mk Engine.postgresql [Sample.u_alice; Sample.u_bob]
         [Sample.t2; Sample.t3;
          Task.mk 101 Sample.alice (Some "buy milk") None (Some true) (Some "low")
            20 1000],
       Some (TaskObj.mk
               (Task.mk 101 Sample.alice (Some "buy milk") None (Some true)
                  (Some "low") 20 1000) None)).
Proof. reflexivity. Qed.
(** ** Tags *)

Lemma merged_set_tags tags d r :
  Updates.merged (TaskUpdate.set_tags tags d) r = Updates.merged d r.
Proof. done. Qed.

Lemma persisted_commit_refresh db now old row tags1 tags2 :
  Updates.persisted (TaskService.commit_refresh db now old (TaskObj.mk row tags1))
  = Updates.persisted (TaskService.commit_refresh db now old (TaskObj.mk row tags2)).
Proof.
  unfold TaskService.commit_refresh. simpl.
  destruct (Store.update_row db now old row) as [db'|]; [|done].
  by destruct (Store.refresh db' old).
Qed.

Lemma loaded_has_default_tags r data :
  task_from_attributes (TaskObj.loaded r) = Some data →
  Schema.Task.tags data = Some [].
Proof.
  unfold task_from_attributes. simpl. intros H.
  repeat case_match; by simplify_eq.
Qed.

Lemma tasks_response_default_tags tasks resp s s' :
  Api.tasks_response tasks s = (Api.Return resp, s') →
  Forall (λ data, Schema.Task.tags data = Some []) (Schema.TasksResponse.data resp).
Proof.
  unfold Api.tasks_response. intros H.
  destruct (mapM _ tasks) as [datas|] eqn:E; [|done].
  inversion H; subst; clear H. simpl.
  apply mapM_Some in E.
  induction E as [|r data l k Hr _ IH]; constructor; [|done].
  by eapply loaded_has_default_tags.
Qed.

(** C9: the request schemas carry [tags] ([TaskCreate.tags],
    [TaskUpdate.tags]) and the stored record [Task.t] has no such field: what
    [create_task] stores and returns does not depend on the submitted tags,
    what [update_task] stores does not depend on them either, and every task
    that the read endpoints return carries the schema default, the empty
    list. *)
Theorem tags_are_not_persisted :
  (∀ db new_id now owner data tags,
     TaskService.create_task db new_id now owner (TaskCreate.set_tags tags data)
     = TaskService.create_task db new_id now owner data)
  ∧ (∀ db now owner task_id d tags,
       Updates.persisted
         (TaskService.update_task db now owner task_id (TaskUpdate.set_tags tags d))
       = Updates.persisted (TaskService.update_task db now owner task_id d))
  ∧ (∀ db user_id task_id token_data resp s',
       Api.get_task user_id task_id token_data (Api.open_session db)
       = (Api.Return resp, s') →
       Schema.Task.tags (Schema.TaskResponse.data resp) = Some [])
  ∧ (∀ db user_id status priority token_data resp s',
       Api.get_tasks user_id status priority token_data (Api.open_session db)
       = (Api.Return resp, s') →
       Forall (λ data, Schema.Task.tags data = Some []) (Schema.TasksResponse.data resp)).
Proof.
  split_and!.
  - done.
  - intros db now owner task_id d tags. unfold TaskService.update_task.
    destruct (TaskService.get_task_by_id db owner task_id) as [old|]; [|done].
    rewrite !foldl_setattr, merged_set_tags.
    apply persisted_commit_refresh.
  - intros db user_id task_id token_data resp s'.
    unfold Api.get_task, Api.check_subject, Api.parse_user_task.
    case_decide; [done|].
    destruct (Uuid.UUID user_id) as [u|]; [|done].
    destruct (Uuid.UUID task_id) as [t|]; [|done].
    unfold mbind, Api.M_bind, Api.storage, mret, Api.M_ret. simpl.
    destruct (TaskService.get_task_by_id db u t) as [r|]; [|done].
    unfold Api.task_response.
    destruct (task_from_attributes (TaskObj.loaded r)) as [data|] eqn:E; [|done].
    intros Hret. inversion Hret; subst. simpl.
    by eapply loaded_has_default_tags.
  - intros db user_id status priority token_data resp s'.
    unfold Api.get_tasks, Api.check_subject, Api.parse_user.
    case_decide; [done|].
    destruct (Uuid.UUID user_id) as [u|]; [|done].
    unfold mbind, Api.M_bind, Api.storage, mret, Api.M_ret. simpl.
    apply tasks_response_default_tags.
Qed.

Lemma tags_are_not_persisted_witness :
  ∃ resp s',
    Api.get_task Sample.alice_id Sample.t1_id (Sample.claims_of Sample.alice_id)
      (Api.open_session Sample.db)
    = (Api.Return resp, s')
    ∧ Schema.Task.title (Schema.TaskResponse.data resp) = "buy milk"
    ∧ Schema.Task.tags (Schema.TaskResponse.data resp) = Some [].
Proof.
  destruct tags_are_not_persisted as (_ & _ & Hread & _).
  eexists _, _. split; [vm_compute; reflexivity|]. split; [reflexivity|].
  eapply (Hread Sample.db Sample.alice_id Sample.t1_id
            (Sample.claims_of Sample.alice_id)).
  vm_compute. reflexivity.
Defined.

(** A task created with tags, then read: the tags are gone. *)
Example tags_lost_between_create_and_read :
  ∃ s1 created,
    Api.create_task Sample.env Sample.alice_id
      (TaskCreate.mk "call mum" None false None (Some ["family"; "weekly"]))
      (Sample.claims_of Sample.alice_id) (Api.open_session Sample.db)
    = (Api.Return created, s1)
    ∧ Schema.Task.tags (Schema.TaskResponse.data created) = Some []
    ∧ Schema.Task.priority (Schema.TaskResponse.data created) = Some "medium"
    ∧ ∃ s2 read,
        Api.get_task Sample.alice_id "00000000-0000-0000-0000-00000000022b"
          (Sample.claims_of Sample.alice_id) (Api.open_session (Api.db s1))
        = (Api.Return read, s2)
        ∧ Schema.Task.title (Schema.TaskResponse.data read) = "call mum"
        ∧ Schema.Task.tags (Schema.TaskResponse.data read) = Some [].
Proof.
  eexists _, _. split; [vm_compute; reflexivity|].
  split; [reflexivity|]. split; [reflexivity|].
  eexists _, _. split; [vm_compute; reflexivity|]. split; reflexivity.
Qed.

(** An update with tags answers with them, and a later read does not. *)
Example tags_lost_between_update_and_read :
  ∃ s1 updated,
    Api.update_task Sample.env Sample.alice_id Sample.t1_id
      (TaskUpdate.mk None None None (Some (Some "high")) (Some (Some ["urgent"])))
      (Sample.claims_of Sample.alice_id) (Api.open_session Sample.db)
    = (Api.Return updated, s1)
    ∧ Schema.Task.tags (Schema.TaskResponse.data updated) = Some ["urgent"]
    ∧ ∃ s2 read,
        Api.get_task Sample.alice_id Sample.t1_id
          (Sample.claims_of Sample.alice_id) (Api.open_session (Api.db s1))
        = (Api.Return read, s2)
        ∧ Schema.Task.priority (Schema.TaskResponse.data read) = Some "high"
        ∧ Schema.Task.tags (Schema.TaskResponse.data read) = Some [].
Proof.
  eexists _, _. split; [vm_compute; reflexivity|].
  split; [reflexivity|].
  eexists _, _. split; [vm_compute; reflexivity|]. split; reflexivity.
Qed.

(** ** The constraints of the schema are invariants of the operations *)

Lemma NoDup_fmap_filter {A B} (f : A → B) (P : A → Prop)
    `{!∀ x, Decision (P x)} (l : list A) :
  NoDup (f <$> l) → NoDup (f <$> filter P l).
Proof.
  induction l as [|a l IH]; [done|].
  rewrite fmap_cons, NoDup_cons, filter_cons. intros [Ha Hl].
  case_decide; [|by apply IH].
  rewrite fmap_cons. apply NoDup_cons. split; [|by apply IH].
  intros (x & Hfx & Hx%list_elem_of_filter)%list_elem_of_fmap.
  apply Ha, list_elem_of_fmap. exists x. tauto.
Qed.

Lemma Forall_filter_weaken {A} (P Q : A → Prop) `{!∀ x, Decision (P x)} (l : list A) :
  Forall Q l → Forall Q (filter P l).
Proof.
  rewrite !Forall_forall. intros Hall x [_ Hx]%list_elem_of_filter. by apply Hall.
Qed.

Lemma empty_wf engine : Store.wf (Store.empty engine).
Proof.
  unfold Store.wf, Store.users_pk, Store.email_unique, Store.users_fit,
    Store.tasks_pk, Store.tasks_fit, Store.title_not_null, Store.owner_fk.
  simpl. split_and!; constructor.
Qed.

Lemma insert_user_wf db u db' :
  Store.wf db → User.fits u →
  Store.insert_user db u = Committed db' → Store.wf db'.
Proof.
  intros (Hupk & Hun & Hufit & Htpk & Htfit & Hnn & Hfk) Hfit.
  unfold Store.insert_user. repeat case_decide; intros Heq; simplify_eq.
  unfold Store.wf, Store.users_pk, Store.email_unique, Store.users_fit,
    Store.tasks_pk, Store.tasks_fit, Store.title_not_null, Store.owner_fk in *.
  simpl. rewrite !fmap_app. simpl.
  split_and!; try done.
  - apply NoDup_app. split_and!; [done| |apply NoDup_singleton].
    by intros x Hx ->%list_elem_of_singleton.
  - apply NoDup_app. split_and!; [done| |apply NoDup_singleton].
    by intros x Hx ->%list_elem_of_singleton.
  - apply Forall_app. split; [done|]. by apply Forall_singleton.
  - eapply Forall_impl; [exact Hfk|]. intros r Hr. simpl in *.
    apply elem_of_app. by left.
Qed.

Lemma insert_task_wf db r db' :
  Store.wf db → Task.fits r → Task.user_id r ∈ (User.id <$> Store.users db) →
  Store.insert_task db r = Committed db' → Store.wf db'.
Proof.
  intros (Hupk & Hun & Hufit & Htpk & Htfit & Hnn & Hfk) Hfit Howner.
  unfold Store.insert_task. repeat case_decide; intros Heq; simplify_eq.
  unfold Store.wf, Store.users_pk, Store.email_unique, Store.users_fit,
    Store.tasks_pk, Store.tasks_fit, Store.title_not_null, Store.owner_fk in *.
  simpl. rewrite !fmap_app. simpl.
  split_and!; try done.
  - apply NoDup_app. split_and!; [done| |apply NoDup_singleton].
    by intros x Hx ->%list_elem_of_singleton.
  - apply Forall_app. split; [done|]. by apply Forall_singleton.
  - apply Forall_app. split; [done|]. by apply Forall_singleton.
  - apply Forall_app. split; [done|]. by apply Forall_singleton.
Qed.

Lemma update_row_wf db now old new db' :
  Store.wf db → old ∈ Store.tasks db →
  Task.id new = Task.id old → Task.user_id new = Task.user_id old →
  Task.fits new →
  Store.update_row db now old new = Committed db' → Store.wf db'.
Proof.
  intros Hwf Hold Hid Huid Hfit. unfold Store.update_row.
  repeat case_decide; intros Heq; simplify_eq; [done|].
  destruct Hwf as (Hupk & Hun & Hufit & Htpk & Htfit & Hnn & Hfk).
  unfold Store.wf, Store.users_pk, Store.email_unique, Store.users_fit,
    Store.tasks_pk, Store.tasks_fit, Store.title_not_null, Store.owner_fk in *.
  simpl. split_and!; try done.
  - by rewrite written_ids.
  - by apply written_Forall.
  - apply written_Forall; [|done]. change (Task.not_null new).
    destruct (decide (Task.not_null new)); [done|tauto].
  - apply written_Forall; [|done]. simpl. rewrite Huid.
    by eapply Forall_forall in Hfk.
Qed.

Lemma update_row_tasks_pk db now old new db' :
  Store.tasks_pk db → Task.id new = Task.id old →
  Store.update_row db now old new = Committed db' → Store.tasks_pk db'.
Proof.
  intros Hpk Hid. unfold Store.update_row.
  repeat case_decide; intros Heq; simplify_eq; [done|].
  unfold Store.tasks_pk in *. simpl. by rewrite written_ids.
Qed.

Lemma delete_row_wf db old : Store.wf db → Store.wf (Store.delete_row db old).
Proof.
  intros (Hupk & Hun & Hufit & Htpk & Htfit & Hnn & Hfk).
  unfold Store.wf, Store.users_pk, Store.email_unique, Store.users_fit,
    Store.tasks_pk, Store.tasks_fit, Store.title_not_null, Store.owner_fk in *.
  simpl. split_and!; try done.
  - by apply NoDup_fmap_filter.
  - by apply Forall_filter_weaken.
  - by apply Forall_filter_weaken.
  - by apply Forall_filter_weaken.
Qed.

Lemma commit_refresh_wf db now old task db' result :
  Store.wf db → old ∈ Store.tasks db →
  Task.id (TaskObj.row task) = Task.id old →
  Task.user_id (TaskObj.row task) = Task.user_id old →
  Task.fits (TaskObj.row task) →
  TaskService.commit_refresh db now old task = Committed (db', result) →
  Store.wf db'.
Proof.
  intros Hwf Hold Hid Huid Hfit. unfold TaskService.commit_refresh.
  destruct (Store.update_row db now old (TaskObj.row task)) as [db1|] eqn:E; [|done].
  destruct (Store.refresh db1 old); [|done].
  intros Heq; simplify_eq. by eapply update_row_wf.
Qed.

Lemma commit_refresh_tasks_pk db now old task db' result :
  Store.tasks_pk db → Task.id (TaskObj.row task) = Task.id old →
  TaskService.commit_refresh db now old task = Committed (db', result) →
  Store.tasks_pk db'.
Proof.
  intros Hpk Hid. unfold TaskService.commit_refresh.
  destruct (Store.update_row db now old (TaskObj.row task)) as [db1|] eqn:E; [|done].
  destruct (Store.refresh db1 old); [|done].
  intros Heq; simplify_eq. by eapply update_row_tasks_pk.
Qed.

Lemma created_row_fits new_id now owner data :
  TaskCreate.valid data →
  Task.fits
    (Task.mk new_id owner (Some (TaskCreate.title data))
       (TaskCreate.description data) (Some (TaskCreate.completed data))
       (Some (default "medium" (TaskCreate.priority data))) now now).
Proof.
  intros [Htitle Hpriority]. split; simpl; [lia|].
  destruct (TaskCreate.priority data) as [p|]; simpl in *; [|lia].
  destruct Hpriority as [->|[->| ->]]; simpl; lia.
Qed.

(** The primary key of the tasks table is kept by every operation of the
    repository, on every engine and whatever is submitted. *)
Lemma operations_keep_tasks_pk db :
  Store.tasks_pk db →
  (∀ new_id now owner data db' task,
     TaskService.create_task db new_id now owner data = Committed (db', task) →
     Store.tasks_pk db')
  ∧ (∀ now owner task_id d db' task,
       TaskService.update_task db now owner task_id d = Committed (db', task) →
       Store.tasks_pk db')
  ∧ (∀ owner task_id, Store.tasks_pk (TaskService.delete_task db owner task_id).1)
  ∧ (∀ now owner task_id c db' task,
       TaskService.toggle_task_completion db now owner task_id c
       = Committed (db', task) →
       Store.tasks_pk db').
Proof.
  intros Hpk. split_and!.
  - intros new_id now owner data db' task.
    unfold TaskService.create_task, Store.insert_task.
    repeat case_decide; intros Heq; simplify_eq.
    unfold Store.tasks_pk in *. simpl. rewrite fmap_app.
    apply NoDup_app. split_and!; [done| |apply NoDup_singleton].
    by intros x Hx ->%list_elem_of_singleton.
  - intros now owner task_id d db' task. unfold TaskService.update_task.
    destruct (TaskService.get_task_by_id db owner task_id) as [old|] eqn:E.
    + rewrite foldl_setattr. by apply commit_refresh_tasks_pk.
    + by intros Heq; simplify_eq.
  - intros owner task_id. unfold TaskService.delete_task.
    destruct (TaskService.get_task_by_id db owner task_id); [|done].
    unfold Store.tasks_pk in *. simpl. by apply NoDup_fmap_filter.
  - intros now owner task_id c db' task. unfold TaskService.toggle_task_completion.
    destruct (TaskService.get_task_by_id db owner task_id) as [old|] eqn:E.
    + by apply commit_refresh_tasks_pk.
    + by intros Heq; simplify_eq.
Qed.

(** On every engine, also one that checks neither foreign keys nor lengths,
    the operations of the repository keep all the constraints of the schema
    when the bodies are those that the request schemas accept and a task is
    created for a stored user. *)
Lemma operations_keep_wf db :
  Store.wf db →
  (∀ new_id now owner data db' task,
     TaskCreate.valid data →
     owner ∈ (User.id <$> Store.users db) →
     TaskService.create_task db new_id now owner data = Committed (db', task) →
     Store.wf db')
  ∧ (∀ now owner task_id d db' task,
       TaskUpdate.valid d →
       TaskService.update_task db now owner task_id d = Committed (db', task) →
       Store.wf db')
  ∧ (∀ owner task_id, Store.wf (TaskService.delete_task db owner task_id).1)
  ∧ (∀ now owner task_id c db' task,
       TaskService.toggle_task_completion db now owner task_id c
       = Committed (db', task) →
       Store.wf db').
Proof.
  intros Hwf. split_and!.
  - intros new_id now owner data db' task Hv Howner.
    unfold TaskService.create_task.
    destruct (Store.insert_task db _) as [db1|] eqn:E; [|done].
    intros Heq; simplify_eq.
    eapply insert_task_wf; [done| | |done]; [by apply created_row_fits|done].
  - intros now owner task_id d db' task Hv. unfold TaskService.update_task.
    destruct (TaskService.get_task_by_id db owner task_id) as [old|] eqn:E.
    + apply get_task_by_id_Some in E as (Hold & _ & _).
      rewrite foldl_setattr. apply commit_refresh_wf; try done.
      apply merged_fits; [done|]. by apply (wf_row db old).
    + by intros Heq; simplify_eq.
  - intros owner task_id. unfold TaskService.delete_task.
    destruct (TaskService.get_task_by_id db owner task_id); [|done].
    by apply delete_row_wf.
  - intros now owner task_id c db' task. unfold TaskService.toggle_task_completion.
    destruct (TaskService.get_task_by_id db owner task_id) as [old|] eqn:E.
    + apply get_task_by_id_Some in E as (Hold & _ & _).
      apply commit_refresh_wf; try done. by apply (wf_row db old).
    + by intros Heq; simplify_eq.
Qed.

(** [create_task] with a body of the request schema, an owner that exists
    and a new identifier stores the row, with the defaults of the model. *)
Lemma create_task_succeeds db new_id now owner data :
  TaskCreate.valid data →
  owner ∈ (User.id <$> Store.users db) →
  new_id ∉ (Task.id <$> Store.tasks db) →
  TaskService.create_task db new_id now owner data
  = Committed
      (Store.mk (Store.engine db) (Store.users db)
         (Store.tasks db
          ++ [Task.mk new_id owner (Some (TaskCreate.title data))
                (TaskCreate.description data) (Some (TaskCreate.completed data))
                (Some (default "medium" (TaskCreate.priority data))) now now]),
       TaskObj.loaded
         (Task.mk new_id owner (Some (TaskCreate.title data))
            (TaskCreate.description data) (Some (TaskCreate.completed data))
            (Some (default "medium" (TaskCreate.priority data))) now now)).
Proof.
  intros Hv Howner Hnew.
  pose proof (created_row_fits new_id now owner data Hv) as Hfits.
  unfold TaskService.create_task, Store.insert_task. simpl.
  repeat case_decide; try done; tauto.
Qed.

(** ** The order of checks in the task endpoints *)

Ltac unfold_route :=
  unfold Api.route, Api.get_tasks, Api.create_task, Api.get_task,
    Api.update_task, Api.delete_task, Api.toggle_task_completion,
    Api.check_subject, Api.parse_user, Api.parse_user_task,
    fmap, Api.M_fmap, mbind, Api.M_bind, mret, Api.M_ret, Api.raise.





(** The same path with the owner's own token reaches the task. *)
Example own_task_is_served :
  Api.status_code
    (Api.route Sample.env
       (Api.GET_task Sample.alice_id Sample.t1_id)
       (Sample.claims_of Sample.alice_id) (Api.open_session Sample.db)).1 = 200.
Proof. vm_compute. reflexivity. Qed.




(** An identifier that is not in canonical form but that [uuid.UUID]
    accepts does reach the repository. *)
Example bare_hex_task_id_reaches_repository :
  Uuid.canonical "00000000000000000000000000000065" = false
  ∧ Api.route Sample.env
      (Api.DELETE_task Sample.alice_id "00000000000000000000000000000065")
      (Sample.claims_of Sample.alice_id) (Api.open_session Sample.db)
    = (Api.Return
         (Api.Message (Schema.MessageResponse.mk true "Task deleted successfully")),
       Api.mkSession
         (Store.mk Engine.sqlite [Sample.u_alice; Sample.u_bob]
            [Sample.t2; Sample.t3])
         [Api.delete_task_call Sample.alice 101]).
Proof. vm_compute. split; reflexivity. Qed.


(** ** Tokens *)

(** A no-break space before 31 digits is a blank for [int()]: the identifier
    parses and the request reaches the repository. *)
Example no_break_space_task_id_reaches_repository :
  Uuid.UUID (String (ascii_of_nat 160) "0000000000000000000000000000065")
  = Some 101
  ∧ Api.route Sample.env
      (Api.DELETE_task Sample.alice_id
         (String (ascii_of_nat 160) "0000000000000000000000000000065"))
      (Sample.claims_of Sample.alice_id) (Api.open_session Sample.db)
    = (Api.Return
         (Api.Message (Schema.MessageResponse.mk true "Task deleted successfully")),
       Api.mkSession
         (Store.mk Engine.sqlite [Sample.u_alice; Sample.u_bob]
            [Sample.t2; Sample.t3])
         [Api.delete_task_call Sample.alice 101])
  ∧ Uuid.UUID (String (ascii_of_nat 28) "0000000000000000000000000000065") = None.
Proof. vm_compute. repeat split; reflexivity. Qed.

Section Keyed.
Import Security.

Variable hs256 : string → Claims.t → string.
Variable secret : string.

Lemma verify_token_encoded now payload :
  verify_token hs256 secret now (jwt_encode hs256 payload secret)
  = match Claims.exp payload with
    | Some exp => if decide (exp * microseconds ≤ now)%Z then None else Some payload
    | None => Some payload
    end.
Proof.
  unfold verify_token, jwt_encode, jwt_decode.
  rewrite decide_False by (by intros []).
  rewrite decide_False by (by intros []).
  destruct (Claims.exp payload); [|done]. by case_decide.
Qed.

Lemma verify_token_uniform now tok err :
  jwt_decode hs256 tok secret now = inl err →
  verify_token hs256 secret now tok = None.
Proof. unfold verify_token. by intros ->. Qed.

Lemma verify_token_bad_signature now alg payload signature :
  signature ≠ hs256 secret payload →
  verify_token hs256 secret now (Compact alg payload signature) = None.
Proof.
  intros Hsig. unfold verify_token, jwt_decode.
  case_decide; [done|]. by rewrite decide_True.
Qed.

End Keyed.
(** C4: the token that [create_access_token] makes for subject [S] carries
    [S] and an expiration [exp]; without [expires_delta], [exp] is the second
    of issuance plus seven days; verified at any time before [exp] the token
    yields its claims, whose subject is [S]; verified at [exp] or later it
    yields [None]; so does any token whose signature is not the MAC of its
    payload under the secret, and any text that is not a token; and whatever
    error the decoder raises, the caller sees the same [None]. *)
Theorem token_issue_and_verify
    (hs256 : string → Security.Claims.t → string) (secret : string)
    (S : string) (email : option string) (stale : option Z)
    (utcnow : DateTime) (expires_delta : option Z) :
  ∃ exp : Z,
    Security.create_access_token hs256 secret utcnow
      (Security.Claims.mk (Some S) email stale) expires_delta
    = Security.jwt_encode hs256 (Security.Claims.mk (Some S) email (Some exp)) secret
    ∧ (expires_delta = None →
       exp = (utcnow `div` Security.microseconds + 7 * 86400)%Z)
    ∧ (∀ now : DateTime, (now < exp * Security.microseconds)%Z →
         ∃ claims,
           Security.verify_token hs256 secret now
             (Security.create_access_token hs256 secret utcnow
                (Security.Claims.mk (Some S) email stale) expires_delta)
           = Some claims
           ∧ Security.Claims.sub claims = Some S)
    ∧ (∀ now : DateTime, (exp * Security.microseconds ≤ now)%Z →
         Security.verify_token hs256 secret now
           (Security.create_access_token hs256 secret utcnow
              (Security.Claims.mk (Some S) email stale) expires_delta)
         = None)
    ∧ (∀ now alg payload signature, signature ≠ hs256 secret payload →
         Security.verify_token hs256 secret now
           (Security.Compact alg payload signature) = None)
    ∧ (∀ now text,
         Security.verify_token hs256 secret now (Security.Opaque text) = None)
    ∧ (∀ now tok err,
         Security.jwt_decode hs256 tok secret now = inl err →
         Security.verify_token hs256 secret now tok = None).
Proof.
  eexists. split; [reflexivity|].
  unfold Security.create_access_token. simpl.
  split_and!.
  - intros ->. unfold Security.seven_days, Security.microseconds.
    rewrite Z.div_add by done. lia.
  - intros now Hnow. rewrite verify_token_encoded. simpl.
    rewrite decide_False by lia. by eexists.
  - intros now Hnow. rewrite verify_token_encoded. simpl.
    by rewrite decide_True.
  - intros. by apply verify_token_bad_signature.
  - done.
  - intros. by eapply verify_token_uniform.
Qed.

Lemma token_issue_and_verify_witness :
  ∃ exp : Z,
    Security.create_access_token Tokens.toy_mac "k" 1700000000250000
      (Security.Claims.mk (Some Sample.alice_id) (Some "alice@example.com") None) None
    = Security.jwt_encode Tokens.toy_mac
        (Security.Claims.mk (Some Sample.alice_id) (Some "alice@example.com") (Some exp))
        "k"
    ∧ exp = 1700604800
    ∧ (∃ claims,
         Security.verify_token Tokens.toy_mac "k" 1700604799999999
           (Security.create_access_token Tokens.toy_mac "k" 1700000000250000
              (Security.Claims.mk (Some Sample.alice_id) (Some "alice@example.com") None)
              None)
         = Some claims
         ∧ Security.Claims.sub claims = Some Sample.alice_id)
    ∧ Security.verify_token Tokens.toy_mac "k" 1700604800000000
        (Security.create_access_token Tokens.toy_mac "k" 1700000000250000
           (Security.Claims.mk (Some Sample.alice_id) (Some "alice@example.com") None)
           None)
      = None.
Proof.
  destruct (token_issue_and_verify Tokens.toy_mac "k" Sample.alice_id
              (Some "alice@example.com") None 1700000000250000 None)
    as (exp & Htok & Hexp & Hbefore & Hafter & _).
  exists exp. specialize (Hexp eq_refl). vm_compute in Hexp. subst exp.
  split; [exact Htok|]. split; [reflexivity|]. split.
  - apply Hbefore. reflexivity.
  - apply Hafter. discriminate.
Defined.

(** ** Registration *)

Lemma head_filter_email (users : list User.t) (email : string) :
  head (filter (λ u, User.email u = email) users) = None
  ↔ email ∉ (User.email <$> users).
Proof.
  rewrite head_filter_None, list_elem_of_fmap. split.
  - intros Hno (u & -> & Hu). by apply (Hno u).
  - intros Hno u Hu Hemail. apply Hno. eauto.
Qed.



Section Register.
Variable pwd_context_hash : string → string → string.

Lemma register_user_conflict e salt data db :
  UserCreate.email data ∈ Registration.emails db →
  Api.register_user pwd_context_hash e salt data (Api.open_session db)
  = (Api.Raise Registration.conflict, Api.mkSession db [Api.users_query]).
Proof.
  intros Hin. unfold Api.register_user, mbind, Api.M_bind, Api.storage. simpl.
  destruct (head (filter _ (Store.users db))) as [u|] eqn:E; [done|].
  by apply head_filter_email in E.
Qed.

(** What a registration with a new email does, by what the engine says. *)
Lemma register_user_new_email e salt data db :
  UserCreate.email data ∉ Registration.emails db →
  Api.register_user pwd_context_hash e salt data (Api.open_session db)
  = match Store.insert_user db
            (Registration.new_user pwd_context_hash e salt data) with
    | Committed db' =>
        (Api.Return (user_from_attributes
                       (Registration.new_user pwd_context_hash e salt data)),
         Api.mkSession db' [Api.users_query; Api.users_insert])
    | Rejected _ =>
        (Api.Raise Api.SQLAlchemyError,
         Api.mkSession db [Api.users_query; Api.users_insert])
    end.
Proof.
  intros Hemail. apply head_filter_email in Hemail.
  unfold Api.register_user, mbind, Api.M_bind, Api.storage. simpl.
  rewrite Hemail. fold (Registration.new_user pwd_context_hash e salt data).
  cbn [Api.db Api.accesses].
  by destruct (Store.insert_user db _).
Qed.


(** The ways a registration can go. *)
Lemma register_user_cases e salt data db :
  (Api.register_user pwd_context_hash e salt data (Api.open_session db)
   = (Api.Raise Registration.conflict, Api.mkSession db [Api.users_query])
   ∧ UserCreate.email data ∈ Registration.emails db)
  ∨ Api.register_user pwd_context_hash e salt data (Api.open_session db)
    = (Api.Raise Api.SQLAlchemyError,
       Api.mkSession db [Api.users_query; Api.users_insert])
  ∨ (Api.register_user pwd_context_hash e salt data (Api.open_session db)
     = (Api.Return (user_from_attributes
                      (Registration.new_user pwd_context_hash e salt data)),
        Api.mkSession
          (Store.mk (Store.engine db)
             (Store.users db
              ++ [Registration.new_user pwd_context_hash e salt data])
             (Store.tasks db))
          [Api.users_query; Api.users_insert])
     ∧ (UserCreate.email data ∉ Registration.emails db)
     ∧ (Api.uuid4 e ∉ Registration.ids db)
     ∧ Registration.accepted (Store.engine db) data).
Proof.
  destruct (decide (UserCreate.email data ∈ Registration.emails db)) as [Hin|Hout].
  { left. by rewrite register_user_conflict. }
  right. rewrite register_user_new_email by done.
  unfold Store.insert_user. repeat case_decide; auto.
  right. split_and!; try done.
  intros Hlen.
  destruct (decide (User.fits (Registration.new_user pwd_context_hash e salt data)));
    [done|tauto].
Qed.


Lemma register_user_wf e salt data db :
  Store.wf db → Registration.fits data →
  Store.wf
    (Api.db (Api.register_user pwd_context_hash e salt data (Api.open_session db)).2).
Proof.
  intros Hwf Hfits.
  destruct (decide (UserCreate.email data ∈ Registration.emails db)) as [Hin|Hout].
  { by rewrite register_user_conflict. }
  rewrite register_user_new_email by done.
  destruct (Store.insert_user db _) as [db'|] eqn:E; [|done].
  simpl. eapply insert_user_wf; [exact Hwf| |exact E]. exact Hfits.
Qed.



End Register.




(** The default engine stores the same registration. *)
Example long_name_is_stored_on_sqlite :
  (Registration.register_all Registration.toy_hash [Registration.erin] Sample.db).1
  = [Api.Return (Schema.User.mk "erin@example.com"
                   (Some (Registration.replicate 256 "n"))
                   0x66666666666666666666666666666666 32 32)]
  ∧ Api.status_code
      (Api.register_user Registration.toy_hash (Registration.env Registration.erin)
         (Registration.salt Registration.erin) (Registration.data Registration.erin)
         (Api.open_session Sample.pg)).1 = 500.
Proof. vm_compute. split; reflexivity. Qed.

(** The same email a second time, and a draw of [uuid4] that is taken. *)
Example second_registration_conflicts :
  (Registration.register_all Registration.toy_hash
     [Registration.carol; Registration.carol; Registration.dave] Sample.db).1
  = [Api.Return (Schema.User.mk "carol@example.com" None
                   0x33333333333333333333333333333333 30 30);
     Api.Raise (Api.HTTPException 400 "A user with this email already exists");
     Api.Return (Schema.User.mk "dave@example.com" (Some "Dave")
                   0x44444444444444444444444444444444 31 31)].
Proof. vm_compute. reflexivity. Qed.

Example taken_uuid4_is_refused :
  Api.register_user Registration.toy_hash (Api.mkEnv 30 Sample.alice) "s1"
    (UserCreate.mk "carol@example.com" None "secret1") (Api.open_session Sample.db)
  = (Api.Raise Api.SQLAlchemyError,
     Api.mkSession Sample.db [Api.users_query; Api.users_insert]).
Proof. vm_compute. reflexivity. Qed.

(** ** Scenarios *)

(** Create a task with priority low, check it off, read it back. *)
Example create_toggle_get :
  ∃ s1 created s2 toggled s3 read,
    Api.create_task Sample.env Sample.alice_id
      (TaskCreate.mk "buy milk" None false (Some "low") (Some []))
      (Sample.claims_of Sample.alice_id) (Api.open_session Sample.db)
    = (Api.Return created, s1)
    ∧ Api.toggle_task_completion (Api.mkEnv 1001 556) Sample.alice_id
        "00000000-0000-0000-0000-00000000022b" true
        (Sample.claims_of Sample.alice_id) (Api.open_session (Api.db s1))
      = (Api.Return toggled, s2)
    ∧ Api.get_task Sample.alice_id "00000000-0000-0000-0000-00000000022b"
        (Sample.claims_of Sample.alice_id) (Api.open_session (Api.db s2))
      = (Api.Return read, s3)
    ∧ Schema.Task.completed (Schema.TaskResponse.data read) = true
    ∧ Schema.Task.priority (Schema.TaskResponse.data read) = Some "low"
    ∧ Schema.Task.updated_at (Schema.TaskResponse.data read) = 1001.
Proof.
  eexists _, _, _, _, _, _.
  split; [vm_compute; reflexivity|].
  split; [vm_compute; reflexivity|].
  split; [vm_compute; reflexivity|].
  repeat split.
Qed.

(** Deleting a task that was deleted answers 404, again and again. *)
Example delete_twice :
  ∃ s1 s2 s3 detail,
    Api.delete_task Sample.alice_id Sample.t1_id
      (Sample.claims_of Sample.alice_id) (Api.open_session Sample.db)
    = (Api.Return (Schema.MessageResponse.mk true "Task deleted successfully"), s1)
    ∧ Api.delete_task Sample.alice_id Sample.t1_id
        (Sample.claims_of Sample.alice_id) (Api.open_session (Api.db s1))
      = (Api.Raise (Api.HTTPException 404 detail), s2)
    ∧ Api.delete_task Sample.alice_id Sample.t1_id
        (Sample.claims_of Sample.alice_id) (Api.open_session (Api.db s2))
      = (Api.Raise (Api.HTTPException 404 detail), s3).
Proof.
  eexists _, _, _, _.
  split; [vm_compute; reflexivity|].
  split; vm_compute; reflexivity.
Qed.

(** ** Identifiers as text: [str(uuid)] and [uuid.UUID] *)

Lemma all_chars_impl (P Q : ascii → Prop) s :
  (∀ c, P c → Q c) → all_chars P s → all_chars Q s.
Proof. intros HPQ. induction s as [|c s IH]; simpl; [done|]. intuition. Qed.

Lemma all_chars_app (P : ascii → Prop) s1 s2 :
  all_chars P (s1 +:+ s2) ↔ all_chars P s1 ∧ all_chars P s2.
Proof. induction s1 as [|c s1 IH]; simpl; [tauto|]. rewrite IH. tauto. Qed.

Lemma all_chars_substring (P : ascii → Prop) n m s :
  all_chars P s → all_chars P (String.substring n m s).
Proof.
  revert n m. induction s as [|c s IH]; intros n m Hs.
  - by destruct n, m.
  - destruct Hs as [Hc Hs]. destruct n as [|n]; simpl.
    + destruct m as [|m]; simpl; [done|]. split; [done|]. by apply IH.
    + by apply IH.
Qed.

Lemma hex_char_cases d :
  (0 ≤ d < 16)%Z →
  Uuid.hex_digit (Uuid.hex_char d) = Some d
  ∧ Uuid.is_space (Uuid.hex_char d) = false
  ∧ Uuid.is_brace (Uuid.hex_char d) = false
  ∧ Uuid.hex_char d ≠ "u"%char ∧ Uuid.hex_char d ≠ "-"%char
  ∧ Uuid.hex_char d ≠ "+"%char ∧ Uuid.hex_char d ≠ "_"%char
  ∧ Uuid.hex_char d ≠ "x"%char ∧ Uuid.hex_char d ≠ "X"%char.
Proof.
  intros Hd.
  assert (d = 0 ∨ d = 1 ∨ d = 2 ∨ d = 3 ∨ d = 4 ∨ d = 5 ∨ d = 6 ∨ d = 7
          ∨ d = 8 ∨ d = 9 ∨ d = 10 ∨ d = 11 ∨ d = 12 ∨ d = 13 ∨ d = 14
          ∨ d = 15)%Z as Hcases by lia.
  repeat (destruct Hcases as [->|Hcases]); [..|subst d];
    vm_compute; repeat split; discriminate.
Qed.

Lemma format_hex_chars w i acc :
  all_chars lower_hex acc → all_chars lower_hex (Uuid.format_hex w i acc).
Proof.
  revert i acc. induction w as [|w IH]; intros i acc Hacc; simpl; [done|].
  apply IH. split; [|done]. exists (i `mod` 16)%Z. split; [|done].
  by apply Z.mod_pos_bound.
Qed.

Lemma format_hex_length w i acc :
  String.length (Uuid.format_hex w i acc) = (w + String.length acc)%nat.
Proof.
  revert i acc. induction w as [|w IH]; intros i acc; simpl; [done|].
  rewrite IH. simpl. lia.
Qed.

Lemma remove_sub_absent p0 pat s :
  all_chars (λ c, c ≠ p0) s → Uuid.remove_sub (String p0 pat) 0 s = s.
Proof.
  induction s as [|c s IH]; intros Hs; [done|]. destruct Hs as [Hc Hs].
  cbn [Uuid.remove_sub String.prefix].
  destruct (ascii_dec p0 c) as [->|_]; [done|]. by rewrite IH.
Qed.

Lemma lstrip_absent p s :
  all_chars (λ c, p c = false) s → Uuid.lstrip p s = s.
Proof. destruct s as [|c s]; [done|]. intros [Hc _]. simpl. by rewrite Hc. Qed.

Lemma rstrip_absent p s :
  all_chars (λ c, p c = false) s → Uuid.rstrip p s = s.
Proof.
  induction s as [|c s IH]; intros Hs; [done|]. destruct Hs as [Hc Hs].
  simpl. rewrite IH by done. rewrite Hc. by destruct s.
Qed.

Lemma remove_char_app x s1 s2 :
  Uuid.remove_char x (s1 +:+ s2) = Uuid.remove_char x s1 +:+ Uuid.remove_char x s2.
Proof.
  induction s1 as [|c s1 IH]; simpl; [done|]. rewrite IH. by case_decide.
Qed.

Lemma remove_char_absent x s :
  all_chars (λ c, c ≠ x) s → Uuid.remove_char x s = s.
Proof.
  induction s as [|c s IH]; intros Hs; [done|]. destruct Hs as [Hc Hs].
  simpl. rewrite decide_False by done. by rewrite IH.
Qed.

Lemma slices_of_32 h :
  String.length h = 32%nat →
  String.substring 0 8 h +:+ String.substring 8 4 h +:+ String.substring 12 4 h
  +:+ String.substring 16 4 h +:+ String.substring 20 12 h = h.
Proof.
  intros Hlen.
  do 32 (destruct h as [|? h]; [discriminate|]).
  destruct h; [reflexivity|discriminate].
Qed.

Lemma digits16_format_hex w i a rest :
  Uuid.digits16 a false (Uuid.format_hex w i rest)
  = Uuid.digits16 (a * 16 ^ Z.of_nat w + i `mod` 16 ^ Z.of_nat w) false rest.
Proof.
  revert i rest. induction w as [|w IH]; intros i rest.
  - simpl. rewrite Z.mod_1_r. f_equal. lia.
  - cbn [Uuid.format_hex]. rewrite IH. cbn [Uuid.digits16].
    destruct (hex_char_cases (i `mod` 16)) as [-> _]; [by apply Z.mod_pos_bound|].
    f_equal.
    rewrite Nat2Z.inj_succ, Z.pow_succ_r by lia.
    rewrite (Z.rem_mul_r i 16 (16 ^ Z.of_nat w)) by lia. lia.
Qed.

Lemma format_hex_head w i acc :
  Uuid.format_hex (S w) i acc
  = String (Uuid.hex_char ((i `div` 16 ^ Z.of_nat w) `mod` 16))
      (Uuid.format_hex w i acc).
Proof.
  revert i acc. induction w as [|w IH]; intros i acc.
  - simpl. by rewrite Z.div_1_r.
  - cbn [Uuid.format_hex] in *. rewrite IH. do 2 f_equal.
    rewrite Nat2Z.inj_succ, Z.pow_succ_r by lia.
    by rewrite Z.div_div by lia.
Qed.

(** [int(s, 16)] on text that starts with two digits written by ['%x']. *)
Lemma int16_two_digits a b r :
  (0 ≤ a < 16)%Z → (0 ≤ b < 16)%Z →
  Uuid.int16 (String (Uuid.hex_char a) (String (Uuid.hex_char b) r))
  = match Uuid.digits16 0 false
            (String (Uuid.hex_char a) (String (Uuid.hex_char b) r)) with
    | Some (v, rest) =>
        match Uuid.lstrip Uuid.is_space rest with
        | EmptyString => Some v
        | String _ _ => None
        end
    | None => None
    end.
Proof.
  intros Ha Hb.
  destruct (hex_char_cases b Hb) as (_ & _ & _ & _ & _ & _ & _ & Hx1 & Hx2).
  assert (a = 0 ∨ a = 1 ∨ a = 2 ∨ a = 3 ∨ a = 4 ∨ a = 5 ∨ a = 6 ∨ a = 7
          ∨ a = 8 ∨ a = 9 ∨ a = 10 ∨ a = 11 ∨ a = 12 ∨ a = 13 ∨ a = 14
          ∨ a = 15)%Z as Hcases by lia.
  unfold Uuid.int16.
  repeat (destruct Hcases as [->|Hcases]); [..|subst a];
    match goal with
    | |- context [String (Uuid.hex_char ?d) (String _ _)] =>
        let c := eval vm_compute in (Uuid.hex_char d) in
        let sp := eval vm_compute in (Uuid.is_space c) in
        let hd := eval vm_compute in (Uuid.hex_digit c) in
        change (Uuid.hex_char d) with c;
        cbn [Uuid.lstrip];
        change (Uuid.is_space c) with sp;
        cbn iota beta;
        change (Uuid.hex_digit c) with hd
    end;
    try (rewrite bool_decide_eq_false_2 by (intros [?|?]; done));
    reflexivity.
Qed.

Lemma int16_format_hex i :
  Uuid.int16 (Uuid.format_hex 32 i EmptyString) = Some (i `mod` 16 ^ 32)%Z.
Proof.
  rewrite (format_hex_head 31), (format_hex_head 30).
  rewrite int16_two_digits by (by apply Z.mod_pos_bound).
  rewrite <- (format_hex_head 30), <- (format_hex_head 31).
  rewrite digits16_format_hex. cbn [Uuid.digits16 Uuid.lstrip].
  f_equal.
Qed.

Lemma lower_hex_cases c :
  lower_hex c →
  Uuid.is_brace c = false ∧ c ≠ "u"%char ∧ c ≠ "-"%char.
Proof.
  intros (d & Hd & ->). destruct (hex_char_cases d Hd) as (_ & _ & ? & ? & ? & _).
  done.
Qed.

Lemma str_unfold i :
  let hex := Uuid.format_hex 32 i EmptyString in
  Uuid.str i
  = String.substring 0 8 hex +:+ "-" +:+ String.substring 8 4 hex +:+ "-"
    +:+ String.substring 12 4 hex +:+ "-" +:+ String.substring 16 4 hex +:+ "-"
    +:+ String.substring 20 12 hex.
Proof. reflexivity. Qed.

Lemma str_chars i :
  all_chars (λ c, lower_hex c ∨ c = "-"%char) (Uuid.str i).
Proof.
  rewrite str_unfold. cbv zeta.
  assert (∀ n m, all_chars (λ c, lower_hex c ∨ c = "-"%char)
                   (String.substring n m (Uuid.format_hex 32 i EmptyString)))
    as Hsub.
  { intros n m. apply all_chars_substring.
    apply (all_chars_impl lower_hex); [by left|]. by apply format_hex_chars. }
  repeat first
    [ apply Hsub
    | apply all_chars_app; split; [apply Hsub|]
    | change (all_chars ?P ("-" +:+ ?s)) with (P "-"%char ∧ all_chars P s);
      split; [by right|] ].
Qed.

Lemma remove_dashes_str i :
  Uuid.remove_char "-"%char (Uuid.str i) = Uuid.format_hex 32 i EmptyString.
Proof.
  rewrite str_unfold. cbv zeta.
  assert (∀ n m, Uuid.remove_char "-"%char
                   (String.substring n m (Uuid.format_hex 32 i EmptyString))
                 = String.substring n m (Uuid.format_hex 32 i EmptyString))
    as Hsub.
  { intros n m. apply remove_char_absent, all_chars_substring.
    apply (all_chars_impl lower_hex); [|by apply format_hex_chars].
    intros c Hc. by destruct (lower_hex_cases c Hc) as (_ & _ & ?). }
  rewrite !remove_char_app, !Hsub.
  change (Uuid.remove_char "-"%char "-") with EmptyString.
  cbn [String.append].
  apply slices_of_32. by rewrite format_hex_length.
Qed.

(** [uuid.UUID(str(u))] is [u]: the text written for an identifier parses
    back to the same 128-bit value. *)
Lemma UUID_str i :
  (0 ≤ i < 2 ^ 128)%Z → Uuid.UUID (Uuid.str i) = Some i.
Proof.
  intros Hi. unfold Uuid.UUID. pose proof (str_chars i) as Hchars.
  assert (all_chars (λ c, c ≠ "u"%char) (Uuid.str i)) as Hu.
  { apply (all_chars_impl _ _ _) with (2 := Hchars). intros c [Hc| ->]; [|done].
    by destruct (lower_hex_cases c Hc) as (? & ? & ?). }
  assert (all_chars (λ c, Uuid.is_brace c = false) (Uuid.str i)) as Hb.
  { apply (all_chars_impl _ _ _) with (2 := Hchars). intros c [Hc| ->]; [|done].
    by destruct (lower_hex_cases c Hc) as (? & ? & ?). }
  rewrite (remove_sub_absent "u" "rn:") by done.
  rewrite (remove_sub_absent "u" "uid:") by done.
  unfold Uuid.strip. rewrite lstrip_absent, rstrip_absent by done.
  rewrite remove_dashes_str, format_hex_length, int16_format_hex.
  rewrite decide_True by done.
  change (16 ^ 32)%Z with (2 ^ 128)%Z.
  rewrite Z.mod_small by done. by rewrite decide_True.
Qed.

Lemma lower_hex_digit c :
  lower_hex c → bool_decide (is_Some (Uuid.hex_digit c)) = true.
Proof.
  intros (d & Hd & ->). apply bool_decide_eq_true_2.
  destruct (hex_char_cases d Hd) as [-> _]. by eexists.
Qed.

Lemma str_canonical i :
  String.length (Uuid.str i) = 36%nat ∧ Uuid.canonical (Uuid.str i) = true.
Proof.
  rewrite str_unfold. cbv zeta.
  pose proof (format_hex_length 32 i EmptyString) as Hlen.
  pose proof (format_hex_chars 32 i EmptyString I) as Hchars.
  revert Hlen Hchars. generalize (Uuid.format_hex 32 i EmptyString) as h.
  intros h Hlen Hchars.
  do 32 (destruct h as [|? h]; [discriminate|]).
  destruct h; [|discriminate]. clear Hlen.
  cbn [all_chars] in Hchars.
  split; [reflexivity|].
  unfold Uuid.canonical.
  rewrite bool_decide_eq_true_2 by done.
  cbv beta iota zeta delta [String.append String.list_ascii_of_string].
  cbn -[Uuid.hex_digit bool_decide].
  repeat match goal with
         | |- context [bool_decide (?n ∈ ?l)] =>
             let b := eval vm_compute in (bool_decide (n ∈ l)) in
             change (bool_decide (n ∈ l)) with b
         end.
  cbn iota.
  rewrite !lower_hex_digit by tauto.
  reflexivity.
Qed.

(** * Further properties of the service, the handlers and the identity layer *)

(** ** Rows and lookups *)

Lemma head_filter_unique {A B} `{!EqDecision B} (f : A → B) (l : list A) (x : A) :
  NoDup (f <$> l) → x ∈ l → head (filter (λ y, f y = f x) l) = Some x.
Proof.
  intros Hnd Hx.
  destruct (head (filter (λ y, f y = f x) l)) as [y|] eqn:E.
  - apply head_filter_elem_of in E as [Hy Hf].
    f_equal. by eapply NoDup_fmap_elem_of_eq.
  - exfalso. by apply (proj1 (head_filter_None _ _) E x).
Qed.

Lemma filter_not_row db T :
  Store.tasks_pk db → T ∈ Store.tasks db →
  filter (λ r, Task.id r ≠ Task.id T) (Store.tasks db)
  = filter (λ r, r ≠ T) (Store.tasks db).
Proof.
  intros Hpk HT. apply filter_ext_elem_of. intros r Hr. split.
  - intros Hid ->. done.
  - intros Hne Hid. apply Hne. by eapply NoDup_fmap_elem_of_eq.
Qed.

Lemma get_task_by_id_filter db user_id task_id :
  TaskService.get_task_by_id db user_id task_id
  = head (filter (λ r, Task.id r = task_id)
            (filter (λ r, Task.user_id r = user_id) (Store.tasks db))).
Proof.
  unfold TaskService.get_task_by_id. f_equal.
  rewrite list_filter_filter. apply list_filter_iff. intros r. tauto.
Qed.

Lemma same_for_filter B db db' :
  Store.users db' = Store.users db →
  filter (λ r, Task.user_id r = B) (Store.tasks db')
  = filter (λ r, Task.user_id r = B) (Store.tasks db) →
  Views.same_for B db db'.
Proof.
  intros Hu Hf. split; [done|]. split.
  - intros status priority. by rewrite !get_tasks_by_user_filters, Hf.
  - intros task_id. by rewrite !get_task_by_id_filter, Hf.
Qed.

Lemma same_for_refl B db : Views.same_for B db db.
Proof. by apply same_for_filter. Qed.

Lemma filter_user_replaced B old new tasks :
  NoDup (Task.id <$> tasks) → old ∈ tasks →
  Task.user_id old ≠ B → Task.user_id new ≠ B →
  filter (λ r, Task.user_id r = B) (Updates.replaced old new tasks)
  = filter (λ r, Task.user_id r = B) tasks.
Proof.
  intros Hnd Hold Ho Hn. unfold Updates.replaced.
  assert (∀ r, r ∈ tasks → Task.id r = Task.id old → r = old) as Hpk.
  { intros r Hr Hid. by eapply NoDup_fmap_elem_of_eq. }
  clear Hnd Hold. induction tasks as [|a tasks IH]; [done|].
  rewrite fmap_cons, !filter_cons.
  rewrite IH by (intros r Hr; apply Hpk; by right).
  destruct (decide (Task.id a = Task.id old)) as [Hid|Hid]; [|done].
  assert (a = old) as -> by (apply Hpk; [left|done]).
  by rewrite !decide_False.
Qed.

Lemma filter_user_deleted B old tasks :
  NoDup (Task.id <$> tasks) → old ∈ tasks → Task.user_id old ≠ B →
  filter (λ r, Task.user_id r = B) (filter (λ r, Task.id r ≠ Task.id old) tasks)
  = filter (λ r, Task.user_id r = B) tasks.
Proof.
  intros Hnd Hold Ho. rewrite list_filter_filter.
  apply filter_ext_elem_of. intros r Hr. split; [tauto|].
  intros Hu. split; [done|]. intros Hid.
  assert (r = old) as -> by (by eapply NoDup_fmap_elem_of_eq). done.
Qed.

Lemma filter_user_written B eng old new tasks :
  NoDup (Task.id <$> tasks) → old ∈ tasks →
  Task.user_id old ≠ B → Task.user_id new ≠ B →
  filter (λ r, Task.user_id r = B) (Store.written eng old new tasks)
  = filter (λ r, Task.user_id r = B) tasks.
Proof.
  intros Hnd Hold Ho Hn. unfold Store.written.
  destruct (Engine.update_in_place eng); [by apply filter_user_replaced|].
  rewrite filter_app, filter_user_deleted by done.
  assert (filter (λ r, Task.user_id r = B)
            ((λ _, new) <$> filter (λ r, Task.id r = Task.id old) tasks) = [])
    as ->; [|by rewrite app_nil_r].
  apply head_None, head_filter_None.
  intros r (x & -> & _)%list_elem_of_fmap. done.
Qed.

Lemma commit_refresh_same_for B db now old task db' result :
  Store.tasks_pk db → old ∈ Store.tasks db → Task.user_id old ≠ B →
  Task.id (TaskObj.row task) = Task.id old →
  Task.user_id (TaskObj.row task) = Task.user_id old →
  TaskService.commit_refresh db now old task = Committed (db', result) →
  Views.same_for B db db'.
Proof.
  intros Hpk Hold Ho Hid Hu. rewrite commit_refresh_loaded by done.
  repeat case_decide; intros [= <- <-]; [apply same_for_refl|].
  apply same_for_filter; [done|]. cbn [Store.tasks].
  apply filter_user_written; try done. cbn. congruence.
Qed.

(** A lookup of another identifier does not see the row that was written. *)
Lemma get_task_by_id_other db db' T u t :
  filter (λ r, Task.id r ≠ Task.id T) (Store.tasks db')
  = filter (λ r, Task.id r ≠ Task.id T) (Store.tasks db) →
  t ≠ Task.id T →
  TaskService.get_task_by_id db' u t = TaskService.get_task_by_id db u t.
Proof.
  intros Hothers Hne. unfold TaskService.get_task_by_id. f_equal.
  assert (∀ l : list Task.t,
            filter (λ r, Task.user_id r = u ∧ Task.id r = t) l
            = filter (λ r, Task.user_id r = u ∧ Task.id r = t)
                (filter (λ r, Task.id r ≠ Task.id T) l)) as Hl.
  { intros l. rewrite list_filter_filter. apply list_filter_iff.
    intros r. split; [|tauto]. intros [Hu Ht]. split_and!; congruence. }
  by rewrite (Hl (Store.tasks db')), (Hl (Store.tasks db)), Hothers.
Qed.

(** The commit and refresh of a stored row that was modified in the
    attributes only. *)
Lemma commit_refresh_own db now T new tags :
  Store.wf db → T ∈ Store.tasks db →
  Task.id new = Task.id T → Task.user_id new = Task.user_id T →
  Task.fits new → Task.not_null new →
  ∃ db',
    TaskService.commit_refresh db now T (TaskObj.mk new tags)
    = Committed (db', Some (TaskObj.mk (Flush.row now T new) tags))
    ∧ Flush.leaves db now T new db'.
Proof.
  intros Hwf HT Hid Hu Hfit Hnn.
  destruct (wf_row db T Hwf HT) as (Hpk & _ & _).
  pose proof (commit_refresh_loaded db now T (TaskObj.mk new tags) Hpk HT Hid)
    as Heq.
  cbn [TaskObj.row TaskObj.tags] in Heq.
  unfold Flush.leaves, Flush.row.
  destruct (decide (new = T)) as [->|Hne].
  - exists db. rewrite replaced_same by done. by split_and!.
  - rewrite decide_False in Heq by (intros [_ Hn]; by apply Hn).
    rewrite decide_False in Heq by (intros Hn; by apply Hn).
    eexists. split; [exact Heq|]. cbn [Store.engine Store.users Store.tasks].
    split_and!; try done.
    + by eapply (commit_refresh_wf db now T (TaskObj.mk new tags)).
    + apply written_Permutation.
    + apply written_in_place.
    + by apply filter_other_written.
    + by apply elem_of_written.
Qed.

(** What [update_task] does to a stored row of the caller. *)
Lemma update_task_own db now T d :
  Store.wf db → T ∈ Store.tasks db →
  TaskUpdate.valid d → TaskUpdate.title d ≠ Some None →
  ∃ db',
    TaskService.update_task db now (Task.user_id T) (Task.id T) d
    = Committed
        (db', Some (TaskObj.mk (Flush.row now T (Updates.merged d T))
                      (TaskUpdate.tags d)))
    ∧ Flush.leaves db now T (Updates.merged d T) db'.
Proof.
  intros Hwf HT Hv Ht. destruct (wf_row db T Hwf HT) as (Hpk & Hfit & Hnn).
  unfold TaskService.update_task. rewrite get_task_by_id_own by done.
  cbv zeta. rewrite foldl_setattr.
  apply commit_refresh_own; try done.
  - by apply merged_fits.
  - by apply merged_not_null.
Qed.

Lemma toggle_own db now T c :
  Store.wf db → T ∈ Store.tasks db →
  ∃ db',
    TaskService.toggle_task_completion db now (Task.user_id T) (Task.id T) c
    = Committed
        (db', Some (TaskObj.mk (Flush.row now T (Task.set_completed (Some c) T))
                      None))
    ∧ Flush.leaves db now T (Task.set_completed (Some c) T) db'.
Proof.
  intros Hwf HT. destruct (wf_row db T Hwf HT) as (Hpk & Hfit & Hnn).
  unfold TaskService.toggle_task_completion. rewrite get_task_by_id_own by done.
  cbv zeta. by apply commit_refresh_own.
Qed.

Lemma set_completed_same T c :
  Task.set_completed (Some c) T = T ↔ Task.completed T = Some c.
Proof.
  split.
  - intros <-. done.
  - intros Hc. destruct T; cbn in *; by subst.
Qed.

(** The row a lookup finds after a flush. *)
Lemma get_task_by_id_flushed db now T new db' :
  Task.id new = Task.id T → Task.user_id new = Task.user_id T →
  Flush.leaves db now T new db' →
  TaskService.get_task_by_id db' (Task.user_id T) (Task.id T)
  = Some (Flush.row now T new).
Proof.
  intros Hid Hu (Hwf & _ & _ & _ & _ & _ & _ & Hin).
  assert (Task.id (Flush.row now T new) = Task.id T
          ∧ Task.user_id (Flush.row now T new) = Task.user_id T) as [<- <-]
    by (unfold Flush.row; by case_decide).
  apply get_task_by_id_own; [|done]. by destruct Hwf as (_ & _ & _ & ? & _).
Qed.

(** The rows of a list split by their completion, under any further
    filter. *)
Lemma length_by_completion (P : Task.t → Prop) `{!∀ r, Decision (P r)}
    (l : list Task.t) :
  length (filter P l)
  = (length (filter P (filter (λ r, Task.completed r = Some true) l))
     + length (filter P (filter (λ r, Task.completed r = Some false) l))
     + length (filter (λ r, Task.completed r = None) (filter P l)))%nat.
Proof.
  induction l as [|a l IH]; [done|].
  rewrite !filter_cons.
  destruct (decide (P a)) as [HP|HP];
    destruct (Task.completed a) as [[|]|] eqn:E;
    repeat (rewrite ?decide_True, ?decide_False, ?filter_cons, ?E by done);
    cbn [length]; lia.
Qed.

(** ** The handlers past their checks *)

Section authorised.
Variables (user_id task_id : string) (u t : UUID) (token_data : Security.Claims.t).
Hypothesis Hsub : Security.Claims.sub token_data = Some user_id.
Hypothesis Huser : Uuid.UUID user_id = Some u.
Hypothesis Htask : Uuid.UUID task_id = Some t.

Lemma get_tasks_authorised status priority s :
  Api.get_tasks user_id status priority token_data s
  = Api.tasks_response (TaskService.get_tasks_by_user (Api.db s) u status priority)
      (Api.mkSession (Api.db s) (Api.accesses s ++ [Api.get_tasks_by_user_call u])).
Proof.
  unfold_route. rewrite decide_False by (by intros []). by rewrite Huser.
Qed.

Lemma create_task_authorised e data s :
  Api.create_task e user_id data token_data s
  = match TaskService.create_task (Api.db s) (Api.uuid4 e) (Api.now e) u data with
    | Committed (d, task) =>
        Api.task_response task
          (Api.mkSession d (Api.accesses s ++ [Api.create_task_call u]))
    | Rejected _ =>
        (Api.Raise Api.SQLAlchemyError,
         Api.mkSession (Api.db s) (Api.accesses s ++ [Api.create_task_call u]))
    end.
Proof.
  unfold_route. rewrite decide_False by (by intros []). rewrite Huser.
  unfold Api.storage.
  by destruct (TaskService.create_task _ _ _ _ _) as [[d task]|].
Qed.

Lemma get_task_authorised s :
  Api.get_task user_id task_id token_data s
  = match TaskService.get_task_by_id (Api.db s) u t with
    | Some task =>
        Api.task_response (TaskObj.loaded task)
          (Api.mkSession (Api.db s) (Api.accesses s ++ [Api.get_task_by_id_call u t]))
    | None =>
        (Api.Raise (Api.HTTPException 404 "Task not found"),
         Api.mkSession (Api.db s) (Api.accesses s ++ [Api.get_task_by_id_call u t]))
    end.
Proof.
  unfold_route. rewrite decide_False by (by intros []). rewrite Huser, Htask.
  unfold Api.storage. by destruct (TaskService.get_task_by_id _ _ _).
Qed.

Lemma update_task_authorised e d s :
  Api.update_task e user_id task_id d token_data s
  = match TaskService.update_task (Api.db s) (Api.now e) u t d with
    | Committed (d', Some task) =>
        Api.task_response task
          (Api.mkSession d' (Api.accesses s ++ [Api.update_task_call u t]))
    | Committed (d', None) =>
        (Api.Raise (Api.HTTPException 404 "Task not found"),
         Api.mkSession d' (Api.accesses s ++ [Api.update_task_call u t]))
    | Rejected _ =>
        (Api.Raise Api.SQLAlchemyError,
         Api.mkSession (Api.db s) (Api.accesses s ++ [Api.update_task_call u t]))
    end.
Proof.
  unfold_route. rewrite decide_False by (by intros []). rewrite Huser, Htask.
  unfold Api.storage.
  by destruct (TaskService.update_task _ _ _ _ _) as [[d' [task|]]|].
Qed.

Lemma delete_task_authorised s :
  Api.delete_task user_id task_id token_data s
  = (if (TaskService.delete_task (Api.db s) u t).2
     then Api.Return (Schema.MessageResponse.mk true "Task deleted successfully")
     else Api.Raise (Api.HTTPException 404 "Task not found"),
     Api.mkSession (TaskService.delete_task (Api.db s) u t).1
       (Api.accesses s ++ [Api.delete_task_call u t])).
Proof.
  unfold_route. rewrite decide_False by (by intros []). rewrite Huser, Htask.
  unfold Api.storage.
  by destruct (TaskService.delete_task _ _ _) as [d' [|]].
Qed.

Lemma toggle_task_completion_authorised e c s :
  Api.toggle_task_completion e user_id task_id c token_data s
  = match TaskService.toggle_task_completion (Api.db s) (Api.now e) u t c with
    | Committed (d', Some task) =>
        Api.task_response task
          (Api.mkSession d' (Api.accesses s ++ [Api.toggle_task_completion_call u t]))
    | Committed (d', None) =>
        (Api.Raise (Api.HTTPException 404 "Task not found"),
         Api.mkSession d' (Api.accesses s ++ [Api.toggle_task_completion_call u t]))
    | Rejected _ =>
        (Api.Raise Api.SQLAlchemyError,
         Api.mkSession (Api.db s)
           (Api.accesses s ++ [Api.toggle_task_completion_call u t]))
    end.
Proof.
  unfold_route. rewrite decide_False by (by intros []). rewrite Huser, Htask.
  unfold Api.storage.
  by destruct (TaskService.toggle_task_completion _ _ _ _ _) as [[d' [task|]]|].
Qed.
End authorised.

Lemma get_task_by_id_appended db row :
  Task.id row ∉ (Task.id <$> Store.tasks db) →
  TaskService.get_task_by_id
    (Store.mk (Store.engine db) (Store.users db) (Store.tasks db ++ [row]))
    (Task.user_id row) (Task.id row)
  = Some row.
Proof.
  intros Hnew. unfold TaskService.get_task_by_id. cbn [Store.tasks].
  rewrite filter_app.
  assert (filter (λ r, Task.user_id r = Task.user_id row ∧ Task.id r = Task.id row)
            (Store.tasks db) = []) as ->.
  { apply head_None, head_filter_None. intros r Hr [_ Hid].
    apply Hnew, list_elem_of_fmap. eauto. }
  by rewrite filter_cons_True.
Qed.

(** The response model of a row that a valid creation request stores. *)
Lemma created_row_response new_id now owner data tags :
  TaskCreate.valid data →
  task_from_attributes
    (TaskObj.mk
       (Task.mk new_id owner (Some (TaskCreate.title data))
          (TaskCreate.description data) (Some (TaskCreate.completed data))
          (Some (default "medium" (TaskCreate.priority data))) now now)
       tags)
  = Some (Schema.Task.mk (TaskCreate.title data) (TaskCreate.description data)
            (TaskCreate.completed data)
            (Some (default "medium" (TaskCreate.priority data)))
            (default (Some []) tags) new_id owner now now).
Proof.
  intros [Ht Hp]. unfold task_from_attributes. cbn.
  unfold Schema.title_ok, Schema.priority_ok.
  rewrite bool_decide_eq_true_2 by done.
  rewrite bool_decide_eq_true_2; [done|].
  destruct (TaskCreate.priority data); cbn in *; tauto.
Qed.

(** ** What a handler does with the session *)







Section Bearer.
Import Security.
Variable hs256 : string → Claims.t → string.
Variable secret : string.



End Bearer.

(** ** Users by email and by identifier *)

Lemma head_filter_user_email db u :
  Store.email_unique db → u ∈ Store.users db →
  head (filter (λ v, User.email v = User.email u) (Store.users db)) = Some u.
Proof. intros Hu Hin. by apply (head_filter_unique User.email). Qed.

Lemma head_filter_user_id db u :
  Store.users_pk db → u ∈ Store.users db →
  head (filter (λ v, User.id v = User.id u) (Store.users db)) = Some u.
Proof. intros Hu Hin. by apply (head_filter_unique User.id). Qed.

Section Login.
Import Security.
Variable hs256 : string → Claims.t → string.
Variable secret : string.
Variable pwd_context_verify : string → string → bool.

Lemma login_user_accepts utcnow password db u :
  Store.email_unique db → u ∈ Store.users db →
  pwd_context_verify password (User.hashed_password u) = true →
  Api.login_user hs256 secret pwd_context_verify utcnow (User.email u) password
    (Api.open_session db)
  = (Api.Return
       (Api.LoginResponse.mk
          (jwt_encode hs256 (Identity.login_claims utcnow u) secret) "bearer"),
     Api.mkSession db [Api.users_query]).
Proof.
  intros Huniq Hin Hpw.
  unfold Api.login_user, mbind, Api.M_bind, Api.storage.
  cbn [Api.db Api.open_session Api.accesses].
  rewrite head_filter_user_email by done.
  unfold verify_password. by rewrite Hpw.
Qed.

Lemma login_user_refuses utcnow email password db :
  (∀ u, u ∈ Store.users db → User.email u = email →
        pwd_context_verify password (User.hashed_password u) = false) →
  Api.login_user hs256 secret pwd_context_verify utcnow email password
    (Api.open_session db)
  = (Api.Raise (Api.HTTPException 401 "Incorrect email or password"),
     Api.mkSession db [Api.users_query]).
Proof.
  intros Hno.
  unfold Api.login_user, mbind, Api.M_bind, Api.storage.
  cbn [Api.db Api.open_session Api.accesses].
  destruct (head (filter (λ u, User.email u = email) (Store.users db)))
    as [u|] eqn:E; [|done].
  apply head_filter_elem_of in E as [Hin He].
  unfold verify_password. by rewrite (Hno u).
Qed.

End Login.

Lemma get_current_user_found db u token_data :
  Store.users_pk db → u ∈ Store.users db →
  Security.Claims.sub token_data ≫= Uuid.UUID = Some (User.id u) →
  Api.get_current_user token_data (Api.open_session db)
  = (Api.Return (user_from_attributes u), Api.mkSession db [Api.users_query]).
Proof.
  intros Hpk Hin Hsub. unfold Api.get_current_user. rewrite Hsub.
  unfold mbind, Api.M_bind, Api.storage.
  cbn [Api.db Api.open_session Api.accesses].
  by rewrite head_filter_user_id.
Qed.

Lemma create_test_user_existing pwd_context_hash e salt db :
  "test@example.com" ∈ (User.email <$> Store.users db) →
  CreateTestUser.create_test_user pwd_context_hash e salt db
  = Committed (db, "Test user 'test@example.com' already exists.").
Proof.
  intros Hin. unfold CreateTestUser.create_test_user.
  destruct (head (filter (λ u, User.email u = "test@example.com") (Store.users db)))
    as [u|] eqn:E; [done|].
  by apply head_filter_email in E.
Qed.

(** ** The service on the caller's own rows *)

(** X1: deleting a stored task of the caller succeeds, leaves the users
    table as it was and removes that row and no other, the order of the rest
    kept; afterwards nobody finds the task, a second deletion reports
    [False] and changes nothing, and every other row is still found by its
    owner. *)
Theorem delete_removes_only_that_task
    (db : Store.t) (owner : UUID) (T : Task.t) :
  Store.tasks_pk db →
  T ∈ Store.tasks db →
  Task.user_id T = owner →
  ∃ db',
    TaskService.delete_task db owner (Task.id T) = (db', true)
    ∧ Store.users db' = Store.users db
    ∧ Store.tasks db' = filter (λ r, r ≠ T) (Store.tasks db)
    ∧ (∀ u, TaskService.get_task_by_id db' u (Task.id T) = None)
    ∧ TaskService.delete_task db' owner (Task.id T) = (db', false)
    ∧ (∀ r, r ∈ Store.tasks db → r ≠ T →
         TaskService.get_task_by_id db' (Task.user_id r) (Task.id r) = Some r).
Proof.
  intros Hpk HT <-. exists (Store.delete_row db T).
  assert (Store.tasks (Store.delete_row db T)
          = filter (λ r, r ≠ T) (Store.tasks db)) as Htasks.
  { unfold Store.delete_row. cbn [Store.tasks]. by apply filter_not_row. }
  assert (Store.tasks_pk (Store.delete_row db T)) as Hpk'.
  { unfold Store.tasks_pk. rewrite Htasks. by apply NoDup_fmap_filter. }
  assert (∀ u, TaskService.get_task_by_id (Store.delete_row db T) u (Task.id T)
               = None) as Hgone.
  { intros u. apply head_filter_None. intros r Hr [_ Hid].
    rewrite Htasks in Hr. apply list_elem_of_filter in Hr as [Hne Hr].
    apply Hne. by apply (NoDup_fmap_elem_of_eq Task.id (Store.tasks db)). }
  split_and!; try done.
  - unfold TaskService.delete_task. by rewrite get_task_by_id_own.
  - unfold TaskService.delete_task. by rewrite Hgone.
  - intros r Hr Hne. apply get_task_by_id_own; [done|].
    rewrite Htasks. by apply list_elem_of_filter.
Qed.

Lemma delete_removes_only_that_task_witness :
  ∃ db',
    TaskService.delete_task Sample.db Sample.alice 101 = (db', true)
    ∧ Store.users db' = Store.users Sample.db
    ∧ Store.tasks db' = filter (λ r, r ≠ Sample.t1) (Store.tasks Sample.db)
    ∧ (∀ u, TaskService.get_task_by_id db' u 101 = None)
    ∧ TaskService.delete_task db' Sample.alice 101 = (db', false)
    ∧ (∀ r, r ∈ Store.tasks Sample.db → r ≠ Sample.t1 →
         TaskService.get_task_by_id db' (Task.user_id r) (Task.id r) = Some r).
Proof.
  apply (delete_removes_only_that_task Sample.db Sample.alice Sample.t1).
  - apply (wf_row Sample.db Sample.t1 sample_db_wf). cbn. left.
  - cbn. left.
  - reflexivity.
Defined.

(** X2: setting the completion of a stored task of the caller succeeds; the
    returned row is the stored one with [completed] set and, only when that
    changes the value, [updated_at] at the clock reading; in the table the
    returned row stands for the stored one, every other row is as before and
    the others keep their order; the row itself is where it was when the value
    does not change or the engine updates in place (otherwise the engine
    decides where a scan meets it); repeating the call with the same value
    later returns the same row and leaves the store as it is. *)
Theorem toggle_sets_completion_once
    (db : Store.t) (now later : DateTime) (owner : UUID) (T : Task.t) (c : bool) :
  Store.wf db →
  T ∈ Store.tasks db →
  Task.user_id T = owner →
  ∃ db' task,
    TaskService.toggle_task_completion db now owner (Task.id T) c
    = Committed (db', Some task)
    ∧ TaskObj.row task
      = (if decide (Task.completed T = Some c) then T
         else Task.set_updated_at now (Task.set_completed (Some c) T))
    ∧ Store.users db' = Store.users db
    ∧ Store.tasks db' ≡ₚ Updates.replaced T (TaskObj.row task) (Store.tasks db)
    ∧ filter (λ r, Task.id r ≠ Task.id T) (Store.tasks db')
      = filter (λ r, Task.id r ≠ Task.id T) (Store.tasks db)
    ∧ (Engine.update_in_place (Store.engine db) = true
       ∨ Task.completed T = Some c →
       Store.tasks db' = Updates.replaced T (TaskObj.row task) (Store.tasks db))
    ∧ TaskService.toggle_task_completion db' later owner (Task.id T) c
      = Committed (db', Some task).
Proof.
  intros Hwf HT <-.
  destruct (toggle_own db now T c Hwf HT) as (db' & Heq & Hleaves).
  pose proof Hleaves
    as (Hwf' & Heng & Husers & Htasks & Hperm & Hplace & Hothers & Hin).
  assert (Flush.row now T (Task.set_completed (Some c) T)
          = (if decide (Task.completed T = Some c) then T
             else Task.set_updated_at now (Task.set_completed (Some c) T)))
    as Hrow.
  { unfold Flush.row. destruct (decide (Task.completed T = Some c)) as [Hc|Hc].
    - by rewrite decide_True by (by apply set_completed_same).
    - by rewrite decide_False by (by rewrite set_completed_same). }
  set (row := Flush.row now T (Task.set_completed (Some c) T)) in *.
  assert (Task.id row = Task.id T ∧ Task.user_id row = Task.user_id T
          ∧ Task.completed row = Some c) as (Hid & Hu & Hc).
  { rewrite Hrow. by case_decide. }
  exists db', (TaskObj.mk row None). cbn [TaskObj.row].
  split_and!; try done.
  - intros [Hip|Hsame]; [by apply Hplace|].
    rewrite Htasks, decide_True by (by apply set_completed_same).
    destruct (wf_row db T Hwf HT) as (Hpk & _ & _).
    rewrite Hrow, decide_True by done. by rewrite replaced_same.
  - destruct (toggle_own db' later row c Hwf' Hin) as (db'' & Heq' & Hleaves').
    rewrite Hid, Hu in Heq'. rewrite Heq'.
    destruct Hleaves' as (_ & Heng' & Husers' & Htasks' & _).
    assert (Task.set_completed (Some c) row = row) as Hsame
      by (by apply set_completed_same).
    rewrite decide_True in Htasks' by done.
    unfold Flush.row. rewrite decide_True by done.
    do 3 f_equal. destruct db', db''; cbn in *; by subst.
Qed.

Lemma toggle_sets_completion_once_witness :
  ∃ db' task,
    TaskService.toggle_task_completion Sample.pg 1000 Sample.alice 101 true
    = Committed (db', Some task)
    ∧ TaskObj.row task
      = Task.mk 101 Sample.alice (Some "buy milk") None (Some true) (Some "low")
          20 1000
    ∧ Store.users db' = Store.users Sample.pg
    ∧ Store.tasks db'
      ≡ₚ Updates.replaced Sample.t1 (TaskObj.row task) (Store.tasks Sample.pg)
    ∧ filter (λ r, Task.id r ≠ 101) (Store.tasks db') = [Sample.t2; Sample.t3]
    ∧ TaskService.toggle_task_completion db' 2000 Sample.alice 101 true
      = Committed (db', Some task).
Proof.
  destruct (toggle_sets_completion_once Sample.pg 1000 2000 Sample.alice
              Sample.t1 true)
    as (db' & task & H1 & H2 & H3 & H4 & H5 & _ & H7).
  - unfold Store.wf, Store.users_pk, Store.email_unique, Store.users_fit,
      Store.tasks_pk, Store.tasks_fit, Store.title_not_null, Store.owner_fk.
    split_and!; compute_done.
  - cbn. left.
  - reflexivity.
  - exists db', task. split_and!; try done.
Defined.

(** X3: creating a task with a valid body for a stored user, with a fresh
    identifier, succeeds; the new row carries the caller as owner, the
    submitted title and completion, priority ["medium"] when none was
    submitted, and the clock reading in both timestamps; the owner then finds
    it by its identifier and at the end of the unfiltered listing; lookups of
    every other identifier and the listings of every other user are as
    before. *)
Theorem created_task_is_found_and_listed
    (db : Store.t) (new_id : UUID) (now : DateTime) (owner : UUID)
    (data : TaskCreate.t) :
  TaskCreate.valid data →
  owner ∈ (User.id <$> Store.users db) →
  new_id ∉ (Task.id <$> Store.tasks db) →
  ∃ db' task,
    TaskService.create_task db new_id now owner data = Committed (db', task)
    ∧ TaskObj.row task
      = Task.mk new_id owner (Some (TaskCreate.title data))
          (TaskCreate.description data) (Some (TaskCreate.completed data))
          (Some (default "medium" (TaskCreate.priority data))) now now
    ∧ TaskService.get_task_by_id db' owner new_id = Some (TaskObj.row task)
    ∧ (∀ u t, t ≠ new_id →
         TaskService.get_task_by_id db' u t = TaskService.get_task_by_id db u t)
    ∧ TaskService.get_tasks_by_user db' owner None None
      = TaskService.get_tasks_by_user db owner None None ++ [TaskObj.row task]
    ∧ (∀ u, u ≠ owner → Views.same_for u db db').
Proof.
  intros Hv Ho Hnew. eexists _, _.
  split; [by apply create_task_succeeds|].
  cbn [TaskObj.row TaskObj.loaded]. split; [done|].
  set (row := Task.mk _ _ _ _ _ _ _ _). split_and!.
  - unfold TaskService.get_task_by_id. cbn [Store.tasks].
    rewrite filter_app.
    assert (filter (λ r, Task.user_id r = owner ∧ Task.id r = new_id)
              (Store.tasks db) = []) as ->.
    { apply head_None, head_filter_None. intros r Hr [_ Hid].
      apply Hnew, list_elem_of_fmap. eauto. }
    by rewrite filter_cons_True.
  - intros u t Ht. unfold TaskService.get_task_by_id. cbn [Store.tasks].
    rewrite filter_app, filter_cons_False by (intros [_ ?]; by apply Ht).
    by rewrite filter_nil, app_nil_r.
  - rewrite !get_tasks_by_user_unfiltered. cbn [Store.tasks].
    by rewrite filter_app, filter_cons_True.
  - intros u Hu. apply same_for_filter; [done|]. cbn [Store.tasks].
    rewrite filter_app, filter_cons_False by (intros ?; by apply Hu).
    by rewrite filter_nil, app_nil_r.
Qed.

Lemma created_task_is_found_and_listed_witness :
  ∃ db' task,
    TaskService.create_task Sample.db 555 1000 Sample.alice
      (TaskCreate.mk "call mum" None false None None)
    = Committed (db', task)
    ∧ TaskObj.row task
      = Task.mk 555 Sample.alice (Some "call mum") None (Some false)
          (Some "medium") 1000 1000
    ∧ TaskService.get_task_by_id db' Sample.alice 555 = Some (TaskObj.row task)
    ∧ (∀ u t, t ≠ 555 →
         TaskService.get_task_by_id db' u t
         = TaskService.get_task_by_id Sample.db u t)
    ∧ TaskService.get_tasks_by_user db' Sample.alice None None
      = TaskService.get_tasks_by_user Sample.db Sample.alice None None
        ++ [TaskObj.row task]
    ∧ (∀ u, u ≠ Sample.alice → Views.same_for u Sample.db db').
Proof.
  apply (created_task_is_found_and_listed Sample.db 555 1000 Sample.alice
           (TaskCreate.mk "call mum" None false None None)).
  - unfold TaskCreate.valid. cbn. split; [lia|done].
  - cbn. left.
  - cbn. compute_done.
Defined.

(** X4: after an update of a stored task of the caller with a valid body
    that does not null the title, the owner reads the returned row back by
    its identifier; lookups of every other identifier give what they gave
    before; the table holds the same identifiers, the rows other than the
    updated one in the order they had, and on an engine that updates in place
    all identifiers in the order they had. *)
Theorem updated_task_is_read_back
    (db : Store.t) (now : DateTime) (owner : UUID) (T : Task.t)
    (d : TaskUpdate.t) :
  Store.wf db →
  T ∈ Store.tasks db →
  Task.user_id T = owner →
  TaskUpdate.valid d →
  TaskUpdate.title d ≠ Some None →
  ∃ db' task,
    TaskService.update_task db now owner (Task.id T) d = Committed (db', Some task)
    ∧ TaskService.get_task_by_id db' owner (Task.id T) = Some (TaskObj.row task)
    ∧ (∀ u t, t ≠ Task.id T →
         TaskService.get_task_by_id db' u t = TaskService.get_task_by_id db u t)
    ∧ Task.id <$> Store.tasks db' ≡ₚ Task.id <$> Store.tasks db
    ∧ filter (λ r, Task.id r ≠ Task.id T) (Store.tasks db')
      = filter (λ r, Task.id r ≠ Task.id T) (Store.tasks db)
    ∧ (Engine.update_in_place (Store.engine db) = true →
       Task.id <$> Store.tasks db' = Task.id <$> Store.tasks db).
Proof.
  intros Hwf HT <- Hv Ht.
  destruct (update_task_own db now T d Hwf HT Hv Ht) as (db' & Heq & Hleaves).
  pose proof Hleaves
    as (Hwf' & Heng & Husers & Htasks & Hperm & Hplace & Hothers & Hin).
  eexists _, _. split; [exact Heq|]. cbn [TaskObj.row].
  assert (Task.id (Flush.row now T (Updates.merged d T)) = Task.id T) as Hid
    by (unfold Flush.row; by case_decide).
  split_and!; try done.
  - by apply (get_task_by_id_flushed db now T (Updates.merged d T)).
  - intros u t Hne. by apply (get_task_by_id_other db db' T).
  - by rewrite Hperm, replaced_ids.
  - intros Hip. by rewrite Hplace, replaced_ids.
Qed.

Lemma updated_task_is_read_back_witness :
  ∃ db' task,
    TaskService.update_task Sample.pg 1000 Sample.alice 101
      (TaskUpdate.mk None None (Some (Some true)) (Some (Some "high")) None)
    = Committed (db', Some task)
    ∧ TaskService.get_task_by_id db' Sample.alice 101 = Some (TaskObj.row task)
    ∧ (∀ u t, t ≠ 101 →
         TaskService.get_task_by_id db' u t
         = TaskService.get_task_by_id Sample.pg u t)
    ∧ Task.id <$> Store.tasks db' ≡ₚ [101; 102; 103]
    ∧ filter (λ r, Task.id r ≠ 101) (Store.tasks db') = [Sample.t2; Sample.t3].
Proof.
  destruct (updated_task_is_read_back Sample.pg 1000 Sample.alice Sample.t1
              (TaskUpdate.mk None None (Some (Some true)) (Some (Some "high")) None))
    as (db' & task & H1 & H2 & H3 & H4 & H5 & _).
  - unfold Store.wf, Store.users_pk, Store.email_unique, Store.users_fit,
      Store.tasks_pk, Store.tasks_fit, Store.title_not_null, Store.owner_fk.
    split_and!; compute_done.
  - cbn. left.
  - reflexivity.
  - unfold TaskUpdate.valid. cbn. split; [done|]. right. by right.
  - cbn. discriminate.
  - exists db', task. split_and!; try done.
Defined.

(** On PostgreSQL the updated row is listed after the others. *)
Example update_on_postgresql_reorders_the_listing :
  ∃ db' task,
    TaskService.update_task Sample.pg 1000 Sample.alice 101
      (TaskUpdate.mk None None (Some (Some true)) None None)
    = Committed (db', Some task)
    ∧ Task.id <$> TaskService.get_tasks_by_user Sample.pg Sample.alice None None
      = [101; 102]
    ∧ Task.id <$> TaskService.get_tasks_by_user db' Sample.alice None None
      = [102; 101].
Proof. eexists _, _. split; [reflexivity|]. split; reflexivity. Qed.

(** ** Listings *)

(** X5: whatever the filters, a listing made for a user holds only stored
    rows of that user and is a sublist of the user's unfiltered listing; no
    row is in both the ["completed"] and the ["incomplete"] listing; a row
    whose [completed] is null is in neither; and under any priority filter
    the rows split into the completed, the incomplete and those with a null
    [completed]. *)
Theorem listing_is_owned_and_partitioned (db : Store.t) (owner : UUID) :
  (∀ status priority r,
     r ∈ TaskService.get_tasks_by_user db owner status priority →
     r ∈ Store.tasks db ∧ Task.user_id r = owner)
  ∧ (∀ status priority,
       TaskService.get_tasks_by_user db owner status priority
       `sublist_of` TaskService.get_tasks_by_user db owner None None)
  ∧ (∀ priority r,
       r ∈ TaskService.get_tasks_by_user db owner (Some "completed") priority →
       r ∉ TaskService.get_tasks_by_user db owner (Some "incomplete") priority)
  ∧ (∀ priority r,
       Task.completed r = None →
       (r ∉ TaskService.get_tasks_by_user db owner (Some "completed") priority)
       ∧ (r ∉ TaskService.get_tasks_by_user db owner (Some "incomplete") priority))
  ∧ (∀ priority,
       length (TaskService.get_tasks_by_user db owner None priority)
       = (length (TaskService.get_tasks_by_user db owner (Some "completed") priority)
          + length (TaskService.get_tasks_by_user db owner (Some "incomplete") priority)
          + length (filter (λ r, Task.completed r = None)
                      (TaskService.get_tasks_by_user db owner None priority)))%nat).
Proof.
  assert (∀ priority r c,
            r ∈ TaskService.get_tasks_by_user db owner
                  (Some (if c : bool then "completed" else "incomplete")) priority →
            Task.completed r = Some c) as Hstatus.
  { intros priority r c. rewrite get_tasks_by_user_filters.
    intros [_ [Hs _]%list_elem_of_filter]%list_elem_of_filter. by destruct c. }
  split_and!.
  - intros status priority r. rewrite get_tasks_by_user_filters.
    intros [_ [_ Hr%list_elem_of_filter]%list_elem_of_filter]%list_elem_of_filter.
    tauto.
  - intros status priority.
    rewrite get_tasks_by_user_filters, get_tasks_by_user_unfiltered.
    etrans; [apply sublist_filter|]. apply sublist_filter.
  - intros priority r Hc%(Hstatus priority r true) Hi%(Hstatus priority r false).
    congruence.
  - intros priority r Hnull.
    split; [intros Hc%(Hstatus priority r true)
           |intros Hi%(Hstatus priority r false)]; congruence.
  - intros priority. rewrite !get_tasks_by_user_filters, !filter_status.
    cbn [TaskService.truthy]. rewrite decide_True by done.
    rewrite decide_False, decide_True by done.
    apply length_by_completion.
Qed.

(** ** One user's operations and another user's rows *)

(** X6: whatever user [A] does through the service (create, update, delete
    or set the completion of a task), every listing and every lookup made for
    another user [B] gives what it gave before, and the users table is as it
    was. *)
Theorem other_users_rows_are_untouched (db : Store.t) (A B : UUID) :
  Store.tasks_pk db →
  A ≠ B →
  (∀ new_id now data db' task,
     TaskService.create_task db new_id now A data = Committed (db', task) →
     Views.same_for B db db')
  ∧ (∀ now task_id d db' task,
       TaskService.update_task db now A task_id d = Committed (db', task) →
       Views.same_for B db db')
  ∧ (∀ task_id, Views.same_for B db (TaskService.delete_task db A task_id).1)
  ∧ (∀ now task_id c db' task,
       TaskService.toggle_task_completion db now A task_id c
       = Committed (db', task) →
       Views.same_for B db db').
Proof.
  intros Hpk HAB. split_and!.
  - intros new_id now data db' task. unfold TaskService.create_task, Store.insert_task.
    repeat case_decide; intros [= <- <-].
    apply same_for_filter; [done|]. cbn [Store.tasks].
    rewrite filter_app, filter_cons_False by done.
    by rewrite filter_nil, app_nil_r.
  - intros now task_id d db' task. unfold TaskService.update_task.
    destruct (TaskService.get_task_by_id db A task_id) as [old|] eqn:E.
    + apply get_task_by_id_Some in E as (Hold & Hu & _).
      cbv zeta. rewrite foldl_setattr.
      apply commit_refresh_same_for; try done. congruence.
    + intros [= <- <-]. apply same_for_refl.
  - intros task_id. unfold TaskService.delete_task.
    destruct (TaskService.get_task_by_id db A task_id) as [old|] eqn:E;
      [|apply same_for_refl].
    apply get_task_by_id_Some in E as (Hold & Hu & _).
    apply same_for_filter; [done|]. cbn [fst Store.delete_row Store.tasks].
    apply filter_user_deleted; try done. congruence.
  - intros now task_id c db' task. unfold TaskService.toggle_task_completion.
    destruct (TaskService.get_task_by_id db A task_id) as [old|] eqn:E.
    + apply get_task_by_id_Some in E as (Hold & Hu & _).
      apply commit_refresh_same_for; try done. congruence.
    + intros [= <- <-]. apply same_for_refl.
Qed.

Lemma other_users_rows_are_untouched_witness :
  Views.same_for Sample.bob Sample.db
    (TaskService.delete_task Sample.db Sample.alice 101).1.
Proof.
  apply (other_users_rows_are_untouched Sample.db Sample.alice Sample.bob).
  - apply (wf_row Sample.db Sample.t1 sample_db_wf). cbn. left.
  - discriminate.
Defined.

(** ** The constraints of the tables *)

(** X7: on every engine, also one that checks neither foreign keys nor
    column lengths, a store that satisfies the constraints declared for the two
    tables (primary keys and emails without duplicates, values within the
    column lengths, titles not null, every task owned by a stored user) still
    satisfies them after: the creation of a task with a body that the request
    schema accepts, for a stored user; an update with a body that the request
    schema accepts; a deletion; a change of completion; and a registration
    whose email and name fit their columns. *)
Theorem operations_preserve_constraints (db : Store.t) :
  Store.wf db →
  (∀ new_id now owner data db' task,
     TaskCreate.valid data →
     owner ∈ (User.id <$> Store.users db) →
     TaskService.create_task db new_id now owner data = Committed (db', task) →
     Store.wf db')
  ∧ (∀ now owner task_id d db' task,
       TaskUpdate.valid d →
       TaskService.update_task db now owner task_id d = Committed (db', task) →
       Store.wf db')
  ∧ (∀ owner task_id, Store.wf (TaskService.delete_task db owner task_id).1)
  ∧ (∀ now owner task_id c db' task,
       TaskService.toggle_task_completion db now owner task_id c
       = Committed (db', task) →
       Store.wf db')
  ∧ (∀ pwd_context_hash e salt data,
       Registration.fits data →
       Store.wf
         (Api.db (Api.register_user pwd_context_hash e salt data
                    (Api.open_session db)).2)).
Proof.
  intros Hwf. destruct (operations_keep_wf db Hwf) as (Hc & Hu & Hd & Ht).
  split_and!; try done.
  intros pwd_context_hash e salt data Hfits. by apply register_user_wf.
Qed.

Lemma operations_preserve_constraints_witness :
  Store.wf (TaskService.delete_task Sample.db Sample.alice 101).1
  ∧ Store.wf
      (Api.db (Api.register_user Registration.toy_hash
                 (Registration.env Registration.carol)
                 (Registration.salt Registration.carol)
                 (Registration.data Registration.carol)
                 (Api.open_session Sample.db)).2).
Proof.
  destruct (operations_preserve_constraints Sample.db sample_db_wf)
    as (_ & _ & Hd & _ & Hr).
  split; [apply Hd|apply Hr].
  unfold Registration.fits. cbn. lia.
Defined.

(** Without a stored owner the default engine stores a task that no user
    owns, where PostgreSQL refuses it. *)
Example task_of_unknown_owner :
  (∃ db' task,
     TaskService.create_task Sample.db 555 1000 999
       (TaskCreate.mk "call mum" None false None None)
     = Committed (db', task)
     ∧ ¬ Store.owner_fk db')
  ∧ TaskService.create_task Sample.pg 555 1000 999
      (TaskCreate.mk "call mum" None false None None)
    = Rejected IntegrityError.
Proof.
  split; [|reflexivity]. eexists _, _. split; [reflexivity|].
  unfold Store.owner_fk. cbn. rewrite !Forall_cons.
  intros (_ & _ & _ & Hin & _). revert Hin. compute_done.
Qed.

(** ** The task endpoints past the identity checks *)

(** X8: a request that names a task (read, update, delete or set the
    completion), from the user named by the path and with identifiers that
    parse, answers 404 "Task not found" when the repository finds no such
    task for that user; the repository was called once, for that user and
    task, and the store is as it was. *)
Theorem missing_task_is_404_everywhere
    (e : Api.env) (req : Api.request) (token_data : Security.Claims.t)
    (db : Store.t) (task_id : string) (u t : UUID) :
  Api.path_task_id req = Some task_id →
  Security.Claims.sub token_data = Some (Api.path_user_id req) →
  Uuid.UUID (Api.path_user_id req) = Some u →
  Uuid.UUID task_id = Some t →
  TaskService.get_task_by_id db u t = None →
  Api.route e req token_data (Api.open_session db)
  = (Api.Raise (Api.HTTPException 404 "Task not found"),
     Api.mkSession db [Calls.of_request req u t]).
Proof.
  intros Hpath Hsub Hu Ht Hnone.
  destruct (not_found_leaves_store db (Api.now e) u t
              (match req with Api.PUT_task _ _ d => d | _ => Updates.no_fields end)
              (match req with Api.PATCH_complete _ _ c => c | _ => false end)
              Hnone) as (Hupd & Hdel & Htog).
  destruct req; simplify_eq/=; unfold Api.route, fmap, Api.M_fmap.
  - rewrite (get_task_authorised _ _ u t) by done. cbn. by rewrite Hnone.
  - rewrite (update_task_authorised _ _ u t) by done. cbn. by rewrite Hupd.
  - rewrite (delete_task_authorised _ _ u t) by done. cbn. by rewrite Hdel.
  - rewrite (toggle_task_completion_authorised _ _ u t) by done. cbn.
    by rewrite Htog.
Qed.

Lemma missing_task_is_404_everywhere_witness :
  Api.route Sample.env
    (Api.PATCH_complete Sample.alice_id "00000000-0000-0000-0000-000000000067" true)
    (Sample.claims_of Sample.alice_id) (Api.open_session Sample.db)
  = (Api.Raise (Api.HTTPException 404 "Task not found"),
     Api.mkSession Sample.db [Api.toggle_task_completion_call Sample.alice 103]).
Proof.
  apply (missing_task_is_404_everywhere Sample.env
           (Api.PATCH_complete Sample.alice_id
              "00000000-0000-0000-0000-000000000067" true)
           (Sample.claims_of Sample.alice_id) Sample.db
           "00000000-0000-0000-0000-000000000067" Sample.alice 103).
  - reflexivity.
  - reflexivity.
  - vm_compute. reflexivity.
  - vm_compute. reflexivity.
  - vm_compute. reflexivity.
Defined.

(** X9: an update whose body sets the title to null passes the validation of
    the body, is refused by the store when the change is committed, and the
    endpoint answers 500; the task and the rest of the store are as they
    were. *)
Theorem null_title_update_is_refused
    (e : Api.env) (user_id task_id : string) (T : Task.t) (d : TaskUpdate.t)
    (token_data : Security.Claims.t) (db : Store.t) :
  Store.wf db →
  T ∈ Store.tasks db →
  Security.Claims.sub token_data = Some user_id →
  Uuid.UUID user_id = Some (Task.user_id T) →
  Uuid.UUID task_id = Some (Task.id T) →
  TaskUpdate.valid d →
  TaskUpdate.title d = Some None →
  TaskService.update_task db (Api.now e) (Task.user_id T) (Task.id T) d
  = Rejected IntegrityError
  ∧ Api.route e (Api.PUT_task user_id task_id d) token_data (Api.open_session db)
    = (Api.Raise Api.SQLAlchemyError,
       Api.mkSession db [Api.update_task_call (Task.user_id T) (Task.id T)])
  ∧ Api.status_code
      (Api.route e (Api.PUT_task user_id task_id d) token_data
         (Api.open_session db)).1 = 500.
Proof.
  intros Hwf HT Hsub Hu Ht Hv Hnull.
  destruct (wf_row db T Hwf HT) as (Hpk & Hfit & Hnn).
  assert (TaskService.update_task db (Api.now e) (Task.user_id T) (Task.id T) d
          = Rejected IntegrityError) as Hupd.
  { unfold TaskService.update_task. rewrite get_task_by_id_own by done.
    cbv zeta. rewrite foldl_setattr, commit_refresh_loaded by done.
    cbn [TaskObj.row TaskObj.tags].
    assert (Task.title (Updates.merged d T) = None) as Hnone
      by (unfold Updates.merged; cbn; by rewrite Hnull).
    rewrite decide_False.
    2:{ intros Heq. rewrite Heq in Hnone. destruct Hnn as [x Hx]. congruence. }
    rewrite decide_False by (intros Hn; apply Hn; by apply merged_fits).
    rewrite decide_True; [done|].
    unfold Task.not_null. rewrite Hnone. by intros [x Hx]. }
  split; [done|].
  assert (Api.route e (Api.PUT_task user_id task_id d) token_data
            (Api.open_session db)
          = (Api.Raise Api.SQLAlchemyError,
             Api.mkSession db [Api.update_task_call (Task.user_id T) (Task.id T)]))
    as Hroute.
  { unfold Api.route, fmap, Api.M_fmap.
    rewrite (update_task_authorised _ _ (Task.user_id T) (Task.id T)) by done.
    cbn. by rewrite Hupd. }
  by rewrite Hroute.
Qed.

Lemma null_title_update_is_refused_witness :
  TaskService.update_task Sample.db 1000 Sample.alice 101
    (TaskUpdate.mk (Some None) None None None None)
  = Rejected IntegrityError
  ∧ Api.route Sample.env
      (Api.PUT_task Sample.alice_id Sample.t1_id
         (TaskUpdate.mk (Some None) None None None None))
      (Sample.claims_of Sample.alice_id) (Api.open_session Sample.db)
    = (Api.Raise Api.SQLAlchemyError,
       Api.mkSession Sample.db [Api.update_task_call Sample.alice 101])
  ∧ Api.status_code
      (Api.route Sample.env
         (Api.PUT_task Sample.alice_id Sample.t1_id
            (TaskUpdate.mk (Some None) None None None None))
         (Sample.claims_of Sample.alice_id) (Api.open_session Sample.db)).1 = 500.
Proof.
  apply (null_title_update_is_refused Sample.env Sample.alice_id Sample.t1_id
           Sample.t1 (TaskUpdate.mk (Some None) None None None None)
           (Sample.claims_of Sample.alice_id) Sample.db).
  - apply sample_db_wf.
  - cbn. left.
  - reflexivity.
  - vm_compute. reflexivity.
  - vm_compute. reflexivity.
  - unfold TaskUpdate.valid. cbn. done.
  - reflexivity.
Defined.

(** X10: an update whose body sets [completed] to null is committed, with
    the other submitted fields, and then answers 500 because the response
    model refuses the row; from then on reading that task and the unfiltered
    listing of its owner answer 500 as well. *)
Theorem null_completed_breaks_reads
    (e e' : Api.env) (user_id task_id : string) (T : Task.t) (d : TaskUpdate.t)
    (token_data : Security.Claims.t) (db : Store.t) :
  Store.wf db →
  T ∈ Store.tasks db →
  Security.Claims.sub token_data = Some user_id →
  Uuid.UUID user_id = Some (Task.user_id T) →
  Uuid.UUID task_id = Some (Task.id T) →
  TaskUpdate.valid d →
  TaskUpdate.title d ≠ Some None →
  TaskUpdate.completed d = Some None →
  ∃ db' r,
    Api.route e (Api.PUT_task user_id task_id d) token_data (Api.open_session db)
    = (Api.Raise Api.ValidationError,
       Api.mkSession db' [Api.update_task_call (Task.user_id T) (Task.id T)])
    ∧ TaskService.get_task_by_id db' (Task.user_id T) (Task.id T) = Some r
    ∧ Task.completed r = None
    ∧ Task.title r = default (Task.title T) (TaskUpdate.title d)
    ∧ Task.priority r = default (Task.priority T) (TaskUpdate.priority d)
    ∧ Api.route e' (Api.GET_task user_id task_id) token_data (Api.open_session db')
      = (Api.Raise Api.ValidationError,
         Api.mkSession db' [Api.get_task_by_id_call (Task.user_id T) (Task.id T)])
    ∧ Api.route e' (Api.GET_tasks user_id None None) token_data
        (Api.open_session db')
      = (Api.Raise Api.ValidationError,
         Api.mkSession db' [Api.get_tasks_by_user_call (Task.user_id T)]).
Proof.
  intros Hwf HT Hsub Hu Ht Hv Htitle Hnull.
  destruct (update_task_own db (Api.now e) T d Hwf HT Hv Htitle)
    as (db' & Hupd & Hleaves).
  pose proof (get_task_by_id_flushed db (Api.now e) T (Updates.merged d T) db'
                eq_refl eq_refl Hleaves) as Hget.
  destruct Hleaves as (_ & _ & _ & _ & _ & _ & _ & Hin).
  set (row := Flush.row (Api.now e) T (Updates.merged d T)) in *.
  assert (Task.id row = Task.id T ∧ Task.user_id row = Task.user_id T
          ∧ Task.completed row = None
          ∧ Task.title row = default (Task.title T) (TaskUpdate.title d)
          ∧ Task.priority row = default (Task.priority T) (TaskUpdate.priority d))
    as (Hid & Howner & Hc & Htl & Hpr).
  { subst row. unfold Flush.row. case_decide as Hsame; [rewrite <- Hsame|];
      unfold Updates.merged; cbn; rewrite Hnull;
      by destruct (TaskUpdate.title d), (TaskUpdate.priority d). }
  assert (task_from_attributes (TaskObj.mk row (TaskUpdate.tags d)) = None
          ∧ task_from_attributes (TaskObj.loaded row) = None) as [Hresp Hresp'].
  { unfold task_from_attributes. cbn [TaskObj.row TaskObj.loaded].
    rewrite Hc. by destruct (Task.title row). }
  exists db', row. split_and!; try done.
  - unfold Api.route, fmap, Api.M_fmap.
    rewrite (update_task_authorised _ _ (Task.user_id T) (Task.id T)) by done.
    cbn [Api.db Api.open_session Api.accesses]. rewrite Hupd.
    unfold Api.task_response. by rewrite Hresp.
  - unfold Api.route, fmap, Api.M_fmap.
    rewrite (get_task_authorised _ _ (Task.user_id T) (Task.id T)) by done.
    cbn [Api.db Api.open_session Api.accesses]. rewrite Hget.
    unfold Api.task_response. by rewrite Hresp'.
  - unfold Api.route, fmap, Api.M_fmap.
    rewrite (get_tasks_authorised _ (Task.user_id T)) by done.
    cbn [Api.db Api.open_session Api.accesses].
    unfold Api.tasks_response. rewrite mapM_None_2; [done|].
    apply Exists_exists. exists row. split; [|done].
    rewrite get_tasks_by_user_unfiltered. by apply list_elem_of_filter.
Qed.

Lemma null_completed_breaks_reads_witness :
  ∃ db' r,
    Api.route Sample.env
      (Api.PUT_task Sample.alice_id Sample.t1_id
         (TaskUpdate.mk None None (Some None) None None))
      (Sample.claims_of Sample.alice_id) (Api.open_session Sample.db)
    = (Api.Raise Api.ValidationError,
       Api.mkSession db' [Api.update_task_call Sample.alice 101])
    ∧ TaskService.get_task_by_id db' Sample.alice 101 = Some r
    ∧ Task.completed r = None
    ∧ Task.title r = Some "buy milk"
    ∧ Task.priority r = Some "low"
    ∧ Api.route Sample.env (Api.GET_task Sample.alice_id Sample.t1_id)
        (Sample.claims_of Sample.alice_id) (Api.open_session db')
      = (Api.Raise Api.ValidationError,
         Api.mkSession db' [Api.get_task_by_id_call Sample.alice 101])
    ∧ Api.route Sample.env (Api.GET_tasks Sample.alice_id None None)
        (Sample.claims_of Sample.alice_id) (Api.open_session db')
      = (Api.Raise Api.ValidationError,
         Api.mkSession db' [Api.get_tasks_by_user_call Sample.alice]).
Proof.
  apply (null_completed_breaks_reads Sample.env Sample.env Sample.alice_id
           Sample.t1_id Sample.t1 (TaskUpdate.mk None None (Some None) None None)
           (Sample.claims_of Sample.alice_id) Sample.db).
  - apply sample_db_wf.
  - cbn. left.
  - reflexivity.
  - vm_compute. reflexivity.
  - vm_compute. reflexivity.
  - unfold TaskUpdate.valid. cbn. done.
  - discriminate.
  - reflexivity.
Defined.

(** X11: a creation request with a valid body, from the user named by the
    path, for a stored user and with a fresh 128-bit identifier, answers the
    new task: the submitted title, description and completion, priority
    ["medium"] when none was submitted, an empty tag list whatever tags were
    submitted, the caller as owner and the clock reading in both timestamps;
    reading the task by the text of the returned identifier answers the same
    body. *)
Theorem post_then_get_same_body
    (e e' : Api.env) (user_id : string) (u : UUID) (data : TaskCreate.t)
    (token_data : Security.Claims.t) (db : Store.t) :
  TaskCreate.valid data →
  Security.Claims.sub token_data = Some user_id →
  Uuid.UUID user_id = Some u →
  u ∈ (User.id <$> Store.users db) →
  Api.uuid4 e ∉ (Task.id <$> Store.tasks db) →
  0 ≤ Api.uuid4 e < 2 ^ 128 →
  ∃ body db',
    Api.route e (Api.POST_tasks user_id data) token_data (Api.open_session db)
    = (Api.Return (Api.OneTask (Schema.TaskResponse.mk true body)),
       Api.mkSession db' [Api.create_task_call u])
    ∧ body
      = Schema.Task.mk (TaskCreate.title data) (TaskCreate.description data)
          (TaskCreate.completed data)
          (Some (default "medium" (TaskCreate.priority data))) (Some [])
          (Api.uuid4 e) u (Api.now e) (Api.now e)
    ∧ Api.route e' (Api.GET_task user_id (Uuid.str (Api.uuid4 e))) token_data
        (Api.open_session db')
      = (Api.Return (Api.OneTask (Schema.TaskResponse.mk true body)),
         Api.mkSession db' [Api.get_task_by_id_call u (Api.uuid4 e)]).
Proof.
  intros Hv Hsub Hu Howner Hnew Hrange. eexists _, _. split_and!; [|done|].
  - unfold Api.route, fmap, Api.M_fmap.
    rewrite (create_task_authorised _ u) by done.
    cbn [Api.db Api.open_session Api.accesses].
    rewrite create_task_succeeds by done.
    unfold Api.task_response, TaskObj.loaded.
    by rewrite created_row_response.
  - unfold Api.route, fmap, Api.M_fmap.
    rewrite (get_task_authorised _ _ u (Api.uuid4 e))
      by (done || by apply UUID_str).
    cbn [Api.db Api.open_session Api.accesses].
    set (row := Task.mk (Api.uuid4 e) u _ _ _ _ _ _).
    rewrite (get_task_by_id_appended db row Hnew
             : TaskService.get_task_by_id _ u (Api.uuid4 e) = _).
    unfold Api.task_response, TaskObj.loaded. subst row.
    by rewrite created_row_response.
Qed.

Lemma post_then_get_same_body_witness :
  ∃ body db',
    Api.route Sample.env
      (Api.POST_tasks Sample.alice_id
         (TaskCreate.mk "call mum" None false None (Some ["family"])))
      (Sample.claims_of Sample.alice_id) (Api.open_session Sample.db)
    = (Api.Return (Api.OneTask (Schema.TaskResponse.mk true body)),
       Api.mkSession db' [Api.create_task_call Sample.alice])
    ∧ body
      = Schema.Task.mk "call mum" None false (Some "medium") (Some []) 555
          Sample.alice 1000 1000
    ∧ Api.route Sample.env
        (Api.GET_task Sample.alice_id (Uuid.str 555))
        (Sample.claims_of Sample.alice_id) (Api.open_session db')
      = (Api.Return (Api.OneTask (Schema.TaskResponse.mk true body)),
         Api.mkSession db' [Api.get_task_by_id_call Sample.alice 555]).
Proof.
  apply (post_then_get_same_body Sample.env Sample.env Sample.alice_id
           Sample.alice (TaskCreate.mk "call mum" None false None (Some ["family"]))
           (Sample.claims_of Sample.alice_id) Sample.db).
  - unfold TaskCreate.valid. cbn. split; [lia|done].
  - reflexivity.
  - vm_compute. reflexivity.
  - cbn. left.
  - cbn. compute_done.
  - cbn. lia.
Defined.

(** ** Tokens and the bearer check *)

(** X12: a zero [expires_delta] gives the token of the default, seven days;
    a token made with a non-zero [expires_delta] is never accepted at or
    after issuance plus that delta, and is accepted, with the given claims and
    the expiration in whole seconds, at every time that is a second or more
    before it; with a negative delta it is never accepted from its issuance
    on. *)
Theorem token_lifetime_bounds
    (hs256 : string → Security.Claims.t → string) (secret : string)
    (utcnow : DateTime) (data : Security.Claims.t) :
  Security.create_access_token hs256 secret utcnow data (Some 0)
  = Security.create_access_token hs256 secret utcnow data None
  ∧ (∀ delta now,
       delta ≠ 0 →
       is_Some (Security.verify_token hs256 secret now
                  (Security.create_access_token hs256 secret utcnow data
                     (Some delta))) →
       now < utcnow + delta)
  ∧ (∀ delta now,
       delta ≠ 0 →
       now + Security.microseconds ≤ utcnow + delta →
       Security.verify_token hs256 secret now
         (Security.create_access_token hs256 secret utcnow data (Some delta))
       = Some (Security.Claims.set_exp
                 ((utcnow + delta) `div` Security.microseconds) data))
  ∧ (∀ delta now,
       delta < 0 →
       utcnow ≤ now →
       Security.verify_token hs256 secret now
         (Security.create_access_token hs256 secret utcnow data (Some delta))
       = None).
Proof.
  assert (∀ x, x `div` Security.microseconds * Security.microseconds ≤ x
               ∧ x < x `div` Security.microseconds * Security.microseconds
                       + Security.microseconds) as Hdiv.
  { intros x. unfold Security.microseconds.
    pose proof (Z.div_mod x 1000000). pose proof (Z.mod_pos_bound x 1000000). lia. }
  assert (∀ delta now,
            delta ≠ 0 →
            Security.verify_token hs256 secret now
              (Security.create_access_token hs256 secret utcnow data (Some delta))
            = if decide ((utcnow + delta) `div` Security.microseconds
                         * Security.microseconds ≤ now)
              then None
              else Some (Security.Claims.set_exp
                           ((utcnow + delta) `div` Security.microseconds) data))
    as Hverify.
  { intros delta now Hd. unfold Security.create_access_token.
    rewrite decide_True by done. cbv zeta. by rewrite verify_token_encoded. }
  split_and!.
  - done.
  - intros delta now Hd. rewrite Hverify by done.
    case_decide; [by intros [x Hx]|]. intros _.
    pose proof (Hdiv (utcnow + delta)). lia.
  - intros delta now Hd Hnow. rewrite Hverify by done.
    rewrite decide_False; [done|]. pose proof (Hdiv (utcnow + delta)). lia.
  - intros delta now Hd Hnow. rewrite Hverify by lia.
    rewrite decide_True; [done|]. pose proof (Hdiv (utcnow + delta)). lia.
Qed.


(** The scheme is compared as written: a token that would be accepted is
    refused under the scheme ["bearer"]. *)
Example lowercase_scheme_is_refused :
  Api.authenticated_route Tokens.toy_mac "k" 1000
    (Some ("bearer", Security.jwt_encode Tokens.toy_mac
                       (Sample.claims_of Sample.alice_id) "k"))
    Sample.env (Api.GET_tasks Sample.alice_id None None)
    (Api.open_session Sample.db)
  = (Api.Raise (Api.HTTPException 401 "Invalid authentication scheme."),
     Api.open_session Sample.db)
  ∧ Api.status_code
      (Api.authenticated_route Tokens.toy_mac "k" 1000
         (Some ("Bearer", Security.jwt_encode Tokens.toy_mac
                            (Sample.claims_of Sample.alice_id) "k"))
         Sample.env (Api.GET_tasks Sample.alice_id None None)
         (Api.open_session Sample.db)).1 = 200.
Proof. vm_compute. split; reflexivity. Qed.

(** ** Login and the current user *)

(** X14: on a store whose emails are unique, a login with the email of a
    stored user and a password that verifies against the stored hash answers
    a bearer token that carries the text of the user's identifier as subject,
    the email, and an expiration seven days after the request, in whole
    seconds; a login with an email that no user has, or with a password that
    does not verify, answers the same 401; either way the users table is read
    once and nothing is written. *)
Theorem login_checks_stored_password
    (hs256 : string → Security.Claims.t → string) (secret : string)
    (pwd_context_verify : string → string → bool)
    (utcnow : DateTime) (email password : string) (db : Store.t) :
  Store.email_unique db →
  (∀ u, u ∈ Store.users db → User.email u = email →
     pwd_context_verify password (User.hashed_password u) = true →
     Api.login_user hs256 secret pwd_context_verify utcnow email password
       (Api.open_session db)
     = (Api.Return
          (Api.LoginResponse.mk
             (Security.Compact "HS256"
                (Security.Claims.mk (Some (Uuid.str (User.id u))) (Some email)
                   (Some ((utcnow + 7 * 86400 * 1000000) `div` 1000000)))
                (hs256 secret
                   (Security.Claims.mk (Some (Uuid.str (User.id u))) (Some email)
                      (Some ((utcnow + 7 * 86400 * 1000000) `div` 1000000)))))
             "bearer"),
        Api.mkSession db [Api.users_query]))
  ∧ ((∀ u, u ∈ Store.users db → User.email u = email →
        pwd_context_verify password (User.hashed_password u) = false) →
     Api.login_user hs256 secret pwd_context_verify utcnow email password
       (Api.open_session db)
     = (Api.Raise (Api.HTTPException 401 "Incorrect email or password"),
        Api.mkSession db [Api.users_query])).
Proof.
  intros Huniq. split.
  - intros u Hin <- Hpw. by rewrite login_user_accepts.
  - apply login_user_refuses.
Qed.

Lemma login_checks_stored_password_witness :
  Api.login_user Tokens.toy_mac "k" Identity.toy_verify 5000000
    "alice@example.com" "1" (Api.open_session Sample.db)
  = (Api.Return
       (Api.LoginResponse.mk
          (Security.Compact "HS256"
             (Security.Claims.mk (Some Sample.alice_id) (Some "alice@example.com")
                (Some 604805))
             ("k" +:+ Sample.alice_id))
          "bearer"),
     Api.mkSession Sample.db [Api.users_query])
  ∧ Api.login_user Tokens.toy_mac "k" Identity.toy_verify 5000000
      "alice@example.com" "2" (Api.open_session Sample.db)
    = (Api.Raise (Api.HTTPException 401 "Incorrect email or password"),
       Api.mkSession Sample.db [Api.users_query])
  ∧ Api.login_user Tokens.toy_mac "k" Identity.toy_verify 5000000
      "nobody@example.com" "1" (Api.open_session Sample.db)
    = (Api.Raise (Api.HTTPException 401 "Incorrect email or password"),
       Api.mkSession Sample.db [Api.users_query]).
Proof.
  assert (Store.email_unique Sample.db) as Huniq
    by (unfold Store.email_unique; compute_done).
  split_and!.
  - apply (proj1 (login_checks_stored_password Tokens.toy_mac "k"
                    Identity.toy_verify 5000000 "alice@example.com" "1"
                    Sample.db Huniq) Sample.u_alice).
    + cbn. left.
    + reflexivity.
    + vm_compute. reflexivity.
  - apply (proj2 (login_checks_stored_password Tokens.toy_mac "k"
                    Identity.toy_verify 5000000 "alice@example.com" "2"
                    Sample.db Huniq)).
    intros u Hin He. cbn in Hin.
    apply elem_of_cons in Hin as [->|Hin]; [vm_compute; reflexivity|].
    apply elem_of_cons in Hin as [->|Hin]; [discriminate|].
    by apply elem_of_nil in Hin.
  - apply (proj2 (login_checks_stored_password Tokens.toy_mac "k"
                    Identity.toy_verify 5000000 "nobody@example.com" "1"
                    Sample.db Huniq)).
    intros u Hin He. cbn in Hin.
    apply elem_of_cons in Hin as [->|Hin]; [discriminate|].
    apply elem_of_cons in Hin as [->|Hin]; [discriminate|].
    by apply elem_of_nil in Hin.
Defined.



(** X16: the current-user endpoint answers 400 without touching the store
    when the token has no subject or one that does not parse as an
    identifier; 404 after one read of the users table when no stored user has
    the identifier; and otherwise the stored user with that identifier, as
    email, name, identifier and timestamps; it writes nothing. *)
Theorem current_user_lookup (token_data : Security.Claims.t) (db : Store.t) :
  Store.users_pk db →
  (Security.Claims.sub token_data ≫= Uuid.UUID = None →
   Api.get_current_user token_data (Api.open_session db)
   = (Api.Raise (Api.HTTPException 400 "Invalid user ID format"),
      Api.open_session db))
  ∧ (∀ i, Security.Claims.sub token_data ≫= Uuid.UUID = Some i →
          i ∉ (User.id <$> Store.users db) →
          Api.get_current_user token_data (Api.open_session db)
          = (Api.Raise (Api.HTTPException 404 "User not found"),
             Api.mkSession db [Api.users_query]))
  ∧ (∀ u, Security.Claims.sub token_data ≫= Uuid.UUID = Some (User.id u) →
          u ∈ Store.users db →
          Api.get_current_user token_data (Api.open_session db)
          = (Api.Return
               (Schema.User.mk (User.email u) (User.name u) (User.id u)
                  (User.created_at u) (User.updated_at u)),
             Api.mkSession db [Api.users_query])).
Proof.
  intros Hpk. split_and!.
  - intros Hsub. unfold Api.get_current_user. by rewrite Hsub.
  - intros i Hsub Hi. unfold Api.get_current_user. rewrite Hsub.
    unfold mbind, Api.M_bind, Api.storage.
    cbn [Api.db Api.open_session Api.accesses].
    assert (head (filter (λ u, User.id u = i) (Store.users db)) = None) as ->;
      [|done].
    apply head_filter_None. intros u Hu Hid. apply Hi, list_elem_of_fmap. eauto.
  - intros u Hsub Hin. by apply get_current_user_found.
Qed.

Lemma current_user_lookup_witness :
  (Api.get_current_user (Sample.claims_of "alice") (Api.open_session Sample.db)
   = (Api.Raise (Api.HTTPException 400 "Invalid user ID format"),
      Api.open_session Sample.db))
  ∧ Api.get_current_user (Sample.claims_of Sample.bob_id)
      (Api.open_session Sample.db)
    = (Api.Return
         (Schema.User.mk "bob@example.com" (Some "Bob") Sample.bob 11 11),
       Api.mkSession Sample.db [Api.users_query]).
Proof.
  assert (Store.users_pk Sample.db) as Hpk
    by (unfold Store.users_pk; compute_done).
  split.
  - apply (proj1 (current_user_lookup (Sample.claims_of "alice") Sample.db Hpk)).
    vm_compute. reflexivity.
  - apply (proj2 (proj2 (current_user_lookup (Sample.claims_of Sample.bob_id)
                           Sample.db Hpk)) Sample.u_bob).
    + vm_compute. reflexivity.
    + cbn. right. left.
Defined.

(** X17: with a password hasher whose hashes verify against the password
    they were made from, a user who has just been registered logs in with the
    submitted email and password: the answer is a bearer token whose subject is
    the text of the identifier that the registration returned; a password that
    does not verify against the stored hash is answered 401. *)
Theorem register_then_login
    (pwd_context_hash : string → string → string)
    (pwd_context_verify : string → string → bool)
    (hs256 : string → Security.Claims.t → string) (secret : string)
    (e : Api.env) (salt : string) (data : UserCreate.t) (utcnow : DateTime)
    (db : Store.t) (user : Schema.User.t) (s1 : Api.session) :
  (∀ salt password,
     pwd_context_verify password (pwd_context_hash salt password) = true) →
  Store.email_unique db →
  Api.register_user pwd_context_hash e salt data (Api.open_session db)
  = (Api.Return user, s1) →
  Schema.User.email user = UserCreate.email data
  ∧ Api.login_user hs256 secret pwd_context_verify utcnow
      (UserCreate.email data) (UserCreate.password data)
      (Api.open_session (Api.db s1))
    = (Api.Return
         (Api.LoginResponse.mk
            (Security.jwt_encode hs256
               (Security.Claims.mk (Some (Uuid.str (Schema.User.id user)))
                  (Some (UserCreate.email data))
                  (Some ((utcnow + Security.seven_days)
                         `div` Security.microseconds)))
               secret)
            "bearer"),
       Api.mkSession (Api.db s1) [Api.users_query])
  ∧ (∀ password,
       pwd_context_verify password
         (pwd_context_hash salt (UserCreate.password data)) = false →
       Api.login_user hs256 secret pwd_context_verify utcnow
         (UserCreate.email data) password (Api.open_session (Api.db s1))
       = (Api.Raise (Api.HTTPException 401 "Incorrect email or password"),
          Api.mkSession (Api.db s1) [Api.users_query])).
Proof.
  intros Hhash Huniq Hreg.
  destruct (register_user_cases pwd_context_hash e salt data db)
    as [[Heq _]|[Heq|(Heq & Hnew & _ & _)]];
    rewrite Heq in Hreg; try done.
  injection Hreg as <- <-. cbn [Api.db].
  set (new := Registration.new_user pwd_context_hash e salt data).
  set (db1 := Store.mk (Store.engine db) (Store.users db ++ [new])
                (Store.tasks db)).
  assert (Store.email_unique db1) as Huniq1.
  { unfold Store.email_unique, db1. cbn [Store.users].
    rewrite fmap_app. apply NoDup_app. split_and!; [done| |apply NoDup_singleton].
    intros x Hx ->%list_elem_of_singleton. by apply Hnew. }
  assert (new ∈ Store.users db1) as Hin.
  { unfold db1. cbn [Store.users]. apply elem_of_app. right. left. }
  split_and!.
  - done.
  - exact (login_user_accepts hs256 secret pwd_context_verify utcnow
             (UserCreate.password data) db1 new Huniq1 Hin
             (Hhash salt (UserCreate.password data))).
  - intros password Hwrong. apply login_user_refuses.
    intros u Hu He.
    assert (u = new) as ->; [|exact Hwrong].
    by apply (NoDup_fmap_elem_of_eq User.email (Store.users db1)).
Qed.

Lemma register_then_login_witness :
  Api.login_user Tokens.toy_mac "k" Identity.toy_verify 5000000
    "carol@example.com" "secret1"
    (Api.open_session
       (Store.mk Engine.sqlite
          (Store.users Sample.db
           ++ [User.mk 0x33333333333333333333333333333333 "carol@example.com"
                 None "hsecret1" 30 30])
          (Store.tasks Sample.db)))
  = (Api.Return
       (Api.LoginResponse.mk
          (Security.jwt_encode Tokens.toy_mac
             (Security.Claims.mk
                (Some (Uuid.str 0x33333333333333333333333333333333))
                (Some "carol@example.com")
                (Some ((5000000 + Security.seven_days)
                       `div` Security.microseconds)))
             "k")
          "bearer"),
     Api.mkSession
       (Store.mk Engine.sqlite
          (Store.users Sample.db
           ++ [User.mk 0x33333333333333333333333333333333 "carol@example.com"
                 None "hsecret1" 30 30])
          (Store.tasks Sample.db))
       [Api.users_query]).
Proof.
  apply (register_then_login Identity.toy_hash Identity.toy_verify
           Tokens.toy_mac "k" (Registration.env Registration.carol)
           (Registration.salt Registration.carol)
           (Registration.data Registration.carol) 5000000 Sample.db
           (Schema.User.mk "carol@example.com" None
              0x33333333333333333333333333333333 30 30)
           (Api.mkSession
              (Store.mk Engine.sqlite
                 (Store.users Sample.db
                  ++ [User.mk 0x33333333333333333333333333333333
                        "carol@example.com" None "hsecret1" 30 30])
                 (Store.tasks Sample.db))
              [Api.users_query; Api.users_insert])).
  - intros salt password. apply bool_decide_eq_true_2. reflexivity.
  - unfold Store.email_unique. compute_done.
  - vm_compute. reflexivity.
Defined.

(** ** The script that creates the test user *)

(** X18: a run of the script that ends without an exception leaves a store
    on which any later run only reports that the test user exists and changes
    nothing; the run itself either found a user with the test email and
    changed nothing, or appended one user, with the test email, the name
    ["Test User"], the hash of ["testpass"] and the drawn identifier, and
    reported the text of that identifier; the tasks table is never
    changed. *)
Theorem test_user_script_idempotent
    (pwd_context_hash : string → string → string)
    (e e' : Api.env) (salt salt' : string) (db db1 : Store.t) (line : string) :
  CreateTestUser.create_test_user pwd_context_hash e salt db
  = Committed (db1, line) →
  CreateTestUser.create_test_user pwd_context_hash e' salt' db1
  = Committed (db1, "Test user 'test@example.com' already exists.")
  ∧ Store.tasks db1 = Store.tasks db
  ∧ ((db1 = db
      ∧ line = "Test user 'test@example.com' already exists."
      ∧ "test@example.com" ∈ (User.email <$> Store.users db))
     ∨ (Store.users db1
        = Store.users db
          ++ [User.mk (Api.uuid4 e) "test@example.com" (Some "Test User")
                (pwd_context_hash salt "testpass") (Api.now e) (Api.now e)]
        ∧ line = "Successfully created user 'test@example.com' with ID: "
                 +:+ Uuid.str (Api.uuid4 e)
        ∧ "test@example.com" ∉ (User.email <$> Store.users db))).
Proof.
  intros Hrun.
  assert ("test@example.com" ∈ (User.email <$> Store.users db1)
          ∧ Store.tasks db1 = Store.tasks db
          ∧ ((db1 = db
              ∧ line = "Test user 'test@example.com' already exists."
              ∧ "test@example.com" ∈ (User.email <$> Store.users db))
             ∨ (Store.users db1
                = Store.users db
                  ++ [User.mk (Api.uuid4 e) "test@example.com" (Some "Test User")
                        (pwd_context_hash salt "testpass") (Api.now e) (Api.now e)]
                ∧ line = "Successfully created user 'test@example.com' with ID: "
                         +:+ Uuid.str (Api.uuid4 e)
                ∧ "test@example.com" ∉ (User.email <$> Store.users db))))
    as (Hin & Htasks & Hcases).
  { revert Hrun. unfold CreateTestUser.create_test_user.
    destruct (head (filter (λ u, User.email u = "test@example.com")
                      (Store.users db))) as [u|] eqn:E.
    - intros [= <- <-].
      apply head_filter_elem_of in E as [Hin He].
      assert ("test@example.com" ∈ (User.email <$> Store.users db))
        by (apply list_elem_of_fmap; eauto).
      split_and!; try done. by left.
    - unfold Store.insert_user. repeat case_decide; try done.
      intros [= <- <-]. cbn [Store.users Store.tasks].
      apply head_filter_email in E.
      split_and!; try done; [|by right].
      rewrite fmap_app. apply elem_of_app. right. cbn. left. }
  split_and!; try done. by apply create_test_user_existing.
Qed.

Lemma test_user_script_idempotent_witness :
  CreateTestUser.create_test_user Identity.toy_hash (Api.mkEnv 2000 777) "s2"
    (Store.mk Engine.sqlite
       (Store.users Sample.db
        ++ [User.mk 555 "test@example.com" (Some "Test User") "htestpass"
              1000 1000])
       (Store.tasks Sample.db))
  = Committed
      (Store.mk Engine.sqlite
         (Store.users Sample.db
          ++ [User.mk 555 "test@example.com" (Some "Test User") "htestpass"
                1000 1000])
         (Store.tasks Sample.db),
       "Test user 'test@example.com' already exists.").
Proof.
  apply (test_user_script_idempotent Identity.toy_hash Sample.env
           (Api.mkEnv 2000 777) "s1" "s2" Sample.db
           (Store.mk Engine.sqlite
              (Store.users Sample.db
               ++ [User.mk 555 "test@example.com" (Some "Test User") "htestpass"
                     1000 1000])
              (Store.tasks Sample.db))
           ("Successfully created user 'test@example.com' with ID: "
            +:+ Uuid.str 555)).
  vm_compute. reflexivity.
Defined.

(** ** Identifiers as text *)

(** X19: the text that [str] writes for a 128-bit identifier has the
    canonical form, 36 characters in groups of 8, 4, 4, 4 and 12 hexadecimal
    digits, and [uuid.UUID] reads it back as the same identifier; so two
    identifiers with the same text are equal. *)
Theorem identifier_text_round_trip (i : UUID) :
  0 ≤ i < 2 ^ 128 →
  Uuid.UUID (Uuid.str i) = Some i
  ∧ String.length (Uuid.str i) = 36%nat
  ∧ Uuid.canonical (Uuid.str i) = true
  ∧ (∀ j, 0 ≤ j < 2 ^ 128 → Uuid.str j = Uuid.str i → j = i).
Proof.
  intros Hi. destruct (str_canonical i) as [Hlen Hcan].
  split_and!; try done; [by apply UUID_str|].
  intros j Hj Heq. apply UUID_str in Hj. rewrite Heq, UUID_str in Hj by done.
  congruence.
Qed.

Lemma identifier_text_round_trip_witness :
  Uuid.UUID (Uuid.str Sample.alice) = Some Sample.alice
  ∧ String.length (Uuid.str Sample.alice) = 36%nat
  ∧ Uuid.canonical (Uuid.str Sample.alice) = true
  ∧ (∀ j, 0 ≤ j < 2 ^ 128 → Uuid.str j = Uuid.str Sample.alice → j = Sample.alice).
Proof.
  apply (identifier_text_round_trip Sample.alice).
  unfold Sample.alice. lia.
Defined.

Example identifier_text_samples :
  Uuid.str Sample.alice = Sample.alice_id
  ∧ Uuid.str 101 = Sample.t1_id
  ∧ Uuid.str 0 = "00000000-0000-0000-0000-000000000000"
  ∧ Uuid.str (2 ^ 128 - 1) = "ffffffff-ffff-ffff-ffff-ffffffffffff".
Proof. vm_compute. repeat split; reflexivity. Qed.
